(** * cert-check: certificate-chain acquisition and normalisation

    A shallow embedding of [server/src/utils/certParser.js] and
    [server/src/utils/tlsClient.js], and the properties of the two
    acquisition paths (live TLS session, external toolkit text).

    Conventions of the embedding.
    - A JavaScript string is a [string]: the sequence of its characters, each
      an 8-bit [ascii].  Case folding and the whitespace class act on the
      ASCII range, which is what the toolkit and the platform TLS stack emit
      for the fields read here; other bytes are left alone.
    - A property that may be [undefined] is an [option]; a JavaScript object
      used as a map is a [gmap string _] or an association list when the key
      order is observable (as under [JSON.stringify]).
    - A promise that may reject, and a function that may throw, return a
      [result]: [Ok v] or [Err message].
    - The network, the external toolkit and the platform's [Date] are inputs:
      what a handshake under a profile did, what a toolkit invocation
      printed, how a text reads as a date. *)

From Stdlib Require Import ZArith Ascii String DecimalString List Bool Lia.
From Stdlib Require Import DecimalPos.
From stdpp Require Import base option list strings gmap sets.
Import ListNotations.
Local Open Scope string_scope.
Local Open Scope list_scope.

(** ** Results of fallible computations *)

Inductive result (A : Type) : Type :=
| Ok (v : A)
| Err (message : string).
Arguments Ok {A} v.
Arguments Err {A} message.

(** ** JavaScript string primitives *)

Module Js.

Definition code (c : ascii) : nat := nat_of_ascii c.

(** [String.prototype.toLowerCase], on the ASCII range. *)
Definition lower_char (c : ascii) : ascii :=
  if (65 <=? code c)%nat && (code c <=? 90)%nat
  then ascii_of_nat (code c + 32) else c.

Fixpoint toLowerCase (s : string) : string :=
  match s with
  | EmptyString => EmptyString
  | String c s' => String (lower_char c) (toLowerCase s')
  end.

Definition upper_char (c : ascii) : ascii :=
  if (97 <=? code c)%nat && (code c <=? 122)%nat
  then ascii_of_nat (code c - 32) else c.

Fixpoint toUpperCase (s : string) : string :=
  match s with
  | EmptyString => EmptyString
  | String c s' => String (upper_char c) (toUpperCase s')
  end.

(** White space of [\s] and of [trim]: TAB, LF, VT, FF, CR, SPACE. *)
Definition is_space (c : ascii) : bool :=
  ((9 <=? code c)%nat && (code c <=? 13)%nat) || (code c =? 32)%nat.

(** Line terminators, which [.] does not match: LF and CR. *)
Definition is_newline (c : ascii) : bool :=
  (code c =? 10)%nat || (code c =? 13)%nat.

Definition is_digit (c : ascii) : bool :=
  (48 <=? code c)%nat && (code c <=? 57)%nat.

(** [s.startsWith(p)] *)
Fixpoint startsWith (p s : string) : bool :=
  match p, s with
  | EmptyString, _ => true
  | String a p', String b s' => if Ascii.eqb a b then startsWith p' s' else false
  | String _ _, EmptyString => false
  end.

(** [s.includes(p)] *)
Fixpoint includes (p s : string) : bool :=
  startsWith p s ||
  match s with
  | EmptyString => false
  | String _ s' => includes p s'
  end.

Definition is_empty (s : string) : bool :=
  match s with EmptyString => true | _ => false end.

Fixpoint trimStart (s : string) : string :=
  match s with
  | EmptyString => EmptyString
  | String c s' => if is_space c then trimStart s' else s
  end.

(** A character survives [trimEnd] when it is not white space or when
    something after it survives. *)
Fixpoint trimEnd (s : string) : string :=
  match s with
  | EmptyString => EmptyString
  | String c s' =>
      let t := trimEnd s' in
      if is_space c && is_empty t then EmptyString else String c t
  end.

Definition trim (s : string) : string := trimEnd (trimStart s).

Definition cons_head (c : ascii) (ws : list string) : list string :=
  match ws with
  | [] => [String c EmptyString]
  | w :: ws' => String c w :: ws'
  end.

(** [s.split(sep)] for a one-character separator. *)
Fixpoint split_char (sep : ascii) (s : string) : list string :=
  match s with
  | EmptyString => [EmptyString]
  | String c s' =>
      if Ascii.eqb c sep then EmptyString :: split_char sep s'
      else cons_head c (split_char sep s')
  end.

(** [s.split(', ')]: the separator is a comma followed by a space; matches
    are taken left to right and do not overlap. *)
Fixpoint split_comma_space (s : string) : list string :=
  match s with
  | EmptyString => [EmptyString]
  | String c s' =>
      match s' with
      | String d s'' =>
          if Ascii.eqb c "," && Ascii.eqb d " "
          then EmptyString :: split_comma_space s''
          else cons_head c (split_comma_space s')
      | EmptyString => [String c EmptyString]
      end
  end.

(** Truthiness of a string-valued property that may be absent:
    [undefined] and the empty string are falsy. *)
Definition truthy (o : option string) : bool :=
  match o with
  | Some s => negb (is_empty s)
  | None => false
  end.

(** [o || d] for a string-valued property. *)
Definition or_else (o : option string) (d : string) : string :=
  match o with
  | Some s => if is_empty s then d else s
  | None => d
  end.

End Js.

(** ** The regular expressions of the text path

    Every pattern the text path uses is a sequence of literal characters and
    of greedy quantifiers over one character class, with one capture group
    of the form [(X+)].  [match_here] is the backtracking matcher anchored at
    the start of its input, [exec] the leftmost match, as
    [String.prototype.match] without the [g] flag returns it; the result is
    the text of the capture group.  All these patterns carry the [i] flag:
    literals and classes see the lower-cased character. *)

Module Re.

Inductive item : Type :=
| Chr (c : ascii)
| One (cls : ascii -> bool)
| Opt (cls : ascii -> bool)
| Star (cls : ascii -> bool)
| Group (cls : ascii -> bool).

Fixpoint lit (s : string) : list item :=
  match s with
  | EmptyString => []
  | String c s' => Chr c :: lit s'
  end.

Definition first_of {A} (a b : option A) : option A :=
  match a with Some _ => a | None => b end.

Fixpoint match_here (its : list item) (s : string) (cap : option string)
  {struct its} : option (option string) :=
  match its with
  | [] => Some cap
  | Chr c :: r =>
      match s with
      | String d s' =>
          if Ascii.eqb (Js.lower_char c) (Js.lower_char d)
          then match_here r s' cap else None
      | EmptyString => None
      end
  | One cls :: r =>
      match s with
      | String d s' => if cls (Js.lower_char d) then match_here r s' cap else None
      | EmptyString => None
      end
  | Opt cls :: r =>
      match s with
      | String d s' =>
          if cls (Js.lower_char d)
          then first_of (match_here r s' cap) (match_here r s cap)
          else match_here r s cap
      | EmptyString => match_here r s cap
      end
  | Star cls :: r =>
      (fix star (t : string) : option (option string) :=
         match t with
         | String d t' =>
             if cls (Js.lower_char d)
             then first_of (star t') (match_here r t cap)
             else match_here r t cap
         | EmptyString => match_here r t cap
         end) s
  | Group cls :: r =>
      match s with
      | String d s' =>
          if cls (Js.lower_char d)
          then
            (fix more (acc t : string) : option (option string) :=
               match t with
               | String e t' =>
                   if cls (Js.lower_char e)
                   then first_of (more (acc +:+ String e EmptyString) t')
                                 (match_here r t (Some acc))
                   else match_here r t (Some acc)
               | EmptyString => match_here r t (Some acc)
               end) (String d EmptyString) s'
          else None
      | EmptyString => None
      end
  end.

Fixpoint search (its : list item) (s : string) : option (option string) :=
  match match_here its s None with
  | Some c => Some c
  | None =>
      match s with
      | String _ s' => search its s'
      | EmptyString => None
      end
  end.

(** [s.match(re)?.[1]] *)
Definition exec (its : list item) (s : string) : option string :=
  match search its s with
  | Some (Some c) => Some c
  | _ => None
  end.

(** Character classes. *)
Definition space : ascii -> bool := Js.is_space.                (* \s *)
Definition nonspace (c : ascii) : bool := negb (Js.is_space c). (* \S *)
Definition dot (c : ascii) : bool := negb (Js.is_newline c).    (* .  *)
Definition digit : ascii -> bool := Js.is_digit.                (* \d *)
Definition not_lf (c : ascii) : bool := negb (Js.code c =? 10)%nat.   (* [^\n] *)
Definition lf (c : ascii) : bool := (Js.code c =? 10)%nat.            (* \n *)
Definition not_comma (c : ascii) : bool := negb (Ascii.eqb c ",").    (* [^,] *)
(** [[a-f0-9:]] and [[A-F0-9:]] under the [i] flag. *)
Definition hex_colon (c : ascii) : bool :=
  Js.is_digit c || ((97 <=? Js.code c)%nat && (Js.code c <=? 102)%nat)
  || Ascii.eqb c ":".

Definition subjectRe := lit "Subject:" ++ [Star space; Group dot].
Definition issuerRe := lit "Issuer:" ++ [Star space; Group dot].
Definition notBeforeRe := lit "Not Before:" ++ [Star space; Group dot].
Definition notAfterRe :=
  lit "Not After" ++ [Star space] ++ lit ":" ++ [Star space; Group dot].
Definition serialRe :=
  lit "Serial Number:" ++ [Star space; Opt lf; Star space; Group hex_colon].
Definition fingerprintRe := lit "sha256 Fingerprint=" ++ [Group hex_colon].
Definition keySizeRe :=
  lit "Public-Key:" ++ [Star space] ++ lit "(" ++ [Group digit; Star space]
  ++ lit "bit".
Definition curveRe := lit "ASN1 OID:" ++ [Star space; Group nonspace].
Definition pubKeyRe := lit "Public Key Algorithm:" ++ [Star space; Group nonspace].
Definition sigAlgoRe := lit "Signature Algorithm:" ++ [Star space; Group nonspace].
Definition sanRe :=
  lit "X509v3 Subject Alternative Name:"
  ++ [Star not_lf; One lf; Star space; Group not_lf].
Definition dnRe (key : string) :=
  lit key ++ [Star space] ++ lit "=" ++ [Star space; Group not_comma].
Definition protocolRe :=
  lit "Protocol" ++ [Star space] ++ lit ":" ++ [Star space; Group nonspace].
Definition cipherRe :=
  lit "Cipher" ++ [Star space] ++ lit ":" ++ [Star space; Group nonspace].
Definition cipherIsRe := lit "Cipher is" ++ [One space; Star space; Group nonspace].

End Re.

Definition LF : string := String (ascii_of_nat 10) EmptyString.

(** ** Data model *)

(** [publicKey.type] *)
Inductive KeyType : Type := RSA | ECC | SM2 | Unknown.

(** [validationLevel.level] *)
Inductive LevelTag : Type := DV | OV | EV.

(** [type] of a chain entry: ['leaf'], ['intermediate'], ['root'],
    ['self-signed']. *)
Inductive CertType : Type := leaf | intermediate | root | self_signed.

Global Instance KeyType_eq_dec : EqDecision KeyType.
Proof. solve_decision. Defined.
Global Instance LevelTag_eq_dec : EqDecision LevelTag.
Proof. solve_decision. Defined.
Global Instance CertType_eq_dec : EqDecision CertType.
Proof. solve_decision. Defined.

Module PublicKey.
Record t : Type := mk {
  type : KeyType;
  typeName : string;
  algorithm : string;
  curve : option string;          (* [null] is [None] *)
  bits : Z;
  description : option string     (* absent on the text path *)
}.
End PublicKey.

Module SigAlg.
Record t : Type := mk {
  algorithm : string;
  description : string
}.
End SigAlg.

Module Level.
Record t : Type := mk {
  level : LevelTag;
  name : option string;           (* absent on the text path *)
  nameCN : string;
  description : string;
  color : string
}.
End Level.

(** The value of an attribute of a name.  The platform's certificate object
    gives a string, or an array of strings when the name has the attribute
    more than once; the text path makes strings only. *)
Module Attr.
Inductive t : Type :=
| Text (s : string)
| Many (values : list string).

(** Truthiness of a property that may be absent: [undefined] and the empty
    string are falsy, an array is an object and truthy. *)
Definition truthy (o : option t) : bool :=
  match o with
  | Some (Text s) => negb (Js.is_empty s)
  | Some (Many _) => true
  | None => false
  end.

(** [o || d] *)
Definition or_else (o : option t) (d : string) : t :=
  match o with
  | Some v => if truthy o then v else Text d
  | None => Text d
  end.

(** [a === b] for properties of two objects.  Two strings are identical
    when they have the same characters, [undefined] is identical to
    [undefined], and an array is identical to itself only: the array of one
    name never is the array of another. *)
Definition identical (a b : option t) : bool :=
  match a, b with
  | None, None => true
  | Some (Text s), Some (Text s') => bool_decide (s = s')
  | _, _ => false
  end.
End Attr.

(** A parsed subject or issuer.  [parseSubject] of an absent name is [{}]:
    every property is [undefined]. *)
Module Subject.
Record t : Type := mk {
  commonName : option Attr.t;
  organization : option Attr.t;
  organizationalUnit : option Attr.t;
  country : option Attr.t;
  state : option Attr.t;
  locality : option Attr.t
}.
Definition empty : t := mk None None None None None None.
End Subject.

(** One entry of the live path's [subjectAltNames]. *)
Module AltName.
Record t : Type := mk {
  type : option string;
  value : option string
}.
End AltName.

(** [subjectAltNames]: objects on the live path, strings on the text path. *)
Inductive AltNames : Type :=
| SanEntries (l : list AltName.t)
| SanStrings (l : list string).

(** A certificate record of the chain.  [validFrom] and [validTo] are
    [null] when the certificate has no such date; [type] and [typeName] are
    assigned by the chain walker or by [parseOpenSSLOutput] after the record
    is built; [rawPEM] and [isGM] exist on the text path only (the live
    path's [raw], a binary-to-text encoding, is not modelled). *)
Module Cert.
Record t : Type := mk {
  subject : Subject.t;
  issuer : Subject.t;
  validFrom : option string;
  validTo : option string;
  serialNumber : string;
  fingerprint : string;
  fingerprint256 : string;
  subjectAltNames : AltNames;
  bits : Z;
  publicKey : PublicKey.t;
  signatureAlgorithm : SigAlg.t;
  validationLevel : Level.t;
  version : Z;
  rawPEM : option string;
  isGM : option bool;
  type : option CertType;
  typeName : option string
}.

(** [cert.type = ty; cert.typeName = tn] *)
Definition set_type (ty : CertType) (tn : string) (c : t) : t :=
  mk (subject c) (issuer c) (validFrom c) (validTo c) (serialNumber c) (fingerprint c)
     (fingerprint256 c) (subjectAltNames c) (bits c) (publicKey c)
     (signatureAlgorithm c) (validationLevel c) (version c) (rawPEM c)
     (isGM c) (Some ty) (Some tn).

(** The property names of the record, as the object literal and the later
    assignments create them. *)
Definition fields (c : t) : list string :=
  ["subject"; "issuer"; "validFrom"; "validTo"; "serialNumber";
   "fingerprint"; "fingerprint256"; "subjectAltNames"; "bits"; "publicKey";
   "signatureAlgorithm"; "validationLevel"; "version"]
  ++ match rawPEM c with Some _ => ["rawPEM"] | None => ["raw"] end
  ++ match isGM c with Some _ => ["isGM"] | None => [] end
  ++ match type c with Some _ => ["type"; "typeName"] | None => [] end.
End Cert.

(** The certificate object of the platform TLS stack
    ([socket.getPeerCertificate(true)]).  [issuerCertificate] is a reference
    to another such object: objects live in a store and a reference is the
    index of its target, so that [cert.issuerCertificate === cert] is
    equality of indices and reference cycles can be written down. *)
Module Peer.
Record t : Type := mk {
  subject : option (gmap string Attr.t);
  issuer : option (gmap string Attr.t);
  valid_from : option string;
  valid_to : option string;
  infoAccess : option (list (string * list string));
  asn1Curve : option string;
  modulus : option string;
  bits : option Z;
  pubkey : option (list Byte.byte);
  serialNumber : option string;
  fingerprint : option string;
  fingerprint256 : option string;
  subjectaltname : option string;
  version : option Z;
  issuerCertificate : option nat
}.
End Peer.

(** The platform's [Date], as the two formatting functions use it: what
    [new Date(text).toISOString()] gives, or [None] when the platform does
    not read [text] as a date (the date is invalid, [getTime()] is [NaN] and
    [toISOString()] throws a [RangeError]). *)
Class DateReader : Type := readDate : string -> option string.

(** [n || d] for a number-valued property: [undefined] and [0] are falsy. *)
Definition num_or (o : option Z) (d : Z) : Z :=
  match o with
  | Some n => if (n =? 0)%Z then d else n
  | None => d
  end.

(** ** certParser.js *)

Module CertParser.

Definition SM2_CURVES : list string := ["SM2"; "sm2p256v1"; "1.2.156.10197.1.301"].

Definition EV_OIDS : list string :=
  ["2.23.140.1.1";
   "1.3.6.1.4.1.34697.2.1";
   "1.3.6.1.4.1.6449.1.2.1.5.1";
   "2.16.840.1.114412.2.1";
   "2.16.840.1.114028.10.1.2";
   "1.3.6.1.4.1.14370.1.6";
   "1.3.6.1.4.1.4146.1.1";
   "2.16.840.1.114413.1.7.23.3";
   "2.16.840.1.114414.1.7.23.3";
   "2.16.756.1.89.1.2.1.1";
   "1.3.6.1.4.1.8024.0.2.100.1.2";
   "1.2.616.1.113527.2.5.1.1";
   "1.3.6.1.4.1.23223.1.1.1";
   "2.16.840.1.113733.1.7.23.6";
   "2.16.840.1.114404.1.1.2.4.1";
   "1.3.6.1.4.1.17326.10.14.2.1.2";
   "1.3.6.1.4.1.22234.2.5.2.3.1"].

Definition ECC_CURVES : list (string * string) :=
  [("prime256v1", "P-256 (secp256r1)");
   ("secp256r1", "P-256 (secp256r1)");
   ("secp384r1", "P-384 (secp384r1)");
   ("secp521r1", "P-521 (secp521r1)");
   ("secp256k1", "secp256k1 (Bitcoin)");
   ("X25519", "X25519");
   ("Ed25519", "Ed25519");
   ("X448", "X448");
   ("Ed448", "Ed448")].

Fixpoint assoc (k : string) (tbl : list (string * string)) : option string :=
  match tbl with
  | [] => None
  | (k', v) :: tbl' => if String.eqb k k' then Some v else assoc k tbl'
  end.

(** Decimal rendering of a number inside a template string. *)
Definition show_Z (n : Z) : string := NilZero.string_of_int (Z.to_int n).

(** [SM2_CURVES.some(sm2 => curve.toLowerCase().includes(sm2.toLowerCase()))] *)
Definition is_sm2_curve (curve : string) : bool :=
  existsb (fun sm2 => Js.includes (Js.toLowerCase sm2) (Js.toLowerCase curve))
          SM2_CURVES.

Definition parsePublicKeyAlgorithm (cert : Peer.t) : PublicKey.t :=
  if Js.truthy (Peer.asn1Curve cert) then
    let curve := default EmptyString (Peer.asn1Curve cert) in
    if is_sm2_curve curve then
      PublicKey.mk SM2 "国密 SM2" "SM2" (Some curve) 256
                   (Some "中国商用密码算法")
    else
      let curveName := Js.or_else (assoc curve ECC_CURVES) curve in
      let bits :=
        if Js.includes "384" curve then 384%Z
        else if Js.includes "521" curve then 521%Z
        else if Js.includes "448" curve then 448%Z
        else 256%Z in
      PublicKey.mk ECC "椭圆曲线" "ECDSA" (Some curveName)
                   (num_or (Peer.bits cert) bits)
                   (Some ("椭圆曲线加密 (" +:+ curveName +:+ ")"))
  else if Js.truthy (Peer.modulus cert) then
    let bits :=
      num_or (Peer.bits cert)
             (Z.of_nat (String.length (default EmptyString (Peer.modulus cert))) * 4)%Z in
    PublicKey.mk RSA "非对称加密" "RSA" None bits
                 (Some ("RSA " +:+ show_Z bits +:+ " 位"))
  else
    match Peer.pubkey cert with
    | Some key =>
        if (length key =? 32)%nat || (length key =? 44)%nat then
          PublicKey.mk ECC "椭圆曲线" "Ed25519" (Some "Ed25519") 256
                       (Some "Edwards-curve (Ed25519)")
        else
          PublicKey.mk Unknown "未知" "Unknown" None
                       (num_or (Peer.bits cert) 0) (Some "未知算法")
    | None =>
        PublicKey.mk Unknown "未知" "Unknown" None
                     (num_or (Peer.bits cert) 0) (Some "未知算法")
    end.

Definition parseSignatureAlgorithm (cert : Peer.t) : SigAlg.t :=
  match PublicKey.type (parsePublicKeyAlgorithm cert) with
  | SM2 => SigAlg.mk "SM3withSM2" "国密签名算法"
  | ECC => SigAlg.mk "ECDSA with SHA-256" "椭圆曲线签名"
  | RSA => SigAlg.mk "SHA-256 with RSA" "RSA 签名"
  | Unknown => SigAlg.mk "Unknown" "未知"
  end.

(** [JSON.stringify] of a string. *)
Definition dquote : string := String (ascii_of_nat 34) EmptyString.

Definition hex_digit (n : nat) : ascii :=
  if (n <? 10)%nat then ascii_of_nat (48 + n) else ascii_of_nat (87 + n).

Definition json_escape (c : ascii) : string :=
  let n := Js.code c in
  if (n =? 34)%nat then "\" +:+ dquote
  else if (n =? 92)%nat then "\\"
  else if (n =? 8)%nat then "\b"
  else if (n =? 12)%nat then "\f"
  else if (n =? 10)%nat then "\n"
  else if (n =? 13)%nat then "\r"
  else if (n =? 9)%nat then "\t"
  else if (n <? 32)%nat then
    "\u00" +:+ String (hex_digit (n / 16))
                        (String (hex_digit (n mod 16)) EmptyString)
  else String c EmptyString.

Fixpoint json_chars (s : string) : string :=
  match s with
  | EmptyString => EmptyString
  | String c s' => json_escape c +:+ json_chars s'
  end.

Definition json_string (s : string) : string :=
  dquote +:+ json_chars s +:+ dquote.

Fixpoint join (sep : string) (l : list string) : string :=
  match l with
  | [] => EmptyString
  | [x] => x
  | x :: l' => x +:+ sep +:+ join sep l'
  end.

(** [JSON.stringify(infoAccess)]: an object whose values are arrays of
    strings, its keys in insertion order. *)
Definition json_infoAccess (o : list (string * list string)) : string :=
  "{" +:+ join "," (map (fun kv => json_string (fst kv) +:+ ":[" +:+
                                   join "," (map json_string (snd kv)) +:+ "]") o)
      +:+ "}".

Definition hasEVOID (cert : Peer.t) : bool :=
  let infoAccess := default [] (Peer.infoAccess cert) in
  let infoAccessStr := json_infoAccess infoAccess in
  existsb (fun oid => Js.includes oid infoAccessStr) EV_OIDS.

Definition subject_of (cert : Peer.t) : gmap string Attr.t :=
  default ∅ (Peer.subject cert).

Definition hasFullOrgInfo (cert : Peer.t) : bool :=
  let subject := subject_of cert in
  Attr.truthy (subject !! "O") && Attr.truthy (subject !! "L")
  && (Attr.truthy (subject !! "ST") || Attr.truthy (subject !! "S"))
  && Attr.truthy (subject !! "C").

Definition hasEVFields (cert : Peer.t) : bool :=
  let subject := subject_of cert in
  Attr.truthy (subject !! "businessCategory")
  || Attr.truthy (subject !! "serialNumber").

Definition parseValidationLevel (cert : Peer.t) : Level.t :=
  if hasEVOID cert || (hasFullOrgInfo cert && hasEVFields cert) then
    Level.mk EV (Some "Extended Validation") "扩展验证"
             "最高级别验证，验证组织身份和法律存在性" "green"
  else if Attr.truthy (subject_of cert !! "O") then
    Level.mk OV (Some "Organization Validation") "组织验证"
             "验证域名所有权和组织身份" "blue"
  else
    Level.mk DV (Some "Domain Validation") "域名验证"
             "仅验证域名所有权" "orange".

Definition parseSubject (subject : option (gmap string Attr.t)) : Subject.t :=
  match subject with
  | None => Subject.empty
  | Some subject =>
      Subject.mk (Some (Attr.or_else (subject !! "CN") EmptyString))
                 (Some (Attr.or_else (subject !! "O") EmptyString))
                 (Some (Attr.or_else (subject !! "OU") EmptyString))
                 (Some (Attr.or_else (subject !! "C") EmptyString))
                 (Some (Attr.or_else (subject !! "ST") EmptyString))
                 (Some (Attr.or_else (subject !! "L") EmptyString))
  end.

(** [const [type, value] = name.split(':')]: the first two pieces. *)
Definition altName_of (name : string) : AltName.t :=
  let parts := Js.split_char ":" name in
  AltName.mk (parts !! 0%nat) (parts !! 1%nat).

Definition parseAltNames (subjectaltname : option string) : list AltName.t :=
  if Js.truthy subjectaltname then
    map altName_of (Js.split_comma_space (default EmptyString subjectaltname))
  else [].

Definition E_INVALID_TIME : string := "Invalid time value".

(** [formatDate]: [null] for an absent date; [toISOString()] throws on a
    text that is not a date. *)
Definition formatDate {date : DateReader} (dateStr : option string)
  : result (option string) :=
  if negb (Js.truthy dateStr) then Ok None
  else
    match readDate (default EmptyString dateStr) with
    | Some iso => Ok (Some iso)
    | None => Err E_INVALID_TIME
    end.

(** The object literal of [parseCertificate], once its two dates are
    formatted. *)
Definition record (cert : Peer.t) (validFrom validTo : option string) : Cert.t :=
  let publicKeyInfo := parsePublicKeyAlgorithm cert in
  let signatureInfo := parseSignatureAlgorithm cert in
  let validationLevel := parseValidationLevel cert in
  Cert.mk (parseSubject (Peer.subject cert))
          (parseSubject (Peer.issuer cert))
          validFrom validTo
          (Js.or_else (Peer.serialNumber cert) EmptyString)
          (Js.or_else (Peer.fingerprint cert) EmptyString)
          (Js.or_else (Peer.fingerprint256 cert) EmptyString)
          (SanEntries (parseAltNames (Peer.subjectaltname cert)))
          (num_or (Peer.bits cert) (PublicKey.bits publicKeyInfo))
          publicKeyInfo signatureInfo validationLevel
          (num_or (Peer.version cert) 0)
          None None None None.

(** [parseCertificate] of a certificate object (the caller never passes a
    falsy one): the properties of the literal are evaluated in order, and
    the first date that cannot be formatted ends the call with its
    exception.  [type] and [typeName] are not set here. *)
Definition parseCertificate {date : DateReader} (cert : Peer.t) : result Cert.t :=
  match formatDate (Peer.valid_from cert) with
  | Err message => Err message
  | Ok validFrom =>
      match formatDate (Peer.valid_to cert) with
      | Err message => Err message
      | Ok validTo => Ok (record cert validFrom validTo)
      end
  end.

End CertParser.

(** ** tlsClient.js: the live path *)

Module Cipher.
(** [socket.getCipher()] on the live path; the text path sets [name] only. *)
Record t : Type := mk {
  name : string;
  standardName : option string;
  version : option string
}.
End Cipher.

Module Chain.
(** The result of one probe.  A property the object literal of a path does
    not write is [None]. *)
Record t : Type := mk {
  domain : string;
  port : Z;
  certificates : list Cert.t;
  isValid : bool;
  isSelfSigned : bool;
  isGMSSL : option bool;
  error : option string;
  protocol : option string;
  cipher : Cipher.t;
  fallback : option bool;
  fallbackReason : option string
}.

(** [result.fallback = true; result.fallbackReason = reason] *)
Definition set_fallback (reason : string) (r : t) : t :=
  mk (domain r) (port r) (certificates r) (isValid r) (isSelfSigned r)
     (isGMSSL r) (error r) (protocol r) (cipher r) (Some true) (Some reason).

(** The property names of the result object. *)
Definition fields (r : t) : list string :=
  ["domain"; "port"; "certificates"; "isValid"; "isSelfSigned"]
  ++ match isGMSSL r with Some _ => ["isGMSSL"] | None => [] end
  ++ ["error"; "protocol"; "cipher"]
  ++ match fallback r with Some _ => ["fallback"] | None => [] end
  ++ match fallbackReason r with Some _ => ["fallbackReason"] | None => [] end.
End Chain.

Module TlsConfig.
Record t : Type := mk {
  minVersion : string;
  maxVersion : string;
  ciphers : option string
}.
End TlsConfig.

Module Socket.
(** An established session: the certificate objects it exposes (a store of
    objects and the reference to the peer's, [None] when the stack returns
    no or an empty object), and the session metadata. *)
Record t : Type := mk {
  store : list Peer.t;
  peerCertificate : option nat;
  authorized : bool;
  authorizationError : option string;
  getProtocol : option string;
  getCipher : Cipher.t
}.
End Socket.

(** What one handshake attempt under one profile ends in: the connect
    callback, the socket's ['error'] event, its ['timeout'] event, or an
    exception that [tls.connect] throws before any event, as it does for a
    port outside 0..65535; the exception is thrown inside the promise
    executor and rejects the promise with its message. *)
Inductive Attempt : Type :=
| Connected (socket : Socket.t)
| Failed
| TimedOut
| Threw (message : string).

(** The network, as the probe sees it: the attempt's end for a host, a port,
    a timeout and a profile. *)
Definition Network : Type := string -> Z -> Z -> TlsConfig.t -> Attempt.

Module TlsClient.

Definition TLS_CONFIGS : list TlsConfig.t :=
  [TlsConfig.mk "TLSv1.2" "TLSv1.3" None;
   TlsConfig.mk "TLSv1" "TLSv1.3" None;
   TlsConfig.mk "TLSv1.2" "TLSv1.3" (Some "ALL")].

Definition E_CONNECT : string := "无法建立 TLS 连接".
Definition E_TIMEOUT : string := "连接超时".
Definition E_NO_CERT : string := "无法获取证书信息".
Definition E_FINAL : string := "无法获取证书信息，请检查域名是否正确".

(** The recursion of [tryConnect] on [configIndex + 1], as a recursion on
    the profiles that remain. *)
Fixpoint tryConnect_from (net : Network) (domain : string) (port timeout : Z)
  (configs : list TlsConfig.t) : result Socket.t :=
  match configs with
  | [] => Err E_CONNECT
  | config :: rest =>
      match net domain port timeout config with
      | Connected socket => Ok socket
      | Failed => tryConnect_from net domain port timeout rest
      | TimedOut => Err E_TIMEOUT
      | Threw message => Err message
      end
  end.

Definition tryConnect (net : Network) (domain : string) (port timeout : Z)
  (configIndex : nat) : result Socket.t :=
  tryConnect_from net domain port timeout (drop configIndex TLS_CONFIGS).

Definition is_none {A} (o : option A) : bool :=
  match o with None => true | Some _ => false end.

(** A reference is truthy when it points at an object. *)
Definition deref (store : list Peer.t) (ref : option nat) : option Peer.t :=
  match ref with
  | Some i => store !! i
  | None => None
  end.

(** The entry the loop body pushes for the object [c] that [cert]
    references, when [n] entries were collected before: position and
    display name are assigned to the parsed record. *)
Definition entry (store : list Peer.t) (cert : option nat) (c : Peer.t)
  (n : nat) (parsedCert : Cert.t) : Cert.t :=
  if (n =? 0)%nat then Cert.set_type leaf "服务器证书" parsedCert
  else if bool_decide (Peer.issuerCertificate c = cert)
          || is_none (deref store (Peer.issuerCertificate c))
  then Cert.set_type root "根证书" parsedCert
  else Cert.set_type intermediate "中间证书" parsedCert.

(** The [while] loop, one iteration for each unit of [fuel]; [None] when
    the fuel runs out before the loop ends, [Some (Err message)] when
    [parseCertificate] throws in the loop body. *)
Fixpoint walk {date : DateReader} (fuel : nat) (store : list Peer.t)
  (cert : option nat) (seen : gset (option string)) (certificates : list Cert.t)
  : option (result (list Cert.t)) :=
  match deref store cert with
  | None => Some (Ok certificates)
  | Some c =>
      if decide (Peer.fingerprint256 c ∈ seen) then Some (Ok certificates)
      else
        match fuel with
        | O => None
        | S fuel' =>
            let seen' := {[Peer.fingerprint256 c]} ∪ seen in
            match CertParser.parseCertificate c with
            | Err message => Some (Err message)
            | Ok parsedCert =>
                let certificates' :=
                  certificates
                  ++ [entry store cert c (length certificates) parsedCert] in
                if (10 <? length certificates')%nat then Some (Ok certificates')
                else walk fuel' store (Peer.issuerCertificate c) seen'
                          certificates'
            end
        end
  end.

(** [certificates.length === 1 &&
     certificates[0].subject.commonName === certificates[0].issuer.commonName] *)
Definition selfSigned (certificates : list Cert.t) : bool :=
  match certificates with
  | [c] => Attr.identical (Subject.commonName (Cert.subject c))
                          (Subject.commonName (Cert.issuer c))
  | _ => false
  end.

(** [certificates[0].type = 'self-signed'] when [isSelfSigned]. *)
Definition markSelfSigned (isSelfSigned : bool) (certificates : list Cert.t)
  : list Cert.t :=
  match certificates with
  | c :: rest =>
      if isSelfSigned then Cert.set_type self_signed "自签名证书" c :: rest
      else certificates
  | [] => certificates
  end.

(** Iterations of the loop that are always enough ([walk_terminates]). *)
Definition WALK_FUEL : nat := 11.

Definition getCertificateChain {date : DateReader} (net : Network)
  (domain : string) (port timeout : Z) : result Chain.t :=
  match tryConnect net domain port timeout 0 with
  | Err m => Err m
  | Ok socket =>
      match deref (Socket.store socket) (Socket.peerCertificate socket) with
      | None => Err E_NO_CERT
      | Some _ =>
          match walk WALK_FUEL (Socket.store socket)
                     (Socket.peerCertificate socket) ∅ [] with
          | None => Err "walk: out of fuel"
          | Some (Err message) => Err message
          | Some (Ok collected) =>
              let isSelfSigned := selfSigned collected in
              let certificates := markSelfSigned isSelfSigned collected in
              Ok (Chain.mk domain port certificates
                           (Socket.authorized socket)
                           isSelfSigned
                           None
                           (if Js.truthy (Socket.authorizationError socket)
                            then Socket.authorizationError socket else None)
                           (Socket.getProtocol socket)
                           (Socket.getCipher socket)
                           None None)
          end
      end
  end.

(** *** The text path *)

(** What one run of the external toolkit printed. *)
Record ExecOutput : Type := mkExec {
  code : Z;
  stdout : string;
  stderr : string
}.

(** The external toolkit: [execOpenSSL] for the [s_client] call (with or
    without the national transport flags) and for the [x509] call on one
    PEM block.  [Err] is a rejected promise: the run timed out or could not
    start. *)
Record Toolkit : Type := mkToolkit {
  s_client : bool -> string -> Z -> result ExecOutput;
  x509 : string -> result ExecOutput
}.

(** [parseInt] of a run of decimal digits. *)
Fixpoint parseInt_from (acc : Z) (s : string) : Z :=
  match s with
  | EmptyString => acc
  | String c s' =>
      if Js.is_digit c
      then parseInt_from (acc * 10 + Z.of_nat (Js.code c - 48)) s'
      else acc
  end.
Definition parseInt (s : string) : Z := parseInt_from 0 s.

(** [s.replace(/:/g, '')] *)
Fixpoint remove_colons (s : string) : string :=
  match s with
  | EmptyString => EmptyString
  | String c s' =>
      if Ascii.eqb c ":" then remove_colons s' else String c (remove_colons s')
  end.

(** [m?.[1]?.trim()] *)
Definition trimmed (m : option string) : option string := Js.trim <$> m.

(** [a || b] on values that are a string or [undefined]. *)
Definition or_opt (a b : option string) : option string :=
  if Js.truthy a then a else b.

Definition parseDNFromText (dn : string) : Subject.t :=
  if Js.is_empty dn then
    Subject.mk (Some (Attr.Text EmptyString)) None None None None None
  else
    let cn := Re.exec (Re.dnRe "CN") dn in
    let o := Re.exec (Re.dnRe "O") dn in
    let c := Re.exec (Re.dnRe "C") dn in
    let ou := Re.exec (Re.dnRe "OU") dn in
    let commonName :=
      Js.or_else (or_opt (or_opt (trimmed cn) (trimmed o)) (trimmed ou))
                 EmptyString in
    Subject.mk (Some (Attr.Text commonName))
               (Some (Attr.Text (Js.or_else (trimmed o) EmptyString)))
               None
               (Some (Attr.Text (Js.or_else (trimmed c) EmptyString)))
               None None.

Definition unknownDN : Subject.t :=
  Subject.mk (Some (Attr.Text "Unknown")) None None None None None.

(** [s.replace('T', ' ')]: the first occurrence. *)
Fixpoint replace_T (s : string) : string :=
  match s with
  | EmptyString => EmptyString
  | String c s' => if Ascii.eqb c "T" then String " " s' else String c (replace_T s')
  end.

(** [formatCertDate]: [null] for an empty text; the trimmed text itself
    when it is not a date. *)
Definition formatCertDate {date : DateReader} (dateStr : string) : option string :=
  if Js.is_empty dateStr then None
  else
    match readDate (Js.trim dateStr) with
    | Some iso => Some (String.substring 0 19 (replace_T iso))
    | None => Some (Js.trim dateStr)
    end.

(** [s.replace(/^dns:/i, '')] of a string that starts with [dns:]. *)
Definition strip_dns (s : string) : string :=
  if Js.startsWith "dns:" (Js.toLowerCase s) then String.substring 4 (String.length s - 4) s
  else s.

(** The subject alternative names of the captured line. *)
Definition sanNames (line : string) : list string :=
  filter (fun s => Js.is_empty s = false)
    (map (fun s => Js.trim (strip_dns s))
      (filter (fun s => Js.startsWith "dns:" (Js.toLowerCase s) = true)
        (map Js.trim (Js.split_char "," line)))).

(** The fields [parsePEMCertificate] reads from the decoded text. *)
Definition isGM_of (text : string) : bool :=
  let pubKeyAlgo := default EmptyString (Re.exec Re.pubKeyRe text) in
  let curve := default EmptyString (Re.exec Re.curveRe text) in
  Js.includes "sm2" (Js.toLowerCase pubKeyAlgo)
  || Js.includes "sm2" (Js.toLowerCase curve)
  || Js.includes "sm2p256v1" (Js.toLowerCase text)
  || Js.includes "sm2-with-sm3" (Js.toLowerCase text).

Definition parsePEMText {date : DateReader} (pem text : string) : Cert.t :=
  let subject :=
    match Re.exec Re.subjectRe text with
    | Some dn => parseDNFromText dn
    | None => unknownDN
    end in
  let issuer :=
    match Re.exec Re.issuerRe text with
    | Some dn => parseDNFromText dn
    | None => unknownDN
    end in
  let validFrom := Re.exec Re.notBeforeRe text ≫= formatCertDate in
  let validTo := Re.exec Re.notAfterRe text ≫= formatCertDate in
  let serialNumber :=
    match Re.exec Re.serialRe text with
    | Some m => Js.toUpperCase (remove_colons m)
    | None => EmptyString
    end in
  let fingerprint256 := default EmptyString (Re.exec Re.fingerprintRe text) in
  let keySizeMatch := Re.exec Re.keySizeRe text in
  let curve := default EmptyString (Re.exec Re.curveRe text) in
  let pubKeyAlgo := default EmptyString (Re.exec Re.pubKeyRe text) in
  let isGM := isGM_of text in
  let isECC :=
    negb isGM && (Js.includes "EC" pubKeyAlgo
                  || Js.includes "ec" (Js.toLowerCase pubKeyAlgo)) in
  let bits :=
    match keySizeMatch with
    | Some m => parseInt m
    | None => if isGM then 256%Z else 2048%Z
    end in
  let signatureAlgorithm := default EmptyString (Re.exec Re.sigAlgoRe text) in
  let subjectAltNames :=
    match Re.exec Re.sanRe text with
    | Some line => sanNames line
    | None => []
    end in
  let publicKey :=
    if isGM then
      PublicKey.mk SM2 "国密 SM2" "SM2"
                   (Some (Js.or_else (Some curve) "sm2p256v1")) 256 None
    else if isECC then
      PublicKey.mk ECC "椭圆曲线" "ECDSA" (Some curve) bits None
    else
      PublicKey.mk RSA "非对称加密" "RSA" None bits None in
  let sigInfo :=
    if Js.includes "sm2" (Js.toLowerCase signatureAlgorithm)
       || Js.includes "sm3" (Js.toLowerCase signatureAlgorithm)
    then SigAlg.mk "SM3withSM2" "国密签名算法"
    else SigAlg.mk signatureAlgorithm signatureAlgorithm in
  let hasOrg := Attr.truthy (Subject.organization subject) in
  let validationLevel :=
    if hasOrg
    then Level.mk OV None "组织验证" "验证域名所有权和组织身份" "blue"
    else Level.mk DV None "域名验证" "仅验证域名所有权" "green" in
  Cert.mk subject issuer validFrom validTo serialNumber EmptyString fingerprint256
          (SanStrings subjectAltNames) bits publicKey sigInfo validationLevel
          3 (Some pem) (Some isGM) None None.

(** [parsePEMCertificate]: [None] is the [null] of the [catch] branch. *)
Definition parsePEMCertificate {date : DateReader} (tool : Toolkit) (pem : string)
  : option Cert.t :=
  match x509 tool pem with
  | Ok out => Some (parsePEMText pem (stdout out +:+ stderr out))
  | Err _ => None
  end.

Definition PEM_BEGIN : string := "-----BEGIN CERTIFICATE-----".
Definition PEM_END : string := "-----END CERTIFICATE-----".

(** [s.substring(n)] *)
Fixpoint skip (n : nat) (s : string) : string :=
  match n, s with
  | S n', String _ s' => skip n' s'
  | _, _ => s
  end.

(** The shortest prefix of [s] that ends in [PEM_END], and what follows. *)
Fixpoint upto_end (s : string) : option (string * string) :=
  if Js.startsWith PEM_END s
  then Some (PEM_END, skip (String.length PEM_END) s)
  else
    match s with
    | EmptyString => None
    | String c s' =>
        match upto_end s' with
        | Some (body, rest) => Some (String c body, rest)
        | None => None
        end
    end.

(** [stdout.match(certRegex) || []] for the global, lazy
    [/-----BEGIN CERTIFICATE-----[\s\S]*?-----END CERTIFICATE-----/g]:
    the matches from left to right, each search resuming after the last
    match.  Every step consumes a character, so the length of the input is
    fuel enough. *)
Fixpoint pem_blocks_from (fuel : nat) (s : string) : list string :=
  match fuel with
  | O => []
  | S fuel' =>
      match s with
      | EmptyString => []
      | String _ s' =>
          if Js.startsWith PEM_BEGIN s then
            match upto_end (skip (String.length PEM_BEGIN) s) with
            | Some (body, rest) => (PEM_BEGIN +:+ body) :: pem_blocks_from fuel' rest
            | None => pem_blocks_from fuel' s'
            end
          else pem_blocks_from fuel' s'
      end
  end.

Definition pem_blocks (s : string) : list string :=
  pem_blocks_from (String.length s) s.

(** The position assigned by the [map] callback. *)
Definition positioned (len index : nat) (cert : Cert.t) : Cert.t :=
  if (index =? 0)%nat then Cert.set_type leaf "服务器证书" cert
  else if (index =? len - 1)%nat then Cert.set_type root "根证书" cert
  else Cert.set_type intermediate "中间证书" cert.

(** [parsedCerts.filter(Boolean).map((cert, index, arr) => ...)] *)
Definition classify (parsedCerts : list (option Cert.t)) : list Cert.t :=
  let arr := omap id parsedCerts in
  imap (positioned (length arr)) arr.

Definition hasGM (certificates : list Cert.t) : bool :=
  existsb (fun c => default false (Cert.isGM c)) certificates.

Definition parseOpenSSLOutput {date : DateReader} (tool : Toolkit)
  (stdout stderr domain : string) (port : Z) : Chain.t :=
  let certs := pem_blocks stdout in
  let parsedCerts := map (parsePEMCertificate tool) certs in
  let positionedCerts := classify parsedCerts in
  let protocolMatch :=
    or_opt (Re.exec Re.protocolRe stderr) (Re.exec Re.protocolRe stdout) in
  let cipherMatch :=
    or_opt (or_opt (Re.exec Re.cipherRe stderr) (Re.exec Re.cipherIsRe stderr))
           (Re.exec Re.cipherRe stdout) in
  let hasGMCert := hasGM positionedCerts in
  let isNTLS :=
    Js.includes "NTLS" stderr || Js.includes "GMTLS" stderr
    || Js.includes "GMSSL" stderr || hasGMCert in
  let isSelfSigned := selfSigned positionedCerts in
  let certificates := markSelfSigned isSelfSigned positionedCerts in
  let cipherName0 := Js.or_else cipherMatch EmptyString in
  let cipherName :=
    if Js.is_empty cipherName0 && hasGMCert then "SM2-WITH-SM4-SM3"
    else cipherName0 in
  Chain.mk domain port certificates true isSelfSigned
           (Some (isNTLS || hasGMCert))
           None
           (Some (Js.or_else protocolMatch
                             (if isNTLS || hasGMCert then "GMTLS" else "TLS")))
           (Cipher.mk (Js.or_else (Some cipherName) "Unknown") None None)
           None None.

Definition hasCertificate (out : ExecOutput) : bool :=
  Js.includes "BEGIN CERTIFICATE" (stdout out).

Definition getGMCertificateChain {date : DateReader} (tool : Toolkit)
  (domain : string) (port : Z) : result Chain.t :=
  let first :=
    match s_client tool true domain port with
    | Ok out => Some out
    | Err _ => None
    end in
  let second :=
    match first with
    | Some out => if hasCertificate out then Ok out else s_client tool false domain port
    | None => s_client tool false domain port
    end in
  match second with
  | Err m => Err m
  | Ok out =>
      if hasCertificate out
      then Ok (parseOpenSSLOutput tool (stdout out) (stderr out) domain port)
      else Err E_NO_CERT
  end.

Definition getCertificateChainWithFallback {date : DateReader} (net : Network)
  (tool : Toolkit) (domain : string) (port timeout : Z) : result Chain.t :=
  match getCertificateChain net domain port timeout with
  | Ok r => Ok r
  | Err nodeError =>
      match getGMCertificateChain tool domain port with
      | Ok r => Ok (Chain.set_fallback nodeError r)
      | Err _ => Err E_FINAL
      end
  end.

End TlsClient.

(** * Vocabulary of the properties *)

(** The date as the record has it, where [formatDate] returns. *)
Definition formatted {date : DateReader} (dateStr : option string) : option string :=
  match CertParser.formatDate dateStr with
  | Ok v => v
  | Err _ => None
  end.

(** The platform reads the text as a date, or there is none. *)
Definition readable {date : DateReader} (dateStr : option string) : Prop :=
  Js.truthy dateStr = true -> is_Some (readDate (default EmptyString dateStr)).

(** Both validity dates of the certificate object are readable. *)
Definition dated {date : DateReader} (c : Peer.t) : Prop :=
  readable (Peer.valid_from c) /\ readable (Peer.valid_to c).

(** The record of a certificate object with readable dates. *)
Definition parsed {date : DateReader} (c : Peer.t) : Cert.t :=
  CertParser.record c (formatted (Peer.valid_from c)) (formatted (Peer.valid_to c)).

(** Number of entries of a chain with position ['leaf']. *)
Definition leaves (l : list Cert.t) : nat :=
  length (filter (fun c => Cert.type c = Some leaf) l).

(** A position after the first on the live path. *)
Definition inner (c : Cert.t) : Prop :=
  Cert.type c = Some root \/ Cert.type c = Some intermediate.

(** One name of a certificate's subject-alternative-name extension, and how
    the TLS stack and the toolkit print a list of them: each as its kind, a
    colon and its value, the names separated by a comma and a space. *)
Inductive SanEntry : Type :=
| DnsName (name : string)
| OtherName (kind value : string).

Definition kind_of (e : SanEntry) : string :=
  match e with DnsName _ => "DNS" | OtherName k _ => k end.

Definition value_of (e : SanEntry) : string :=
  match e with DnsName n => n | OtherName _ v => v end.

Definition render (e : SanEntry) : string := kind_of e +:+ ":" +:+ value_of e.



Fixpoint has_char (c : ascii) (s : string) : bool :=
  match s with
  | EmptyString => false
  | String d s' => Ascii.eqb d c || has_char c s'
  end.

Definition first_space (s : string) : bool :=
  match s with
  | EmptyString => true
  | String c _ => Js.is_space c
  end.

Fixpoint last_space (s : string) : bool :=
  match s with
  | EmptyString => true
  | String c EmptyString => Js.is_space c
  | String _ s' => last_space s'
  end.

(** Not empty, and no white space at either end. *)
Definition clean (s : string) : bool :=
  negb (first_space s) && negb (last_space s).

(** A name as certificates carry them: no comma and no colon inside kind
    or value, no white space around, and a kind other than DNS for
    [OtherName]. *)
Definition plain (e : SanEntry) : bool :=
  match e with
  | DnsName n => negb (has_char "," n) && negb (has_char ":" n) && clean n
  | OtherName k v =>
      negb (has_char "," k) && negb (has_char ":" k)
      && negb (has_char "," v) && negb (has_char ":" v)
      && clean (render e)
      && negb (Js.startsWith "dns:" (Js.toLowerCase (render e)))
  end.


(** A name as the toolkit prints it: no comma inside, no white space
    around; the value of a DNS name is not empty and has no white space
    around, and a name of another kind does not begin with [dns:], in
    whatever case. *)
Definition printed (e : SanEntry) : bool :=
  negb (has_char "," (render e)) && clean (render e)
  && match e with
     | DnsName n => clean n
     | OtherName _ _ => negb (Js.startsWith "dns:" (Js.toLowerCase (render e)))
     end.

(** * Sample inputs *)

Module Sample.

(** A platform that reads the two dates of the sample certificates. *)
Definition utc : DateReader :=
  fun text =>
    CertParser.assoc text
      [("Jan  1 00:00:00 2024 GMT", "2024-01-01T00:00:00.000Z");
       ("Jan  1 00:00:00 2025 GMT", "2025-01-01T00:00:00.000Z")].

Definition noCipher : Cipher.t := Cipher.mk "TLS_AES_128_GCM_SHA256" None None.

(** A certificate object with a fingerprint and an issuer reference, and
    nothing else. *)
Definition bare (fp : string) (issuer : option nat) : Peer.t :=
  Peer.mk None None None None None None None None None None None (Some fp) None
          None issuer.

Definition session (store : list Peer.t) : Socket.t :=
  Socket.mk store (Some 0%nat) false None (Some "TLSv1.3") noCipher.

(** A network on which every profile connects to [socket]. *)
Definition always (socket : Socket.t) : Network :=
  fun _ _ _ _ => Connected socket.

(** Twelve certificates with twelve fingerprints, each issued by the next,
    the last with no issuer. *)
Definition twelve : list Peer.t :=
  [bare "F00" (Some 1%nat); bare "F01" (Some 2%nat); bare "F02" (Some 3%nat);
   bare "F03" (Some 4%nat); bare "F04" (Some 5%nat); bare "F05" (Some 6%nat);
   bare "F06" (Some 7%nat); bare "F07" (Some 8%nat); bare "F08" (Some 9%nat);
   bare "F09" (Some 10%nat); bare "F10" (Some 11%nat); bare "F11" None].

(** A issued by B, B issued by A. *)
Definition cycle : list Peer.t :=
  [bare "AA" (Some 1%nat); bare "BB" (Some 0%nat)].

(** A host on which the first profile's handshake exceeds the timeout
    and the other profiles would connect. *)
Definition slowFirst : Network :=
  fun _ _ _ config =>
    if String.eqb (TlsConfig.minVersion config) "TLSv1.2"
       && TlsClient.is_none (TlsConfig.ciphers config)
    then TimedOut
    else Connected (session cycle).

(** Lines of text, each ended by a line feed. *)
Fixpoint lines (l : list string) : string :=
  match l with
  | [] => EmptyString
  | x :: l' => x +:+ LF +:+ lines l'
  end.

(** A PEM block, and the output of [s_client -showcerts] around it. *)
Definition blockA : string :=
  "-----BEGIN CERTIFICATE-----" +:+ LF +:+ "MIIBAAAA" +:+ LF
  +:+ "-----END CERTIFICATE-----".

Definition pemA : string :=
  lines ["CONNECTED(00000003)"; "---"; "Certificate chain";
         " 0 s:CN=a.example"; "   i:CN=Example CA"]
  +:+ blockA +:+ LF +:+ lines ["---"; "Server certificate"].

(** The decoded text of a certificate with an organisational subject, a
    2048-bit RSA key and the CA/Browser Forum EV policy identifier. *)
Definition evDump : string :=
  lines
    ["Certificate:";
     "    Data:";
     "        Version: 3 (0x2)";
     "        Serial Number:";
     "            0a:1b:2c";
     "        Signature Algorithm: sha256WithRSAEncryption";
     "        Issuer: C=US,O=Example Trust,CN=Example EV CA";
     "        Validity";
     "            Not Before: Jan  1 00:00:00 2024 GMT";
     "            Not After : Jan  1 00:00:00 2025 GMT";
     "        Subject: businessCategory=Private Organization,serialNumber=1234,C=US,ST=California,L=San Jose,O=Acme Corp,CN=www.acme.example";
     "        Subject Public Key Info:";
     "            Public Key Algorithm: rsaEncryption";
     "                Public-Key: (2048 bit)";
     "        X509v3 extensions:";
     "            X509v3 Subject Alternative Name: ";
     "                DNS:www.acme.example, IP Address:192.0.2.1, DNS:acme.example, DNS:www.acme.example";
     "            X509v3 Certificate Policies: ";
     "                Policy: 2.23.140.1.1";
     "    Signature Algorithm: sha256WithRSAEncryption";
     "sha256 Fingerprint=AB:CD:EF:01"].

(** The certificate object of an ECDSA P-256 certificate: a curve name, a
    bit count, a 65-byte public key. *)
Definition p256 : Peer.t :=
  Peer.mk None None None None None (Some "prime256v1") None (Some 256%Z)
          (Some (repeat Byte.x04 65)) None None (Some "P256") None None None.

(** The decoded text of an Ed25519 certificate. *)
Definition ed25519Dump : string :=
  lines
    ["Certificate:";
     "    Data:";
     "        Signature Algorithm: ED25519";
     "        Issuer: CN=Example Root";
     "        Subject: CN=ed.example";
     "        Subject Public Key Info:";
     "            Public Key Algorithm: ED25519";
     "                ED25519 Public-Key:";
     "                pub:";
     "                    19:bf:44:09:69:84:cd:fe";
     "    Signature Algorithm: ED25519";
     "sha256 Fingerprint=0E:D2"].

(** The certificate object of a certificate on the SM2 curve, its own
    issuer. *)
Definition sm2Peer : Peer.t :=
  Peer.mk (Some {["CN" := Attr.Text "gm.example"]})
          (Some {["CN" := Attr.Text "GM Root"]}) None None None
          (Some "sm2p256v1") None (Some 256%Z) None None None (Some "5M2") None
          None (Some 0%nat).

(** A toolkit whose [s_client] prints one PEM block and whose [x509] call
    on a block times out. *)
Definition brokenX509 : TlsClient.Toolkit :=
  TlsClient.mkToolkit
    (fun _ _ _ => Ok (TlsClient.mkExec 0 pemA EmptyString))
    (fun _ => Err "命令执行超时").

(** A network on which every profile ends in a handshake error. *)
Definition unreachable : Network := fun _ _ _ _ => Failed.





(** A toolkit whose [s_client] prints one PEM block under either transport
    mode and whose [x509] call decodes it to [evDump]. *)
Definition goodTool : TlsClient.Toolkit :=
  TlsClient.mkToolkit
    (fun _ _ _ => Ok (TlsClient.mkExec 0 pemA EmptyString))
    (fun _ => Ok (TlsClient.mkExec 0 evDump EmptyString)).

(** The certificate object and the decoded text of a certificate whose key
    is on the curve that the platform and the toolkit name by its object
    identifier only. *)
Definition oidPeer : Peer.t :=
  Peer.mk None None None None None (Some "1.2.156.10197.1.301") None (Some 256%Z)
          None None None (Some "01D") None None None.

Definition oidDump : string :=
  lines
    ["Certificate:";
     "    Data:";
     "        Signature Algorithm: ecdsa-with-SHA256";
     "        Issuer: CN=Example Root";
     "        Subject: CN=oid.example";
     "        Subject Public Key Info:";
     "            Public Key Algorithm: id-ecPublicKey";
     "                Public-Key: (256 bit)";
     "                ASN1 OID: 1.2.156.10197.1.301";
     "    Signature Algorithm: ecdsa-with-SHA256";
     "sha256 Fingerprint=01:D0"].

(** The decoded text of a certificate with a 2048-bit RSA key, signed by
    an SM2 authority: the national algorithm is named in the signature
    lines only. *)
Definition rsaSignedBySm2 : string :=
  lines
    ["Certificate:";
     "    Data:";
     "        Signature Algorithm: SM2-with-SM3";
     "        Issuer: C=CN,O=Example GM CA,CN=Example SM2 Root";
     "        Subject: C=CN,CN=rsa.example";
     "        Subject Public Key Info:";
     "            Public Key Algorithm: rsaEncryption";
     "                Public-Key: (2048 bit)";
     "    Signature Algorithm: SM2-with-SM3";
     "sha256 Fingerprint=12:34"].

(** A toolkit that prints one PEM block, with nothing on its error stream,
    and decodes it to [rsaSignedBySm2]. *)
Definition gmSignedTool : TlsClient.Toolkit :=
  TlsClient.mkToolkit
    (fun _ _ _ => Ok (TlsClient.mkExec 0 pemA EmptyString))
    (fun _ => Ok (TlsClient.mkExec 0 rsaSignedBySm2 EmptyString)).





Definition acmePeer : Peer.t :=
  Peer.mk (Some {["CN" := Attr.Text "www.acme.example"]})
          (Some {["CN" := Attr.Text "Example EV CA"]})
          (Some "Jan  1 00:00:00 2024 GMT") (Some "Jan  1 00:00:00 2025 GMT")
          None None (Some "C0FFEE") (Some 2048%Z) None None None (Some "AB:CD:EF:01")
          (Some "DNS:www.acme.example, IP Address:192.0.2.1, DNS:acme.example, DNS:www.acme.example")
          (Some 3%Z) None.

End Sample.

(** ** domainParser.js *)

Module DomainParser.

(** What [new URL(text)] exposes of a text it accepts: the host name and the
    port, a string that is empty when the text has no port or the default one
    of its scheme.  The parser of the platform is an input: [None] when it
    throws. *)
Record Url : Type := mkUrl {
  hostname : string;
  urlPort : string
}.

Definition UrlParser : Type := string -> option Url.

(** [parseInt(s, 10)]: leading white space, an optional sign, then the
    longest run of decimal digits; [None] is [NaN], when there is no digit.
    Numbers are exact integers here: the result is the source's for a run
    of digits that denotes a number up to [2^53 - 1]. *)
Definition parseInt (s : string) : option Z :=
  let t := Js.trimStart s in
  let signed :=
    match t with
    | String c t' =>
        if Ascii.eqb c "-" then (true, t')
        else if Ascii.eqb c "+" then (false, t')
        else (false, t)
    | EmptyString => (false, t)
    end in
  match snd signed with
  | String d _ =>
      if Js.is_digit d
      then Some ((if fst signed then -1 else 1)
                 * TlsClient.parseInt_from 0 (snd signed))%Z
      else None
  | EmptyString => None
  end.

Record Parsed : Type := mkParsed {
  domain : string;
  port : option Z          (* [None] is [NaN] *)
}.

Definition parseDomain (url : UrlParser) (input : string) : Parsed :=
  let trimmed := Js.trim input in
  let afterUrl :=
    if Js.includes "://" trimmed then
      match url trimmed with
      | Some u =>
          (hostname u,
           if Js.is_empty (urlPort u) then Some 443%Z else parseInt (urlPort u))
      | None => (trimmed, Some 443%Z)
      end
    else (trimmed, Some 443%Z) in
  let afterPort :=
    if Js.includes ":" (fst afterUrl) then
      let parts := Js.split_char ":" (fst afterUrl) in
      (default EmptyString (parts !! 0%nat),
       Some (num_or (parts !! 1%nat ≫= parseInt) 443))
    else afterUrl in
  mkParsed (default EmptyString (head (Js.split_char "/" (fst afterPort))))
           (snd afterPort).

End DomainParser.

(** ** routes/certificate.js *)

Module Route.

(** The response of [GET /api/certificate]: its status and the properties of
    its JSON body. *)
Record Response : Type := mkResponse {
  status : nat;
  success : bool;
  data : option Chain.t;
  error : option string
}.

Definition E_NO_DOMAIN : string := "请提供域名参数".
Definition E_BAD_DOMAIN : string := "无效的域名".
Definition E_DEFAULT : string := "获取证书信息失败".

(** The handler, for the query parameters [domain] and [port] when they are
    absent or strings.  [probe] is the call
    [getCertificateChainWithFallback(domain, port)] with the default
    timeout, for a port that may be [NaN]. *)
Definition certificate (url : DomainParser.UrlParser)
  (probe : string -> option Z -> result Chain.t)
  (rawDomain rawPort : option string) : Response :=
  if negb (Js.truthy rawDomain) then
    mkResponse 400 false None (Some E_NO_DOMAIN)
  else
    let parsed := DomainParser.parseDomain url (default EmptyString rawDomain) in
    let port :=
      if Js.truthy rawPort
      then DomainParser.parseInt (default EmptyString rawPort)
      else DomainParser.port parsed in
    if Js.is_empty (DomainParser.domain parsed) then
      mkResponse 400 false None (Some E_BAD_DOMAIN)
    else
      match probe (DomainParser.domain parsed) port with
      | Ok result => mkResponse 200 true (Some result) None
      | Err message =>
          mkResponse 500 false None (Some (Js.or_else (Some message) E_DEFAULT))
      end.


End Route.

(** * Vocabulary of the further properties *)

(** The profiles before position [i] all ended in a handshake error. *)
Definition earlier_failed (net : Network) (domain : string) (port timeout : Z)
  (configs : list TlsConfig.t) (i : nat) : Prop :=
  forall j config, (j < i)%nat -> configs !! j = Some config ->
    net domain port timeout config = Failed.

(** A run of the toolkit's [s_client] that printed certificate data. *)
Definition printed_certificate (tool : TlsClient.Toolkit) (ntls : bool)
  (domain : string) (port : Z) (out : TlsClient.ExecOutput) : Prop :=
  TlsClient.s_client tool ntls domain port = Ok out
  /\ TlsClient.hasCertificate out = true.

(** The blocks of a toolkit output on which the [x509] run came to an end,
    whatever its exit code and whatever it printed. *)
Definition answered (tool : TlsClient.Toolkit) (pem : string) : bool :=
  match TlsClient.x509 tool pem with
  | Ok _ => true
  | Err _ => false
  end.

(** A store that is one chain: every certificate object is issued by the
    next one, and the last one has no issuer or is its own issuer. *)
Definition chained (store : list Peer.t) : Prop :=
  forall k c, store !! k = Some c ->
    if (S k <? length store)%nat
    then Peer.issuerCertificate c = Some (S k)
    else Peer.issuerCertificate c = None \/ Peer.issuerCertificate c = Some k.

(** The entries the walker pushes for the objects [rest], found at the
    positions from [k] on. *)
Fixpoint entries_from {date : DateReader} (store : list Peer.t) (k : nat)
  (rest : list Peer.t) : list Cert.t :=
  match rest with
  | [] => []
  | c :: rest' =>
      TlsClient.entry store (Some k) c k (parsed c) :: entries_from store (S k) rest'
  end.

(** The two strings agree as far as both go. *)
Fixpoint agrees (p t : string) : bool :=
  match p, t with
  | String a p', String b t' => Ascii.eqb a b && agrees p' t'
  | _, _ => true
  end.

(** No occurrence of [marker] can begin inside [t], whatever follows [t]:
    no end of [t] agrees with the beginning of [marker]. *)
Fixpoint quiet (marker t : string) : bool :=
  match t with
  | EmptyString => true
  | String _ t' => negb (agrees marker t) && quiet marker t'
  end.

(** A toolkit output: some text, then PEM blocks, each with a body between
    the BEGIN and END lines and followed by more text. *)
Fixpoint showcerts (items : list (string * string)) : string :=
  match items with
  | [] => EmptyString
  | (body, text) :: items' =>
      TlsClient.PEM_BEGIN +:+ body +:+ TlsClient.PEM_END +:+ text
      +:+ showcerts items'
  end.

Definition block_of (item : string * string) : string :=
  TlsClient.PEM_BEGIN +:+ fst item +:+ TlsClient.PEM_END.

Definition quiet_item (item : string * string) : bool :=
  quiet TlsClient.PEM_END (fst item) && quiet TlsClient.PEM_BEGIN (snd item).

Module Inputs.

(** Leaf, intermediate and a root that is its own issuer. *)
Definition three : list Peer.t :=
  [Sample.bare "1EAF" (Some 1%nat); Sample.bare "CA01" (Some 2%nat);
   Sample.bare "B007" (Some 2%nat)].

(** Leaf and root, the root with a validity date that is not a date. *)
Definition misdated : list Peer.t :=
  [Sample.bare "1EAF" (Some 1%nat);
   Peer.mk None None None (Some "Bad time value") None None None None None None
           None (Some "B007") None None None].

(** A toolkit whose [s_client] prints one PEM block and whose [x509] run
    on a block ends with exit code 1 and an error message: the block is not
    a certificate the toolkit can decode. *)
Definition undecodable : TlsClient.Toolkit :=
  TlsClient.mkToolkit
    (fun _ _ _ => Ok (TlsClient.mkExec 0 Sample.pemA EmptyString))
    (fun _ => Ok (TlsClient.mkExec 1 EmptyString "unable to load certificate")).

(** A network on which no handshake completes, and the platform's check of
    the port: the connection call throws for a port outside 0..65535. *)
Definition ranged : Network :=
  fun _ port _ _ =>
    if ((0 <=? port) && (port <? 65536))%Z then Failed
    else Threw "Port should be >= 0 and < 65536.".

(** A host without the toolkit: no run of it can be started. *)
Definition missing : TlsClient.Toolkit :=
  TlsClient.mkToolkit (fun _ _ _ => Err "spawn openssl ENOENT")
                      (fun _ => Err "spawn openssl ENOENT").

(** A certificate object without issuer whose subject and issuer have an
    organization and no common name. *)
Definition nameless : Peer.t :=
  Peer.mk (Some {["O" := Attr.Text "Example Org"]})
          (Some {["O" := Attr.Text "Another Org"]}) None None
          None None (Some "C0FFEE") (Some 2048%Z) None None None (Some "0A0B")
          None None None.

(** A certificate object whose one alternative name is a URI. *)
Definition uriPeer : Peer.t :=
  Peer.mk (Some {["CN" := Attr.Text "acme.example"]})
          (Some {["CN" := Attr.Text "Example CA"]}) None None
          None None (Some "C0FFEE") (Some 2048%Z) None None None (Some "0C0D")
          (Some "URI:https://acme.example/id") (Some 3%Z) None.

End Inputs.

(** Every character of the string satisfies the test. *)
Fixpoint all_chars (test : ascii -> bool) (s : string) : bool :=
  match s with
  | EmptyString => true
  | String c s' => test c && all_chars test s'
  end.

(** A digit or a capital letter from A to F. *)
Definition is_upper_hex (c : ascii) : bool :=
  Js.is_digit c || ((65 <=? Js.code c)%nat && (Js.code c <=? 70)%nat).

(** The string is empty, or has no white space at either end. *)
Definition trimmed_text (s : string) : bool :=
  Js.is_empty s || clean s.

(** The result of a match is the capture it started with, or the text of
    one of the pattern's groups: not empty, every character in the group's
    class. *)
Definition captured (its : list Re.item) (cap r : option string) : Prop :=
  r = cap
  \/ exists cls str,
       In (Re.Group cls) its /\ r = Some str /\ Js.is_empty str = false
       /\ all_chars (fun c => cls (Js.lower_char c)) str = true.


(** A number that the source's arithmetic represents exactly:
    [Number.isSafeInteger]. *)
Definition safe_integer (n : Z) : Prop := (Z.abs n <= 9007199254740991)%Z.

(** ** The client: the certificate panel *)

Module Client.


(** [domain.replace(/^\*\./, '')] *)
Definition strip_wildcard (domain : string) : string :=
  match domain with
  | String "*" (String "." rest) => rest
  | _ => domain
  end.

(** [parts.slice(-n)] *)
Definition last_n (n : nat) (parts : list string) : list string :=
  drop (length parts - n) parts.

Definition specialTlds : list string :=
  ["com.cn"; "net.cn"; "org.cn"; "gov.cn"; "co.uk"; "org.uk"; "co.jp"].

(** [getRootDomain]: the key under which the panel groups a name. *)
Definition getRootDomain (domain : string) : string :=
  let clean := strip_wildcard domain in
  let parts := Js.split_char "." clean in
  if (length parts <=? 2)%nat then clean
  else
    let lastTwo := CertParser.join "." (last_n 2 parts) in
    if existsb (String.eqb lastTwo) specialTlds
    then CertParser.join "." (last_n 3 parts)
    else lastTwo.

End Client.

(** Number of occurrences of a character. *)
Fixpoint count_char (c : ascii) (s : string) : nat :=
  match s with
  | EmptyString => 0
  | String d s' => (if Ascii.eqb d c then 1 else 0) + count_char c s'
  end.

(** * Properties *)

Import TlsClient.

(** ** The primitives on sample text *)

Example split_char_ex : Js.split_char ":" "URI:http://a" = ["URI"; "http"; "//a"].
Proof. reflexivity. Qed.
Example split_cs_ex : Js.split_comma_space "DNS:a, DNS:b,c, " = ["DNS:a"; "DNS:b,c"; EmptyString].
Proof. reflexivity. Qed.
Example trim_ex : Js.trim "  a b  " = "a b".
Proof. reflexivity. Qed.
Example includes_ex : Js.includes "sm2" (Js.toLowerCase "xxSM2yy") = true.
Proof. reflexivity. Qed.
Example subject_re_ex :
  Re.exec Re.subjectRe ("Issuer: C=US" +:+ LF +:+ "        Subject: C=US,O=Acme Corp,CN=a.example" +:+ LF)
  = Some "C=US,O=Acme Corp,CN=a.example".
Proof. reflexivity. Qed.
Example keysize_re_ex :
  Re.exec Re.keySizeRe "Public-Key: (2048 bit)" = Some "2048".
Proof. reflexivity. Qed.
Example subject_backtrack_ex :
  Re.exec Re.subjectRe ("Subject: " +:+ LF) = Some " ".
Proof. reflexivity. Qed.
Example san_re_ex :
  Re.exec Re.sanRe ("X509v3 Subject Alternative Name: critical" +:+ LF +:+ "     DNS:a.com, IP Address:1.2.3.4" +:+ LF +:+ "x")
  = Some "DNS:a.com, IP Address:1.2.3.4".
Proof. reflexivity. Qed.
Example dn_re_ex : Re.exec (Re.dnRe "O") "DC=com,C=US,O = Acme Corp ,CN=x" = Some "Acme Corp ".
Proof. reflexivity. Qed.
Example json_infoAccess_ex :
  CertParser.json_infoAccess [("OCSP - URI", ["http://o.example"; "x"]); ("k", [])]
  = "{" +:+ CertParser.dquote +:+ "OCSP - URI" +:+ CertParser.dquote +:+ ":["
    +:+ CertParser.dquote +:+ "http://o.example" +:+ CertParser.dquote +:+ ","
    +:+ CertParser.dquote +:+ "x" +:+ CertParser.dquote +:+ "],"
    +:+ CertParser.dquote +:+ "k" +:+ CertParser.dquote +:+ ":[]}".
Proof. reflexivity. Qed.
Example parseAltNames_ex :
  CertParser.parseAltNames (Some "DNS:a.com, IP Address:1.2.3.4, URI:http://x")
  = [AltName.mk (Some "DNS") (Some "a.com");
     AltName.mk (Some "IP Address") (Some "1.2.3.4");
     AltName.mk (Some "URI") (Some "http")].
Proof. reflexivity. Qed.

Example pem_blocks_ex :
  pem_blocks ("noise -----BEGIN CERTIFICATE-----" +:+ LF +:+ "AAAA" +:+ LF
              +:+ "-----END CERTIFICATE-----" +:+ LF
              +:+ "-----BEGIN CERTIFICATE-----BBBB-----END CERTIFICATE-----"
              +:+ "-----BEGIN CERTIFICATE-----CCCC")
  = ["-----BEGIN CERTIFICATE-----" +:+ LF +:+ "AAAA" +:+ LF
     +:+ "-----END CERTIFICATE-----";
     "-----BEGIN CERTIFICATE-----BBBB-----END CERTIFICATE-----"].
Proof. vm_compute. reflexivity. Qed.

(** A distinguished name without CN takes its common name from O. *)
Example parseDNFromText_ex :
  parseDNFromText "C=US,O=Example Trust,OU=Roots"
  = Subject.mk (Some (Attr.Text "Example Trust")) (Some (Attr.Text "Example Trust"))
               None (Some (Attr.Text "US")) None None.
Proof. vm_compute. reflexivity. Qed.

(** The records of the two paths do not have the same properties. *)
Example cert_fields_ex {date : DateReader} :
  (exists record,
     CertParser.parseCertificate Sample.p256 = Ok record
     /\ Cert.fields record
        = ["subject"; "issuer"; "validFrom"; "validTo"; "serialNumber";
           "fingerprint"; "fingerprint256"; "subjectAltNames"; "bits";
           "publicKey"; "signatureAlgorithm"; "validationLevel"; "version";
           "raw"])
  /\ Cert.fields (parsePEMText Sample.blockA Sample.evDump)
     = ["subject"; "issuer"; "validFrom"; "validTo"; "serialNumber"; "fingerprint";
        "fingerprint256"; "subjectAltNames"; "bits"; "publicKey";
        "signatureAlgorithm"; "validationLevel"; "version"; "rawPEM"; "isGM"].
Proof. split; [eexists; split; reflexivity | reflexivity]. Qed.

(** The two dates of the text path's record: the platform's reading cut to
    date and time, or the printed text where the platform reads no date. *)
Example cert_dates_ex {date : DateReader} :
  Cert.validFrom (parsePEMText (date := Sample.utc) Sample.blockA Sample.evDump)
  = Some "2024-01-01 00:00:00"
  /\ Cert.validTo (parsePEMText (date := fun _ => None) Sample.blockA Sample.evDump)
     = Some "Jan  1 00:00:00 2025 GMT".
Proof. split; vm_compute; reflexivity. Qed.

(** ** The dates of the live path *)

Lemma formatDate_readable {date : DateReader} (dateStr : option string) :
  (readable dateStr -> CertParser.formatDate dateStr = Ok (formatted dateStr))
  /\ (~ readable dateStr ->
      CertParser.formatDate dateStr = Err CertParser.E_INVALID_TIME).
Proof.
  unfold readable, formatted, CertParser.formatDate.
  destruct (Js.truthy dateStr); cbn [negb].
  - destruct (readDate (default EmptyString dateStr)) as [iso|].
    + split; [reflexivity|]. intros H. exfalso. apply H. intros _. eexists. reflexivity.
    + split; [|reflexivity]. intros H. destruct (H eq_refl) as [? [=]].
  - split; [reflexivity|]. intros H. exfalso. apply H. discriminate.
Qed.

Lemma readable_dec {date : DateReader} (dateStr : option string) :
  readable dateStr \/ ~ readable dateStr.
Proof.
  unfold readable. destruct (Js.truthy dateStr); [|left; discriminate].
  destruct (readDate (default EmptyString dateStr)) as [iso|].
  - left. intros _. eexists. reflexivity.
  - right. intros H. destruct (H eq_refl) as [? [=]].
Qed.

(** [parseCertificate] returns the record exactly when both dates are
    readable, and throws the range error otherwise. *)
Lemma parseCertificate_ok {date : DateReader} (c : Peer.t) (r : Cert.t) :
  CertParser.parseCertificate c = Ok r <-> dated c /\ r = parsed c.
Proof.
  unfold CertParser.parseCertificate, dated, parsed.
  destruct (readable_dec (Peer.valid_from c)) as [Hf|Hf];
    destruct (readable_dec (Peer.valid_to c)) as [Ht|Ht];
    rewrite ?(proj1 (formatDate_readable _) Hf), ?(proj2 (formatDate_readable _) Hf),
            ?(proj1 (formatDate_readable _) Ht), ?(proj2 (formatDate_readable _) Ht);
    (split; [intros [= <-] | intros [[? ?] ->]]); try tauto; try reflexivity.
Qed.

Lemma parseCertificate_err {date : DateReader} (c : Peer.t) (message : string) :
  CertParser.parseCertificate c = Err message <->
  ~ dated c /\ message = CertParser.E_INVALID_TIME.
Proof.
  unfold CertParser.parseCertificate, dated.
  destruct (readable_dec (Peer.valid_from c)) as [Hf|Hf];
    destruct (readable_dec (Peer.valid_to c)) as [Ht|Ht];
    rewrite ?(proj1 (formatDate_readable _) Hf), ?(proj2 (formatDate_readable _) Hf),
            ?(proj1 (formatDate_readable _) Ht), ?(proj2 (formatDate_readable _) Ht);
    (split; [intros [= <-] | intros [? ->]]); try tauto; try reflexivity.
Qed.

Lemma parseCertificate_dated {date : DateReader} (c : Peer.t) :
  dated c -> CertParser.parseCertificate c = Ok (parsed c).
Proof. intros H. apply parseCertificate_ok. split; [assumption | reflexivity]. Qed.

Lemma dated_dec {date : DateReader} (c : Peer.t) : dated c \/ ~ dated c.
Proof.
  unfold dated. destruct (readable_dec (Peer.valid_from c));
    destruct (readable_dec (Peer.valid_to c)); tauto.
Qed.

(** ** The chain walker *)

Section Walker.

Context {date : DateReader}.
Variable store : list Peer.t.

Lemma walk_step (fuel : nat) (cert : option nat)
  (seen : gset (option string)) (acc : list Cert.t) (c : Peer.t) :
  deref store cert = Some c ->
  Peer.fingerprint256 c ∉ seen ->
  walk (S fuel) store cert seen acc =
    match CertParser.parseCertificate c with
    | Err message => Some (Err message)
    | Ok parsedCert =>
        if (10 <? length (acc ++ [entry store cert c (length acc) parsedCert]))%nat
        then Some (Ok (acc ++ [entry store cert c (length acc) parsedCert]))
        else walk fuel store (Peer.issuerCertificate c)
                  ({[Peer.fingerprint256 c]} ∪ seen)
                  (acc ++ [entry store cert c (length acc) parsedCert])
    end.
Proof.
  intros Hc Hseen. simpl. rewrite Hc.
  destruct (decide (Peer.fingerprint256 c ∈ seen)); [contradiction|].
  reflexivity.
Qed.

Lemma walk_stop_absent (fuel : nat) (cert : option nat)
  (seen : gset (option string)) (acc : list Cert.t) :
  deref store cert = None -> walk fuel store cert seen acc = Some (Ok acc).
Proof. intros H. destruct fuel; simpl; rewrite H; reflexivity. Qed.

Lemma walk_stop_seen (fuel : nat) (cert : option nat)
  (seen : gset (option string)) (acc : list Cert.t) (c : Peer.t) :
  deref store cert = Some c -> Peer.fingerprint256 c ∈ seen ->
  walk fuel store cert seen acc = Some (Ok acc).
Proof.
  intros Hc Hin. destruct fuel; simpl; rewrite Hc;
    (destruct (decide (Peer.fingerprint256 c ∈ seen)); [reflexivity|contradiction]).
Qed.

(** The walk ends: the loop is entered with at most ten entries, and
    eleven units of fuel, counting the entries already collected, are
    never used up. *)
Lemma walk_terminates_from (fuel : nat) :
  forall (cert : option nat) (seen : gset (option string)) (acc : list Cert.t),
    (length acc <= 10)%nat ->
    (11 <= fuel + length acc)%nat ->
    exists l, walk fuel store cert seen acc = Some l.
Proof.
  induction fuel as [|fuel IH]; intros cert seen acc Hacc Hfuel.
  - simpl in Hfuel. lia.
  - destruct (deref store cert) as [c|] eqn:Hc;
      [|rewrite walk_stop_absent by assumption; eauto].
    destruct (decide (Peer.fingerprint256 c ∈ seen)) as [Hin|Hnin];
      [erewrite walk_stop_seen by eassumption; eauto|].
    rewrite (walk_step _ _ _ _ c) by assumption.
    destruct (CertParser.parseCertificate c) as [p|m]; [|eauto].
    destruct (10 <? _)%nat eqn:Hcap; [eauto|].
    apply Nat.ltb_ge in Hcap. apply IH; [exact Hcap|].
    rewrite length_app; simpl. simpl in Hfuel. lia.
Qed.

(** The list never grows beyond eleven entries: the loop leaves when the
    length exceeds ten, which is after the eleventh push. *)
Lemma walk_length_from (fuel : nat) :
  forall (cert : option nat) (seen : gset (option string)) (acc l : list Cert.t),
    (length acc <= 10)%nat ->
    walk fuel store cert seen acc = Some (Ok l) ->
    (length acc <= length l <= 11)%nat.
Proof.
  induction fuel as [|fuel IH]; intros cert seen acc l Hacc Hwalk.
  - simpl in Hwalk. destruct (deref store cert) as [c|];
      [destruct (decide _)|]; simplify_eq; lia.
  - destruct (deref store cert) as [c|] eqn:Hc;
      [|rewrite walk_stop_absent in Hwalk by assumption; simplify_eq; lia].
    destruct (decide (Peer.fingerprint256 c ∈ seen)) as [Hin|Hnin];
      [erewrite walk_stop_seen in Hwalk by eassumption; simplify_eq; lia|].
    rewrite (walk_step _ _ _ _ c) in Hwalk by assumption.
    destruct (CertParser.parseCertificate c) as [p|m]; [|discriminate].
    destruct (10 <? _)%nat eqn:Hcap.
    + simplify_eq. rewrite length_app in *. simpl in *. lia.
    + apply Nat.ltb_ge in Hcap. apply IH in Hwalk; [|exact Hcap].
      rewrite length_app in *. simpl in *. lia.
Qed.

(** More fuel than eleven changes nothing. *)
Lemma walk_fuel_mono (fuel : nat) :
  forall (cert : option nat) (seen : gset (option string)) (acc : list Cert.t)
         (l : result (list Cert.t)),
    walk fuel store cert seen acc = Some l ->
    walk (S fuel) store cert seen acc = Some l.
Proof.
  induction fuel as [|fuel IH]; intros cert seen acc l Hwalk.
  - simpl in Hwalk. destruct (deref store cert) as [c|] eqn:Hc.
    + destruct (decide (Peer.fingerprint256 c ∈ seen)) as [Hin|Hnin];
        [|discriminate].
      rewrite (walk_stop_seen _ _ _ _ c) by assumption. assumption.
    + rewrite walk_stop_absent by assumption. assumption.
  - destruct (deref store cert) as [c|] eqn:Hc.
    + destruct (decide (Peer.fingerprint256 c ∈ seen)) as [Hin|Hnin].
      * rewrite (walk_stop_seen _ _ _ _ c) in Hwalk by assumption.
        rewrite (walk_stop_seen _ _ _ _ c) by assumption. assumption.
      * rewrite (walk_step fuel _ _ _ c) in Hwalk by assumption.
        rewrite (walk_step (S fuel) _ _ _ c) by assumption.
        destruct (CertParser.parseCertificate c) as [p|m]; [|assumption].
        destruct (10 <? _)%nat; [assumption|]. apply IH. assumption.
    + rewrite walk_stop_absent in Hwalk by assumption.
      rewrite walk_stop_absent by assumption. assumption.
Qed.

Lemma entry_fingerprint256 (cert : option nat) (c : Peer.t) (n : nat) (p : Cert.t) :
  CertParser.parseCertificate c = Ok p ->
  Cert.fingerprint256 (entry store cert c n p)
  = Js.or_else (Peer.fingerprint256 c) EmptyString.
Proof.
  intros [_ ->]%parseCertificate_ok. unfold entry.
  destruct (n =? 0)%nat; [reflexivity|]. destruct (_ || _); reflexivity.
Qed.

(** The objects the walk visits, in order: their fingerprints are pairwise
    distinct and none was in the set the walk started from; the entries
    the walk adds are theirs. *)
Lemma walk_visits_from (fuel : nat) :
  forall (cert : option nat) (seen : gset (option string)) (acc l : list Cert.t),
    walk fuel store cert seen acc = Some (Ok l) ->
    exists (visited : list Peer.t) (added : list Cert.t),
      l = acc ++ added
      /\ NoDup (map Peer.fingerprint256 visited)
      /\ (forall c, c ∈ visited -> Peer.fingerprint256 c ∉ seen)
      /\ map Cert.fingerprint256 added
         = map (fun c => Js.or_else (Peer.fingerprint256 c) EmptyString) visited.
Proof.
  assert (Hnil : forall (seen : gset (option string)) (acc : list Cert.t),
    exists (visited : list Peer.t) (added : list Cert.t),
      acc = acc ++ added
      /\ NoDup (map Peer.fingerprint256 visited)
      /\ (forall c, c ∈ visited -> Peer.fingerprint256 c ∉ seen)
      /\ map Cert.fingerprint256 added
         = map (fun c => Js.or_else (Peer.fingerprint256 c) EmptyString) visited).
  { intros seen acc. exists [], []. rewrite app_nil_r. simpl.
    repeat split; [constructor | intros ? H; inversion H]. }
  induction fuel as [|fuel IH]; intros cert seen acc l Hwalk.
  - simpl in Hwalk.
    destruct (deref store cert) as [c|]; [destruct (decide _)|]; simplify_eq;
      apply Hnil.
  - destruct (deref store cert) as [c|] eqn:Hc.
    2:{ rewrite walk_stop_absent in Hwalk by assumption. simplify_eq.
        apply Hnil. }
    destruct (decide (Peer.fingerprint256 c ∈ seen)) as [Hin|Hnin].
    { rewrite (walk_stop_seen _ _ _ _ c) in Hwalk by assumption. simplify_eq.
      apply Hnil. }
    rewrite (walk_step _ _ _ _ c) in Hwalk by assumption.
    destruct (CertParser.parseCertificate c) as [p|m] eqn:Hp; [|discriminate].
    pose proof (entry_fingerprint256 cert c (length acc) p Hp) as Hfp.
    destruct (10 <? _)%nat.
    + simplify_eq. exists [c], [entry store cert c (length acc) p]. simpl.
      rewrite Hfp. repeat split.
      * constructor; [intros H; inversion H | constructor].
      * intros c' Hc'. apply list_elem_of_singleton in Hc'. subst. assumption.
    + apply IH in Hwalk as (visited & added & Hl & Hnd & Hfresh & Hmap).
      exists (c :: visited), (entry store cert c (length acc) p :: added). simpl.
      repeat split.
      * rewrite Hl, <- app_assoc. reflexivity.
      * constructor; [|assumption]. intros Hin.
        apply list_elem_of_In, in_map_iff in Hin as (c' & Heq & Hc').
        apply list_elem_of_In, Hfresh in Hc'. rewrite Heq in Hc'. set_solver.
      * intros c' Hc'. apply elem_of_cons in Hc' as [->|Hc']; [assumption|].
        apply Hfresh in Hc'. set_solver.
      * rewrite Hfp, Hmap. reflexivity.
Qed.

End Walker.

(** The walk of any store from any certificate ends, with at most eleven
    entries. *)
Lemma walk_terminates {date : DateReader} (store : list Peer.t) (cert : option nat) :
  exists l,
    walk WALK_FUEL store cert ∅ [] = Some l
    /\ forall certificates, l = Ok certificates -> (length certificates <= 11)%nat.
Proof.
  destruct (walk_terminates_from store WALK_FUEL cert ∅ []) as [l Hl];
    [simpl; lia | unfold WALK_FUEL; simpl; lia |].
  exists l. split; [assumption|]. intros certificates ->.
  apply walk_length_from in Hl; [lia | simpl; lia].
Qed.

Lemma walk_fuel_irrelevant {date : DateReader} (store : list Peer.t)
  (cert : option nat) (extra : nat) :
  walk (extra + WALK_FUEL) store cert ∅ [] = walk WALK_FUEL store cert ∅ [].
Proof.
  destruct (walk_terminates store cert) as (l & Hl & _). rewrite Hl.
  induction extra as [|extra IH]; [assumption|].
  simpl Nat.add. apply walk_fuel_mono. assumption.
Qed.

(** No fingerprint is visited twice. *)
Lemma walk_never_revisits {date : DateReader} (store : list Peer.t)
  (cert : option nat) (l : list Cert.t) :
  walk WALK_FUEL store cert ∅ [] = Some (Ok l) ->
  exists visited : list Peer.t,
    NoDup (map Peer.fingerprint256 visited)
    /\ map Cert.fingerprint256 l
       = map (fun c => Js.or_else (Peer.fingerprint256 c) EmptyString) visited.
Proof.
  intros H. apply walk_visits_from in H as (visited & added & Hl & Hnd & _ & Hmap).
  simpl in Hl. subst l. eauto.
Qed.

(** An established session with a peer certificate always gets a result,
    unless a date of one of its certificates is not readable: the branch of
    [getCertificateChain] for a walk out of fuel is dead. *)
Lemma getCertificateChain_returns {date : DateReader} (net : Network)
  (domain : string) (port timeout : Z) (socket : Socket.t) :
  tryConnect net domain port timeout 0 = Ok socket ->
  is_Some (deref (Socket.store socket) (Socket.peerCertificate socket)) ->
  (exists r, getCertificateChain net domain port timeout = Ok r)
  \/ getCertificateChain net domain port timeout = Err CertParser.E_INVALID_TIME.
Proof.
  intros Hs [c Hc]. unfold getCertificateChain. rewrite Hs, Hc.
  destruct (walk_terminates (Socket.store socket) (Socket.peerCertificate socket))
    as (l & Hl & _).
  rewrite Hl. destruct l as [l|m]; [eauto|]. right.
  enough (m = CertParser.E_INVALID_TIME) as -> by reflexivity.
  clear Hs Hc. revert Hl. generalize (Socket.peerCertificate socket).
  generalize (∅ : gset (option string)). generalize (@nil Cert.t).
  induction WALK_FUEL as [|fuel IH]; intros acc seen cert Hl.
  - simpl in Hl. destruct (deref _ cert) as [c'|]; [destruct (decide _)|];
      discriminate.
  - destruct (deref (Socket.store socket) cert) as [c'|] eqn:Hc';
      [|rewrite walk_stop_absent in Hl by assumption; discriminate].
    destruct (decide (Peer.fingerprint256 c' ∈ seen)) as [Hin|Hnin];
      [erewrite walk_stop_seen in Hl by eassumption; discriminate|].
    rewrite (walk_step _ _ _ _ _ c') in Hl by assumption.
    destruct (CertParser.parseCertificate c') as [p|m'] eqn:Hp.
    + destruct (10 <? _)%nat; [discriminate|]. eapply IH. exact Hl.
    + injection Hl as <-. apply parseCertificate_err in Hp as [_ ->]. reflexivity.
Qed.

(** A two-certificate cycle is walked once round. *)
Example walk_cycle {date : DateReader} :
  exists l,
    walk WALK_FUEL Sample.cycle (Some 0%nat) ∅ [] = Some (Ok l)
    /\ map Cert.fingerprint256 l = ["AA"; "BB"].
Proof. eexists. split; [vm_compute; reflexivity | reflexivity]. Qed.

(** C1 (the cap, as the code has it): on a chain of twelve certificates with
    twelve different fingerprints the live path returns a result whose
    certificate list has eleven entries: the loop leaves when the length
    exceeds ten, which the eleventh push makes true. *)
Theorem C1_twelve_chain_yields_eleven {date : DateReader} :
  exists r,
    getCertificateChain (Sample.always (Sample.session Sample.twelve))
                        "long.example" 443 10000 = Ok r
    /\ length (Chain.certificates r) = 11%nat.
Proof. eexists. split; vm_compute; reflexivity. Qed.

(** ** The connection strategist *)

Lemma tryConnect_unfold (net : Network) (domain : string) (port timeout : Z)
  (i : nat) (config : TlsConfig.t) :
  TLS_CONFIGS !! i = Some config ->
  tryConnect net domain port timeout i =
    match net domain port timeout config with
    | Connected socket => Ok socket
    | Failed => tryConnect net domain port timeout (S i)
    | TimedOut => Err E_TIMEOUT
    | Threw message => Err message
    end.
Proof.
  intros Hi. unfold tryConnect. rewrite (drop_S _ _ _ Hi). reflexivity.
Qed.

Lemma tryConnect_exhausted (net : Network) (domain : string) (port timeout : Z)
  (i : nat) :
  (length TLS_CONFIGS <= i)%nat ->
  tryConnect net domain port timeout i = Err E_CONNECT.
Proof.
  intros Hi. unfold tryConnect. rewrite drop_ge by assumption. reflexivity.
Qed.

(** C2, refuted as stated: the first profile is not the last, its handshake
    exceeds the timeout, the second profile would connect, and the
    strategist ends in the timeout error. *)
Lemma C2_timeout_on_first_profile_is_final :
  TLS_CONFIGS !! 0%nat = Some (TlsConfig.mk "TLSv1.2" "TLSv1.3" None)
  /\ Sample.slowFirst "slow.example" 443%Z 10000%Z
       (TlsConfig.mk "TLSv1.2" "TLSv1.3" None) = TimedOut
  /\ tryConnect Sample.slowFirst "slow.example" 443 10000 1
     = Ok (Sample.session Sample.cycle)
  /\ tryConnect Sample.slowFirst "slow.example" 443 10000 0 = Err E_TIMEOUT.
Proof. repeat split; reflexivity. Qed.

(** C2, amended: under whichever profile a handshake exceeds the timeout,
    the strategist fails at once with the timeout error and attempts no
    later profile; it is a handshake error that counts as the failure of
    that one profile and moves the strategist to the next profile; a
    completed handshake is the strategist's result. *)
Theorem C2_timeout_ends_the_strategist (net : Network) (domain : string)
  (port timeout : Z) (i : nat) (config : TlsConfig.t) :
  TLS_CONFIGS !! i = Some config ->
  (net domain port timeout config = TimedOut ->
     tryConnect net domain port timeout i = Err E_TIMEOUT)
  /\ (net domain port timeout config = Failed ->
       tryConnect net domain port timeout i
       = tryConnect net domain port timeout (S i))
  /\ (forall socket, net domain port timeout config = Connected socket ->
       tryConnect net domain port timeout i = Ok socket).
Proof.
  intros Hi. rewrite (tryConnect_unfold _ _ _ _ _ _ Hi).
  repeat split; intros; match goal with H : net _ _ _ _ = _ |- _ => rewrite H end;
    reflexivity.
Qed.

Lemma C2_timeout_ends_the_strategist_witness :
  tryConnect Sample.slowFirst "slow.example" 443 10000 0 = Err E_TIMEOUT.
Proof.
  apply (C2_timeout_ends_the_strategist Sample.slowFirst "slow.example" 443 10000
           0%nat (TlsConfig.mk "TLSv1.2" "TLSv1.3" None)); reflexivity.
Defined.

Example evDump_parsed {date : DateReader} :
  let c := parsePEMText Sample.blockA Sample.evDump in
  Subject.commonName (Cert.subject c) = Some (Attr.Text "www.acme.example")
  /\ Subject.organization (Cert.subject c) = Some (Attr.Text "Acme Corp")
  /\ Subject.country (Cert.subject c) = Some (Attr.Text "US")
  /\ Subject.commonName (Cert.issuer c) = Some (Attr.Text "Example EV CA")
  /\ Cert.serialNumber c = "0A1B2C"
  /\ Cert.fingerprint256 c = "AB:CD:EF:01"
  /\ Cert.bits c = 2048%Z
  /\ PublicKey.type (Cert.publicKey c) = RSA
  /\ SigAlg.algorithm (Cert.signatureAlgorithm c) = "sha256WithRSAEncryption"
  /\ Cert.subjectAltNames c
     = SanStrings ["www.acme.example"; "acme.example"; "www.acme.example"]
  /\ Cert.isGM c = Some false.
Proof. vm_compute. repeat split. Qed.

(** ** Validation level *)

Lemma level_live_cases (cert : Peer.t) :
  Level.level (CertParser.parseValidationLevel cert) =
    if CertParser.hasEVOID cert
       || (CertParser.hasFullOrgInfo cert && CertParser.hasEVFields cert)
    then EV
    else if Attr.truthy (CertParser.subject_of cert !! "O") then OV else DV.
Proof.
  unfold CertParser.parseValidationLevel.
  destruct (_ || _); [reflexivity|]. destruct (Attr.truthy _); reflexivity.
Qed.

Lemma level_text_cases {date : DateReader} (pem text : string) :
  Level.level (Cert.validationLevel (parsePEMText pem text)) =
    if Attr.truthy (Subject.organization (Cert.subject (parsePEMText pem text)))
    then OV else DV.
Proof.
  unfold parsePEMText. cbn [Cert.validationLevel Cert.subject].
  destruct (Attr.truthy _); reflexivity.
Qed.

(** C3, refuted as stated: the decoded text of this certificate carries the
    CA/Browser Forum EV policy identifier (and the subject fields of an EV
    certificate), and the record of the text path has level OV. *)
Lemma C3_text_path_ev_oid_is_ov :
  Js.includes "2.23.140.1.1" Sample.evDump = true
  /\ In "2.23.140.1.1" CertParser.EV_OIDS
  /\ Level.level (Cert.validationLevel (parsePEMText (date := Sample.utc) Sample.blockA Sample.evDump)) = OV.
Proof. vm_compute. intuition. Qed.

(** C3, amended: on the live path the level is EV if and only if a known EV
    policy identifier occurs in the serialised [infoAccess] data or the
    subject has O, L, ST or S, and C together with businessCategory or
    serialNumber; otherwise OV if and only if the subject has O; otherwise
    DV.  On the text path the level is OV if and only if the parsed subject
    has an organization, otherwise DV, and it is never EV. *)
Theorem C3_validation_level {date : DateReader} :
  (forall (cert : Peer.t) (record : Cert.t),
     CertParser.parseCertificate cert = Ok record ->
     let has k := Attr.truthy (CertParser.subject_of cert !! k) = true in
     let level := Level.level (Cert.validationLevel record) in
     let ev :=
       (exists oid, In oid CertParser.EV_OIDS
          /\ Js.includes oid
               (CertParser.json_infoAccess (default [] (Peer.infoAccess cert))) = true)
       \/ ((has "O" /\ has "L" /\ (has "ST" \/ has "S") /\ has "C")
           /\ (has "businessCategory" \/ has "serialNumber")) in
     (level = EV <-> ev)
     /\ (level = OV <-> ~ ev /\ has "O")
     /\ (level = DV <-> ~ ev /\ ~ has "O"))
  /\ (forall pem text : string,
        let c := parsePEMText pem text in
        let level := Level.level (Cert.validationLevel c) in
        let hasOrg := Attr.truthy (Subject.organization (Cert.subject c)) = true in
        level <> EV
        /\ (level = OV <-> hasOrg)
        /\ (level = DV <-> ~ hasOrg)).
Proof.
  split.
  - intros cert record [_ ->]%parseCertificate_ok has level ev.
    assert (Hev : ev <-> CertParser.hasEVOID cert
                         || (CertParser.hasFullOrgInfo cert
                             && CertParser.hasEVFields cert) = true).
    { subst ev has. unfold CertParser.hasEVOID, CertParser.hasFullOrgInfo,
        CertParser.hasEVFields. cbv zeta.
      rewrite orb_true_iff, andb_true_iff, !andb_true_iff, !orb_true_iff.
      rewrite existsb_exists. tauto. }
    subst level. cbn [Cert.validationLevel parsed CertParser.record].
    rewrite level_live_cases. subst has. cbv beta.
    destruct (CertParser.hasEVOID cert
              || (CertParser.hasFullOrgInfo cert && CertParser.hasEVFields cert)).
    + assert (Hyes : ev) by (apply Hev; reflexivity).
      repeat split; intros; first [reflexivity | discriminate | tauto].
    + assert (Hnev : ~ ev) by (intros H; apply Hev in H; discriminate).
      destruct (Attr.truthy (CertParser.subject_of cert !! "O")) eqn:HO;
        repeat split; intros;
        first [reflexivity | discriminate | assumption | tauto | intuition congruence].
  - intros pem text c level hasOrg. subst level hasOrg c.
    rewrite level_text_cases.
    destruct (Attr.truthy _); repeat split; intros;
      first [reflexivity | discriminate | tauto | intuition congruence].
Qed.

Lemma C3_validation_level_witness :
  exists record,
    CertParser.parseCertificate (date := Sample.utc) Sample.acmePeer = Ok record
    /\ Level.level (Cert.validationLevel record) = DV
    /\ Attr.truthy (CertParser.subject_of Sample.acmePeer !! "O") <> true.
Proof.
  destruct (CertParser.parseCertificate (date := Sample.utc) Sample.acmePeer)
    as [record|message] eqn:Hrecord; [|vm_compute in Hrecord; discriminate].
  exists record. split; [reflexivity|].
  destruct (C3_validation_level (date := Sample.utc)) as [Hlive _].
  destruct (Hlive Sample.acmePeer record Hrecord) as (_ & _ & Hdv).
  assert (Hlevel : Level.level (Cert.validationLevel record) = DV)
    by (vm_compute in Hrecord; injection Hrecord as <-; reflexivity).
  split; [exact Hlevel|]. apply Hdv in Hlevel. exact (proj2 Hlevel).
Defined.

(** ** Key classification *)

(** C4, refuted as stated.  Live path: a P-256 certificate has no SM2 curve,
    no modulus and a 65-byte key, and is classified ECC with 256 bits, not
    Unknown with 0.  Text path: an Ed25519 certificate is classified RSA
    with 2048 bits.  And the two paths do not have the same SM2 criterion:
    the curve identifier 1.2.156.10197.1.301, one of the SM2 identifiers of
    the live path, makes a key SM2 there and ECC on the text path. *)
Lemma C4_p256_is_ecc_and_paths_disagree :
  (CertParser.is_sm2_curve "prime256v1" = false
   /\ Peer.modulus Sample.p256 = None
   /\ PublicKey.type (CertParser.parsePublicKeyAlgorithm Sample.p256) = ECC
   /\ PublicKey.bits (CertParser.parsePublicKeyAlgorithm Sample.p256) = 256%Z)
  /\ (isGM_of Sample.ed25519Dump = false
      /\ PublicKey.type (Cert.publicKey (parsePEMText (date := Sample.utc) Sample.blockA Sample.ed25519Dump)) = RSA
      /\ PublicKey.bits (Cert.publicKey (parsePEMText (date := Sample.utc) Sample.blockA Sample.ed25519Dump)) = 2048%Z)
  /\ (In "1.2.156.10197.1.301" CertParser.SM2_CURVES
      /\ Peer.asn1Curve Sample.oidPeer = Some "1.2.156.10197.1.301"
      /\ Re.exec Re.curveRe Sample.oidDump = Some "1.2.156.10197.1.301"
      /\ PublicKey.type (CertParser.parsePublicKeyAlgorithm Sample.oidPeer) = SM2
      /\ PublicKey.type (Cert.publicKey (parsePEMText (date := Sample.utc) Sample.blockA Sample.oidDump)) = ECC
      /\ Cert.isGM (parsePEMText (date := Sample.utc) Sample.blockA Sample.oidDump) = Some false).
Proof. vm_compute. intuition. Qed.

(** C4, amended.  Live path: SM2 with 256 bits exactly when a curve
    identifier is present and contains one of the three SM2 identifiers;
    ECC when a curve identifier is present and does not; without a curve
    identifier, RSA exactly when a modulus is present, its bits the
    certificate's bit count or else four times the length of the modulus
    text (2048 for a 2048-bit modulus); with neither, a raw key of 32 or 44
    bytes is ECC with algorithm Ed25519 and 256 bits; otherwise Unknown, its
    bits the certificate's bit count or else 0.  Text path: SM2 with 256
    bits exactly when the name of the key algorithm or of the curve contains
    sm2, or the decoded text contains sm2p256v1 or sm2-with-sm3 anywhere,
    in whatever case; otherwise ECC with algorithm ECDSA exactly when the name
    of the key algorithm contains EC in upper or lower case; otherwise RSA;
    never Unknown and never Ed25519.  The bits of an ECC or RSA key are the
    number of the Public-Key line, when that number is one the source's
    arithmetic represents exactly, or else 2048. *)
Theorem C4_key_classification {date : DateReader} :
  (forall (cert : Peer.t) (record : Cert.t),
     CertParser.parseCertificate cert = Ok record ->
     let pk := Cert.publicKey record in
     let hasCurve := Js.truthy (Peer.asn1Curve cert) = true in
     let sm2 :=
       exists id, In id CertParser.SM2_CURVES
         /\ Js.includes (Js.toLowerCase id)
              (Js.toLowerCase (default EmptyString (Peer.asn1Curve cert))) = true in
     let hasModulus := Js.truthy (Peer.modulus cert) = true in
     let rawKey := exists key, Peer.pubkey cert = Some key
                               /\ (length key = 32%nat \/ length key = 44%nat) in
     (PublicKey.type pk = SM2 <-> hasCurve /\ sm2)
     /\ (PublicKey.type pk = SM2 -> PublicKey.bits pk = 256%Z)
     /\ (PublicKey.type pk = RSA <-> ~ hasCurve /\ hasModulus)
     /\ (PublicKey.type pk = RSA ->
         PublicKey.bits pk
         = num_or (Peer.bits cert)
             (Z.of_nat (String.length (default EmptyString (Peer.modulus cert))) * 4))
     /\ (PublicKey.type pk = RSA ->
         (Peer.bits cert = Some 2048%Z
          \/ (Peer.bits cert = None
              /\ String.length (default EmptyString (Peer.modulus cert)) = 512%nat)) ->
         PublicKey.bits pk = 2048%Z)
     /\ (PublicKey.type pk = ECC <->
         (hasCurve /\ ~ sm2) \/ (~ hasCurve /\ ~ hasModulus /\ rawKey))
     /\ (~ hasCurve -> ~ hasModulus -> rawKey ->
         PublicKey.algorithm pk = "Ed25519" /\ PublicKey.bits pk = 256%Z)
     /\ (PublicKey.type pk = Unknown <-> ~ hasCurve /\ ~ hasModulus /\ ~ rawKey)
     /\ (PublicKey.type pk = Unknown -> PublicKey.bits pk = num_or (Peer.bits cert) 0))
  /\ (forall pem text : string,
        let pk := Cert.publicKey (parsePEMText pem text) in
        let pubKeyAlgo := default EmptyString (Re.exec Re.pubKeyRe text) in
        let curve := default EmptyString (Re.exec Re.curveRe text) in
        let marker :=
          Js.includes "sm2" (Js.toLowerCase pubKeyAlgo) = true
          \/ Js.includes "sm2" (Js.toLowerCase curve) = true
          \/ Js.includes "sm2p256v1" (Js.toLowerCase text) = true
          \/ Js.includes "sm2-with-sm3" (Js.toLowerCase text) = true in
        let ec :=
          Js.includes "EC" pubKeyAlgo = true
          \/ Js.includes "ec" (Js.toLowerCase pubKeyAlgo) = true in
        (PublicKey.type pk = SM2 <-> marker)
        /\ (PublicKey.type pk = SM2 ->
            PublicKey.bits pk = 256%Z /\ PublicKey.algorithm pk = "SM2")
        /\ (PublicKey.type pk = ECC <-> ~ marker /\ ec)
        /\ (PublicKey.type pk = ECC -> PublicKey.algorithm pk = "ECDSA")
        /\ (PublicKey.type pk = RSA <-> ~ marker /\ ~ ec)
        /\ (PublicKey.type pk = RSA -> PublicKey.algorithm pk = "RSA")
        /\ PublicKey.type pk <> Unknown
        /\ PublicKey.algorithm pk <> "Ed25519"
        /\ (PublicKey.type pk <> SM2 -> Re.exec Re.keySizeRe text = None ->
            PublicKey.bits pk = 2048%Z)
        /\ (PublicKey.type pk <> SM2 ->
            forall m, Re.exec Re.keySizeRe text = Some m ->
              safe_integer (parseInt m) -> PublicKey.bits pk = parseInt m)).
Proof.
  split.
  - intros cert record [_ ->]%parseCertificate_ok pk hasCurve sm2 hasModulus rawKey.
    assert (Hsm2 : sm2 <-> CertParser.is_sm2_curve
                             (default EmptyString (Peer.asn1Curve cert)) = true).
    { subst sm2. unfold CertParser.is_sm2_curve. rewrite existsb_exists. tauto. }
    subst pk hasCurve hasModulus.
    cbn [Cert.publicKey parsed CertParser.record].
    unfold CertParser.parsePublicKeyAlgorithm.
    destruct (Js.truthy (Peer.asn1Curve cert)) eqn:Hcurve.
    + destruct (CertParser.is_sm2_curve _) eqn:Hc;
        cbn [PublicKey.type PublicKey.bits PublicKey.algorithm];
        repeat split; intros;
        first [reflexivity | discriminate | tauto | intuition congruence].
    + destruct (Js.truthy (Peer.modulus cert)) eqn:Hmod.
      * cbn [PublicKey.type PublicKey.bits PublicKey.algorithm].
        repeat split; intros;
          first [reflexivity | discriminate | tauto | intuition congruence | idtac].
        match goal with
        | H : Peer.bits cert = _ \/ _ |- _ => destruct H as [Hb|[Hb Hl]]
        end; rewrite Hb; [|rewrite Hl]; reflexivity.
      * assert (Hraw : rawKey <->
                  match Peer.pubkey cert with
                  | Some key => (length key =? 32)%nat || (length key =? 44)%nat = true
                  | None => False
                  end).
        { subst rawKey. destruct (Peer.pubkey cert) as [key|].
          - rewrite orb_true_iff, !Nat.eqb_eq. split.
            + intros (k & [= <-] & H). exact H.
            + intros H. eauto.
          - split; [intros (k & [=] & _) | tauto]. }
        destruct (Peer.pubkey cert) as [key|].
        -- destruct ((length key =? 32)%nat || (length key =? 44)%nat);
             cbn [PublicKey.type PublicKey.bits PublicKey.algorithm];
             repeat split; intros;
             first [reflexivity | discriminate | tauto | intuition congruence].
        -- cbn [PublicKey.type PublicKey.bits PublicKey.algorithm];
             repeat split; intros;
             first [reflexivity | discriminate | tauto | intuition congruence].
  - intros pem text pk pubKeyAlgo curve marker ec.
    assert (Hmarker : marker <-> isGM_of text = true).
    { subst marker pubKeyAlgo curve. unfold isGM_of. rewrite !orb_true_iff. tauto. }
    assert (Hec : ec <-> Js.includes "EC" pubKeyAlgo
                         || Js.includes "ec" (Js.toLowerCase pubKeyAlgo) = true).
    { subst ec. rewrite orb_true_iff. tauto. }
    subst pk. unfold parsePEMText. cbn [Cert.publicKey]. fold pubKeyAlgo.
    destruct (isGM_of text) eqn:HGM; cbn [negb andb].
    + cbn [PublicKey.type PublicKey.bits PublicKey.algorithm].
      repeat split; intros;
        first [reflexivity | discriminate | tauto | intuition congruence].
    + destruct (Js.includes "EC" pubKeyAlgo
                || Js.includes "ec" (Js.toLowerCase pubKeyAlgo)) eqn:HEC;
        cbn [PublicKey.type PublicKey.bits PublicKey.algorithm];
        repeat split; intros;
        first [reflexivity | discriminate | tauto | intuition congruence | idtac];
        match goal with
        | H : Re.exec Re.keySizeRe text = _ |- _ => rewrite H; reflexivity
        end.
Qed.

Lemma C4_key_classification_witness :
  exists record,
    CertParser.parseCertificate (date := Sample.utc) Sample.acmePeer = Ok record
    /\ PublicKey.type (Cert.publicKey record) = RSA
    /\ Js.truthy (Peer.modulus Sample.acmePeer) = true
    /\ PublicKey.bits (Cert.publicKey record) = 2048%Z.
Proof.
  destruct (CertParser.parseCertificate (date := Sample.utc) Sample.acmePeer)
    as [record|message] eqn:Hrecord; [|vm_compute in Hrecord; discriminate].
  exists record. split; [reflexivity|].
  destruct (C4_key_classification (date := Sample.utc)) as [Hlive _].
  destruct (Hlive Sample.acmePeer record Hrecord)
    as (_ & _ & Hrsa & _ & Hbits & _).
  assert (Htype : PublicKey.type (Cert.publicKey record) = RSA)
    by (vm_compute in Hrecord; injection Hrecord as <-; reflexivity).
  split; [exact Htype|]. split; [exact (proj2 (proj1 Hrsa Htype))|].
  apply (Hbits Htype). left. reflexivity.
Defined.

(** ** The shape of the result and the national-cryptography flag *)

Lemma hasGM_markSelfSigned (b : bool) (l : list Cert.t) :
  hasGM (markSelfSigned b l) = hasGM l.
Proof. destruct l as [|c l]; [reflexivity|]. destruct b; reflexivity. Qed.

Lemma hasGM_true (l : list Cert.t) :
  hasGM l = true <-> exists c, In c l /\ Cert.isGM c = Some true.
Proof.
  unfold hasGM. rewrite existsb_exists. split; intros (c & Hin & Hc); exists c;
    (split; [assumption|]).
  - destruct (Cert.isGM c) as [[]|]; simpl in Hc; congruence.
  - rewrite Hc. reflexivity.
Qed.

Lemma live_result {date : DateReader} (net : Network) (domain : string) (port timeout : Z) (r : Chain.t) :
  getCertificateChain net domain port timeout = Ok r ->
  exists socket collected,
    tryConnect net domain port timeout 0 = Ok socket
    /\ is_Some (deref (Socket.store socket) (Socket.peerCertificate socket))
    /\ walk WALK_FUEL (Socket.store socket) (Socket.peerCertificate socket) ∅ []
       = Some (Ok collected)
    /\ r = Chain.mk domain port
             (markSelfSigned (selfSigned collected) collected)
             (Socket.authorized socket) (selfSigned collected) None
             (if Js.truthy (Socket.authorizationError socket)
              then Socket.authorizationError socket else None)
             (Socket.getProtocol socket) (Socket.getCipher socket) None None.
Proof.
  unfold getCertificateChain. intros H.
  destruct (tryConnect net domain port timeout 0) as [socket|]; [|discriminate].
  destruct (deref _ _) as [c|] eqn:Hc; [|discriminate].
  destruct (walk _ _ _ _ _) as [[collected|m]|] eqn:Hw; [|discriminate..].
  injection H as <-. exists socket, collected.
  split; [reflexivity|]. split; [rewrite Hc; eexists; reflexivity|].
  split; [exact Hw | reflexivity].
Qed.

(** C5, refuted as stated: the result of the live path for a session whose
    certificate is on the SM2 curve has no [isGMSSL] property. *)
Lemma C5_live_result_lacks_isGMSSL :
  exists r c,
    getCertificateChain (date := Sample.utc) (Sample.always (Sample.session [Sample.sm2Peer]))
                        "gm.example" 443 10000 = Ok r
    /\ Chain.certificates r = [c]
    /\ PublicKey.type (Cert.publicKey c) = SM2
    /\ Chain.isGMSSL r = None
    /\ ~ In "isGMSSL" (Chain.fields r).
Proof.
  eexists. eexists. split; [vm_compute; reflexivity|].
  split; [reflexivity|]. split; [reflexivity|]. split; [reflexivity|].
  vm_compute. intuition discriminate.
Qed.

(** C5, amended: the result of the toolkit path has an [isGMSSL] property,
    true if and only if some certificate of the result carries the
    national-cryptography flag or the toolkit's error stream mentions NTLS,
    GMTLS or GMSSL; the result of the live path has no such property.  Both
    results have domain, port, certificates, isValid, isSelfSigned, error,
    protocol and cipher; the toolkit path adds isGMSSL, and the fallback
    adds fallback and fallbackReason to it. *)
Theorem C5_isGMSSL_and_shape {date : DateReader} :
  (forall (tool : Toolkit) (stdout stderr domain : string) (port : Z),
     let r := parseOpenSSLOutput tool stdout stderr domain port in
     (exists b, Chain.isGMSSL r = Some b
        /\ (b = true <->
              (exists c, In c (Chain.certificates r) /\ Cert.isGM c = Some true)
              \/ Js.includes "NTLS" stderr = true
              \/ Js.includes "GMTLS" stderr = true
              \/ Js.includes "GMSSL" stderr = true))
     /\ Chain.fields r
        = ["domain"; "port"; "certificates"; "isValid"; "isSelfSigned";
           "isGMSSL"; "error"; "protocol"; "cipher"])
  /\ (forall (net : Network) (domain : string) (port timeout : Z) (r : Chain.t),
        getCertificateChain net domain port timeout = Ok r ->
        Chain.isGMSSL r = None
        /\ Chain.fields r
           = ["domain"; "port"; "certificates"; "isValid"; "isSelfSigned";
              "error"; "protocol"; "cipher"])
  /\ (forall (net : Network) (tool : Toolkit) (domain : string)
             (port timeout : Z) (r : Chain.t),
        getCertificateChainWithFallback net tool domain port timeout = Ok r ->
        Chain.fields r
        = ["domain"; "port"; "certificates"; "isValid"; "isSelfSigned";
           "error"; "protocol"; "cipher"]
        \/ Chain.fields r
           = ["domain"; "port"; "certificates"; "isValid"; "isSelfSigned";
              "isGMSSL"; "error"; "protocol"; "cipher"; "fallback";
              "fallbackReason"]).
Proof.
  assert (Hlive : forall net domain port timeout r,
    getCertificateChain net domain port timeout = Ok r ->
    Chain.isGMSSL r = None
    /\ Chain.fields r
       = ["domain"; "port"; "certificates"; "isValid"; "isSelfSigned";
          "error"; "protocol"; "cipher"]).
  { intros net domain port timeout r H.
    apply live_result in H as (socket & collected & _ & _ & _ & ->).
    split; reflexivity. }
  split; [|split; [exact Hlive|]].
  - intros tool stdout stderr domain port r. subst r. split; [|reflexivity].
    eexists. split; [reflexivity|].
    unfold parseOpenSSLOutput. cbn [Chain.certificates].
    rewrite <- hasGM_true, hasGM_markSelfSigned, !orb_true_iff. tauto.
  - intros net tool domain port timeout r H.
    unfold getCertificateChainWithFallback in H.
    destruct (getCertificateChain net domain port timeout) as [r0|m] eqn:Hn.
    + injection H as <-. left. apply (Hlive _ _ _ _ _ Hn).
    + destruct (getGMCertificateChain tool domain port) as [r1|] eqn:Hgm;
        [|discriminate].
      injection H as <-. right.
      unfold getGMCertificateChain in Hgm.
      destruct (match match s_client tool true domain port with
                      | Ok out => Some out | Err _ => None end with
                | Some out => _ | None => _ end) as [out|]; [|discriminate].
      destruct (hasCertificate out); [|discriminate].
      injection Hgm as <-. reflexivity.
Qed.

(** ** Chain positions *)

Lemma set_type_type (ty : CertType) (tn : string) (c : Cert.t) :
  Cert.type (Cert.set_type ty tn c) = Some ty.
Proof. reflexivity. Qed.

Lemma set_type_names (ty : CertType) (tn : string) (c : Cert.t) :
  Cert.subject (Cert.set_type ty tn c) = Cert.subject c
  /\ Cert.issuer (Cert.set_type ty tn c) = Cert.issuer c.
Proof. split; reflexivity. Qed.

Lemma entry_first (store : list Peer.t) (cert : option nat) (c : Peer.t)
  (p : Cert.t) :
  Cert.type (entry store cert c 0 p) = Some leaf.
Proof. reflexivity. Qed.

Lemma entry_later (store : list Peer.t) (cert : option nat) (c : Peer.t) (n : nat)
  (p : Cert.t) :
  n <> 0%nat -> inner (entry store cert c n p).
Proof.
  intros Hn. unfold entry, inner. apply Nat.eqb_neq in Hn. rewrite Hn.
  destruct (_ || _); [left|right]; reflexivity.
Qed.

Lemma inner_not_leaf (c : Cert.t) : inner c -> Cert.type c <> Some leaf.
Proof. intros [H|H]; rewrite H; discriminate. Qed.

Lemma leaves_inner (l : list Cert.t) : Forall inner l -> leaves l = 0%nat.
Proof.
  unfold leaves. induction 1 as [|c l Hc _ IH]; [reflexivity|].
  rewrite filter_cons_False by (apply inner_not_leaf; assumption). exact IH.
Qed.

Lemma leaves_first (c : Cert.t) (l : list Cert.t) :
  Cert.type c = Some leaf -> Forall inner l -> leaves (c :: l) = 1%nat.
Proof.
  intros Hc Hl. unfold leaves. rewrite filter_cons_True by assumption.
  simpl. f_equal. apply leaves_inner. assumption.
Qed.

(** Entries pushed after the first are roots or intermediates. *)
Lemma walk_rest_inner {date : DateReader} (store : list Peer.t) (fuel : nat) :
  forall (cert : option nat) (seen : gset (option string)) (acc l : list Cert.t),
    acc <> [] ->
    walk fuel store cert seen acc = Some (Ok l) ->
    exists added, l = acc ++ added /\ Forall inner added.
Proof.
  induction fuel as [|fuel IH]; intros cert seen acc l Hacc Hwalk.
  - simpl in Hwalk. exists []. rewrite app_nil_r.
    destruct (deref store cert) as [c|]; [destruct (decide _)|]; simplify_eq;
      split; constructor.
  - destruct (deref store cert) as [c|] eqn:Hc.
    2:{ rewrite walk_stop_absent in Hwalk by assumption. simplify_eq.
        exists []. rewrite app_nil_r. split; constructor. }
    destruct (decide (Peer.fingerprint256 c ∈ seen)) as [Hin|Hnin].
    { rewrite (walk_stop_seen _ _ _ _ _ c) in Hwalk by assumption. simplify_eq.
      exists []. rewrite app_nil_r. split; constructor. }
    rewrite (walk_step _ _ _ _ _ c) in Hwalk by assumption.
    destruct (CertParser.parseCertificate c) as [p|m]; [|discriminate].
    assert (Hentry : inner (entry store cert c (length acc) p)).
    { apply entry_later. destruct acc; [contradiction|discriminate]. }
    destruct (10 <? _)%nat.
    + simplify_eq. exists [entry store cert c (length acc) p].
      split; [reflexivity|]. constructor; [assumption|constructor].
    + apply IH in Hwalk as (added & -> & Hadded);
        [|intros H; apply app_eq_nil in H as [_ H]; discriminate].
      exists (entry store cert c (length acc) p :: added).
      rewrite <- app_assoc. split; [reflexivity|]. constructor; assumption.
Qed.

(** The walk from the peer certificate collects it first, as the leaf. *)
Lemma walk_first_leaf {date : DateReader} (store : list Peer.t) (fuel : nat)
  (cert : option nat) (c : Peer.t) (l : list Cert.t) :
  deref store cert = Some c ->
  walk fuel store cert ∅ [] = Some (Ok l) ->
  exists rest, l = entry store cert c 0 (parsed c) :: rest /\ Forall inner rest.
Proof.
  intros Hc Hwalk. destruct fuel as [|fuel].
  - simpl in Hwalk. rewrite Hc in Hwalk.
    destruct (decide _) as [Hin|_]; [|discriminate]. set_solver.
  - rewrite (walk_step _ _ _ _ _ c) in Hwalk by (assumption || set_solver).
    destruct (CertParser.parseCertificate c) as [p|m] eqn:Hp; [|discriminate].
    apply parseCertificate_ok in Hp as [_ ->].
    simpl in Hwalk. apply walk_rest_inner in Hwalk as (added & -> & Hadded);
      [|discriminate].
    exists added. split; [reflexivity | assumption].
Qed.

Lemma selfSigned_true (l : list Cert.t) :
  selfSigned l = true <->
  exists c, l = [c] /\ Attr.identical (Subject.commonName (Cert.subject c))
                                      (Subject.commonName (Cert.issuer c)) = true.
Proof.
  unfold selfSigned. destruct l as [|c [|c' l]].
  - split; [discriminate | intros (c & [=] & _)].
  - split.
    + intros H. exists c. split; [reflexivity | assumption].
    + intros (c' & [= <-] & H). assumption.
  - split; [discriminate | intros (c0 & [=] & _)].
Qed.


(** The positions [parseOpenSSLOutput] assigns to the surviving records. *)
Lemma positioned_shape (arr : list Cert.t) :
  (arr = [] /\ imap (positioned (length arr)) arr = [])
  \/ (exists c, arr = [c]
        /\ imap (positioned (length arr)) arr = [Cert.set_type leaf "服务器证书" c])
  \/ (exists first middle last, arr = first :: middle ++ [last]
        /\ imap (positioned (length arr)) arr
           = Cert.set_type leaf "服务器证书" first
             :: map (Cert.set_type intermediate "中间证书") middle
             ++ [Cert.set_type root "根证书" last]).
Proof.
  destruct arr as [|first rest]; [left; split; reflexivity|].
  destruct rest as [|last middle _] using rev_ind.
  - right. left. exists first. split; reflexivity.
  - right. right. exists first, middle, last. split; [reflexivity|].
    rewrite imap_cons, imap_app. cbn [imap app].
    assert (Hmid : imap (positioned (length (first :: middle ++ [last])) ∘ S) middle
                   = map (Cert.set_type intermediate "中间证书") middle).
    { transitivity (imap (const (Cert.set_type intermediate "中间证书")) middle);
        [|apply imap_const].
      apply imap_ext. intros i x Hi. apply lookup_lt_Some in Hi.
      unfold compose, positioned, const. cbn [length]. rewrite length_app. cbn [length].
      replace (S i =? 0)%nat with false by reflexivity.
      replace (S i =? S (length middle + 1) - 1)%nat with false;
        [reflexivity|]. symmetry. apply Nat.eqb_neq. lia. }
    assert (Hlast : (positioned (length (first :: middle ++ [last])) ∘ S)
                      (length middle + 0)%nat last
                    = Cert.set_type root "根证书" last).
    { unfold compose, positioned. cbn [length]. rewrite length_app. cbn [length].
      replace (S (length middle + 0) =? 0)%nat with false by reflexivity.
      replace (S (length middle + 0) =? S (length middle + 1) - 1)%nat with true;
        [reflexivity|]. symmetry. apply Nat.eqb_eq. lia. }
    rewrite Hmid, Hlast. reflexivity.
Qed.

Lemma markSelfSigned_false (l : list Cert.t) : markSelfSigned false l = l.
Proof. destruct l; reflexivity. Qed.

Lemma markSelfSigned_length (b : bool) (l : list Cert.t) :
  length (markSelfSigned b l) = length l.
Proof. destruct l; [reflexivity|]. destruct b; reflexivity. Qed.

Lemma selfSigned_set_type (ty : CertType) (tn : string) (c : Cert.t) :
  selfSigned [Cert.set_type ty tn c] = selfSigned [c].
Proof. reflexivity. Qed.

(** C6, refuted as stated: the toolkit prints one certificate block, its
    decoding times out, the block is dropped, and the result, which is not
    self-signed, has no certificate at all, hence no leaf. *)
Lemma C6_text_path_empty_chain :
  exists r,
    getCertificateChainWithFallback (date := Sample.utc) Sample.unreachable Sample.brokenX509
                                    "gm.example" 443 10000 = Ok r
    /\ Chain.isSelfSigned r = false
    /\ Chain.certificates r = []
    /\ leaves (Chain.certificates r) = 0%nat.
Proof. eexists. split; [vm_compute; reflexivity|]. repeat split. Qed.

Lemma live_positions {date : DateReader} (net : Network) (domain : string) (port timeout : Z) (r : Chain.t) :
  getCertificateChain net domain port timeout = Ok r ->
  (Chain.isSelfSigned r = true ->
     exists c, Chain.certificates r = [c] /\ Cert.type c = Some self_signed
               /\ Attr.identical (Subject.commonName (Cert.subject c))
                                 (Subject.commonName (Cert.issuer c)) = true)
  /\ (Chain.isSelfSigned r = false ->
       exists first rest, Chain.certificates r = first :: rest
                          /\ Cert.type first = Some leaf /\ Forall inner rest).
Proof.
  intros H. apply live_result in H as (socket & collected & _ & [c Hc] & Hw & ->).
  cbn [Chain.isSelfSigned Chain.certificates].
  apply (walk_first_leaf _ _ _ c) in Hw as (rest & -> & Hrest); [|assumption].
  split; intros Hss; rewrite Hss.
  - apply selfSigned_true in Hss as (c' & [= <- <-] & Hcn).
    eexists. split; [reflexivity|]. split; [reflexivity|]. exact Hcn.
  - rewrite markSelfSigned_false. eauto using entry_first.
Qed.

Lemma text_positions {date : DateReader} (tool : Toolkit) (stdout stderr domain : string) (port : Z) :
  let r := parseOpenSSLOutput tool stdout stderr domain port in
  let survivors := omap id (map (parsePEMCertificate tool) (pem_blocks stdout)) in
  length (Chain.certificates r) = length survivors
  /\ (Chain.isSelfSigned r = true ->
       exists c, Chain.certificates r = [c] /\ Cert.type c = Some self_signed
                 /\ Attr.identical (Subject.commonName (Cert.subject c))
                                   (Subject.commonName (Cert.issuer c)) = true)
  /\ (Chain.isSelfSigned r = false ->
       (survivors = [] /\ Chain.certificates r = [])
       \/ (exists c, Chain.certificates r = [c] /\ Cert.type c = Some leaf)
       \/ (exists first middle last,
             Chain.certificates r = first :: middle ++ [last]
             /\ Cert.type first = Some leaf
             /\ Forall (fun c => Cert.type c = Some intermediate) middle
             /\ Cert.type last = Some root)).
Proof.
  intros r survivors. subst r. unfold parseOpenSSLOutput.
  cbn [Chain.isSelfSigned Chain.certificates]. unfold classify.
  fold survivors.
  destruct (positioned_shape survivors)
    as [[Hs ->]|[(c & Hs & ->)|(first & middle & last & Hs & ->)]].
  - rewrite Hs. cbn. split; [reflexivity|]. split; [discriminate|]. intros _. left. split; reflexivity.
  - rewrite Hs. split; [rewrite markSelfSigned_length; reflexivity|].
    split; intros Hss; rewrite Hss.
    + apply selfSigned_true in Hss as (c' & [= <-] & Hcn).
      eexists. split; [reflexivity|]. split; [reflexivity|]. exact Hcn.
    + right. left. eexists. split; reflexivity.
  - rewrite Hs. split.
    { rewrite markSelfSigned_length. cbn [length].
      rewrite !length_app, length_map. reflexivity. }
    assert (Hns : selfSigned
                    (Cert.set_type leaf "服务器证书" first
                     :: map (Cert.set_type intermediate "中间证书") middle
                     ++ [Cert.set_type root "根证书" last]) = false).
    { unfold selfSigned. destruct middle; reflexivity. }
    rewrite Hns. split; [discriminate|]. intros _. right. right.
    eexists _, _, _. rewrite markSelfSigned_false. split; [reflexivity|].
    split; [reflexivity|]. split; [|reflexivity].
    apply Forall_forall. intros x Hx.
    apply list_elem_of_In, in_map_iff in Hx as (y & <- & _).
    reflexivity.
Qed.

(** C6, amended: a result that is self-signed has a single entry, of
    position self-signed; a result that is not self-signed and has at least
    one certificate has exactly one entry of position leaf, the first.  The
    result of the live path always has a certificate.  On the text path the
    entries are the blocks that survived decoding: none when every block
    was dropped (then there is no leaf), a single leaf when one survived
    and is not self-signed, and with two or more the first is leaf, the last
    root and the rest intermediate. *)
Theorem C6_chain_positions {date : DateReader} :
  (forall (net : Network) (domain : string) (port timeout : Z) (r : Chain.t),
     getCertificateChain net domain port timeout = Ok r ->
     Chain.certificates r <> []
     /\ (Chain.isSelfSigned r = true ->
          exists c, Chain.certificates r = [c] /\ Cert.type c = Some self_signed)
     /\ (Chain.isSelfSigned r = false -> leaves (Chain.certificates r) = 1%nat)
     /\ (Chain.isSelfSigned r = false ->
          exists first rest, Chain.certificates r = first :: rest
                             /\ Cert.type first = Some leaf))
  /\ (forall (tool : Toolkit) (stdout stderr domain : string) (port : Z),
        let r := parseOpenSSLOutput tool stdout stderr domain port in
        let survivors := omap id (map (parsePEMCertificate tool) (pem_blocks stdout)) in
        length (Chain.certificates r) = length survivors
        /\ (Chain.isSelfSigned r = true ->
             exists c, Chain.certificates r = [c] /\ Cert.type c = Some self_signed)
        /\ (Chain.isSelfSigned r = false -> Chain.certificates r <> [] ->
             leaves (Chain.certificates r) = 1%nat)
        /\ (Chain.isSelfSigned r = false ->
             Chain.certificates r = []
             \/ (exists c, Chain.certificates r = [c] /\ Cert.type c = Some leaf)
             \/ (exists first middle last,
                   Chain.certificates r = first :: middle ++ [last]
                   /\ Cert.type first = Some leaf
                   /\ Forall (fun c => Cert.type c = Some intermediate) middle
                   /\ Cert.type last = Some root))).
Proof.
  split.
  - intros net domain port timeout r H.
    destruct (live_positions _ _ _ _ _ H) as [Hself Hnot].
    split; [|split; [|split]].
    + destruct (Chain.isSelfSigned r).
      * destruct (Hself eq_refl) as (c & -> & _). discriminate.
      * destruct (Hnot eq_refl) as (first & rest & -> & _). discriminate.
    + intros Hss. destruct (Hself Hss) as (c & Hc & Hty & _). eauto.
    + intros Hss. destruct (Hnot Hss) as (first & rest & -> & Hty & Hrest).
      apply leaves_first; assumption.
    + intros Hss. destruct (Hnot Hss) as (first & rest & -> & Hty & _).
      exists first, rest. split; [reflexivity | exact Hty].
  - intros tool stdout stderr domain port r survivors.
    destruct (text_positions tool stdout stderr domain port)
      as (Hlen & Hself & Hnot).
    fold r in Hlen, Hself, Hnot. fold survivors in Hlen, Hnot.
    split; [exact Hlen|]. split; [|split].
    + intros Hss. destruct (Hself Hss) as (c & Hc & Hty & _). eauto.
    + intros Hss Hne.
      destruct (Hnot Hss) as [[_ He]|[(c & -> & Hty)|(first & middle & last & -> & Hf & Hm & Hl)]].
      * contradiction.
      * apply leaves_first; [assumption|constructor].
      * apply leaves_first; [assumption|]. apply Forall_app. split.
        -- eapply Forall_impl; [exact Hm|]. intros x Hx. right. exact Hx.
        -- constructor; [left; exact Hl | constructor].
    + intros Hss.
      destruct (Hnot Hss) as [[_ He]|[Hone|Hmany]]; [left|right; left|right; right];
        assumption.
Qed.

(** ** Self-signed detection *)


(** What the pipeline returns: the live result, or the toolkit's with its
    provenance. *)
Lemma pipeline_result {date : DateReader} (net : Network) (tool : Toolkit) (domain : string)
  (port timeout : Z) (r : Chain.t) :
  getCertificateChainWithFallback net tool domain port timeout = Ok r ->
  getCertificateChain net domain port timeout = Ok r
  \/ exists message stdout stderr,
       getCertificateChain net domain port timeout = Err message
       /\ r = Chain.set_fallback message
                (parseOpenSSLOutput tool stdout stderr domain port).
Proof.
  unfold getCertificateChainWithFallback. intros H.
  destruct (getCertificateChain net domain port timeout) as [r0|m];
    [left; assumption|].
  destruct (getGMCertificateChain tool domain port) as [r1|] eqn:Hgm;
    [|discriminate].
  injection H as <-. right. unfold getGMCertificateChain in Hgm.
  destruct (match match s_client tool true domain port with
                  | Ok out => Some out | Err _ => None end with
            | Some out => _ | None => _ end) as [out|]; [|discriminate].
  destruct (hasCertificate out); [|discriminate].
  injection Hgm as <-. eauto.
Qed.










(** ** Fallback to the external toolkit *)

(** When no profile completes a handshake the strategist fails: with its
    connection message when every profile ended in a handshake error, with
    its timeout message, or with the message of the exception that the
    connection call threw. *)
Lemma tryConnect_from_fails (net : Network) (domain : string) (port timeout : Z)
  (configs : list TlsConfig.t) :
  (forall config socket, In config configs ->
     net domain port timeout config <> Connected socket) ->
  exists reason,
    tryConnect_from net domain port timeout configs = Err reason
    /\ (reason = E_CONNECT \/ reason = E_TIMEOUT
        \/ exists config, In config configs
             /\ net domain port timeout config = Threw reason).
Proof.
  induction configs as [|c configs IH]; intros Hfail; cbn [tryConnect_from].
  - eauto.
  - destruct (net domain port timeout c) as [socket| | |m] eqn:Hc.
    + exfalso. apply (Hfail c socket); [left; reflexivity | assumption].
    + destruct IH as (reason & Hr & Horigin).
      { intros config socket Hin. apply Hfail. right. assumption. }
      exists reason. split; [assumption|].
      destruct Horigin as [H|[H|(config & Hin & H)]]; [tauto | tauto |].
      right. right. exists config. split; [right; assumption | assumption].
    + eauto.
    + exists m. split; [reflexivity|]. right. right. exists c.
      split; [left; reflexivity | assumption].
Qed.

Lemma native_failure {date : DateReader} (net : Network) (domain : string)
  (port timeout : Z) :
  (forall config socket, In config TLS_CONFIGS ->
     net domain port timeout config <> Connected socket) ->
  exists reason,
    getCertificateChain net domain port timeout = Err reason
    /\ (reason = E_CONNECT \/ reason = E_TIMEOUT
        \/ exists config, In config TLS_CONFIGS
             /\ net domain port timeout config = Threw reason).
Proof.
  intros Hfail.
  destruct (tryConnect_from_fails net domain port timeout TLS_CONFIGS Hfail)
    as (reason & Hr & Horigin).
  exists reason. split; [|assumption].
  unfold getCertificateChain, tryConnect.
  change (drop 0 TLS_CONFIGS) with TLS_CONFIGS. rewrite Hr. reflexivity.
Qed.

Lemma getGM_ok {date : DateReader} (tool : Toolkit) (domain : string) (port : Z) (r : Chain.t) :
  getGMCertificateChain tool domain port = Ok r <->
  exists out,
    r = parseOpenSSLOutput tool (stdout out) (stderr out) domain port
    /\ (printed_certificate tool true domain port out
        \/ (printed_certificate tool false domain port out
            /\ ~ exists out', printed_certificate tool true domain port out')).
Proof.
  unfold getGMCertificateChain, printed_certificate.
  destruct (s_client tool true domain port) as [o1|m1] eqn:H1.
  - destruct (hasCertificate o1) eqn:Hc1.
    + rewrite Hc1. split.
      * intros [= <-]. exists o1. split; [reflexivity|]. left. split; [reflexivity|assumption].
      * intros (out & -> & [[[= <-] _]|[_ Hno]]); [reflexivity|].
        exfalso. apply Hno. exists o1. split; [reflexivity|assumption].
    + destruct (s_client tool false domain port) as [o2|m2] eqn:H2.
      * destruct (hasCertificate o2) eqn:Hc2; split.
        -- intros [= <-]. exists o2. split; [reflexivity|]. right.
           split; [split; [reflexivity|assumption]|].
           intros (out' & [= <-] & Hc). congruence.
        -- intros (out & -> & [[[= <-] Hc]|[[[= <-] _] _]]); [congruence|reflexivity].
        -- discriminate.
        -- intros (out & -> & [[[= <-] Hc]|[[[= <-] Hc] _]]); congruence.
      * split; [discriminate|].
        intros (out & -> & [[[= <-] Hc]|[[[=] _] _]]). congruence.
  - destruct (s_client tool false domain port) as [o2|m2] eqn:H2.
    + destruct (hasCertificate o2) eqn:Hc2; split.
      * intros [= <-]. exists o2. split; [reflexivity|]. right.
        split; [split; [reflexivity|assumption]|].
        intros (out' & [=] & _).
      * intros (out & -> & [[[=] _]|[[[= <-] _] _]]). reflexivity.
      * discriminate.
      * intros (out & -> & [[[=] _]|[[[= <-] Hc] _]]). congruence.
    + split; [discriminate|].
      intros (out & -> & [[[=] _]|[[[=] _] _]]).
Qed.

(** C8: when no native profile completes a handshake, the live path fails
    with a reason: the strategist's connection or timeout message, or the
    message of the exception the connection call threw.  The pipeline then
    runs the toolkit.  If the run in the national transport mode prints
    certificate data, or else the run in the generic mode does, the result
    is read from that output and carries fallback true and the reason as
    fallbackReason; the reason is not empty, unless the exception thrown had
    an empty message.  If neither run prints certificate data the request
    fails with the terminal error. *)
Theorem C8_fallback {date : DateReader} (net : Network) (tool : Toolkit)
  (domain : string) (port timeout : Z) :
  (forall config socket, In config TLS_CONFIGS ->
     net domain port timeout config <> Connected socket) ->
  exists reason,
    getCertificateChain net domain port timeout = Err reason
    /\ (reason = E_CONNECT \/ reason = E_TIMEOUT
        \/ exists config, In config TLS_CONFIGS
             /\ net domain port timeout config = Threw reason)
    /\ (reason = EmptyString ->
        exists config, In config TLS_CONFIGS
          /\ net domain port timeout config = Threw EmptyString)
    /\ (forall out, printed_certificate tool true domain port out ->
        getCertificateChainWithFallback net tool domain port timeout
        = Ok (Chain.set_fallback reason
                (parseOpenSSLOutput tool (stdout out) (stderr out) domain port)))
    /\ (forall out,
          ~ (exists out', printed_certificate tool true domain port out') ->
          printed_certificate tool false domain port out ->
          getCertificateChainWithFallback net tool domain port timeout
          = Ok (Chain.set_fallback reason
                  (parseOpenSSLOutput tool (stdout out) (stderr out) domain port)))
    /\ ((forall ntls out, ~ printed_certificate tool ntls domain port out) ->
        getCertificateChainWithFallback net tool domain port timeout = Err E_FINAL)
    /\ (forall r,
          getCertificateChainWithFallback net tool domain port timeout = Ok r ->
          Chain.fallback r = Some true /\ Chain.fallbackReason r = Some reason).
Proof.
  intros Hfail. destruct (native_failure _ _ _ _ Hfail) as (reason & Hn & Horigin).
  exists reason. split; [exact Hn|]. split; [exact Horigin|].
  split; [|unfold getCertificateChainWithFallback; rewrite Hn; repeat split].
  - intros ->. destruct Horigin as [H|[H|H]]; [discriminate | discriminate | exact H].
  - intros out Hout.
    assert (Hgm : getGMCertificateChain tool domain port
                  = Ok (parseOpenSSLOutput tool (stdout out) (stderr out) domain port)).
    { apply getGM_ok. exists out. split; [reflexivity|]. left. assumption. }
    rewrite Hgm. reflexivity.
  - intros out Hno Hout.
    assert (Hgm : getGMCertificateChain tool domain port
                  = Ok (parseOpenSSLOutput tool (stdout out) (stderr out) domain port)).
    { apply getGM_ok. exists out. split; [reflexivity|]. right. split; assumption. }
    rewrite Hgm. reflexivity.
  - intros Hno. destruct (getGMCertificateChain tool domain port) as [r|m] eqn:Hgm;
      [|reflexivity].
    apply getGM_ok in Hgm as (out & _ & [H|[H _]]); exfalso; eapply Hno; exact H.
  - destruct (getGMCertificateChain tool domain port) as [r0|m]; [|discriminate].
    injection H as <-. reflexivity.
  - destruct (getGMCertificateChain tool domain port) as [r0|m]; [|discriminate].
    injection H as <-. reflexivity.
Qed.

Lemma C8_fallback_witness :
  (exists r,
     getCertificateChainWithFallback (date := Sample.utc) Sample.unreachable
                                     Sample.goodTool "acme.example" 443 10000 = Ok r
     /\ Chain.fallback r = Some true
     /\ Chain.fallbackReason r = Some E_CONNECT)
  /\ (exists r,
        getCertificateChainWithFallback (date := Sample.utc) Inputs.ranged
                                        Sample.goodTool "acme.example" 70000 10000
        = Ok r
        /\ Chain.fallback r = Some true
        /\ Chain.fallbackReason r = Some "Port should be >= 0 and < 65536.")
  /\ getCertificateChainWithFallback (date := Sample.utc) Sample.unreachable
                                     Inputs.missing "acme.example" 443 10000
     = Err E_FINAL.
Proof.
  split; [|split].
  - destruct (C8_fallback (date := Sample.utc) Sample.unreachable Sample.goodTool
                "acme.example" 443 10000 ltac:(intros; discriminate))
      as (reason & Hn & _ & _ & Hntls & _ & _ & Hshape).
    eexists. split.
    + apply (Hntls (mkExec 0 Sample.pemA EmptyString)). split; reflexivity.
    + vm_compute in Hn. injection Hn as <-. split; reflexivity.
  - destruct (C8_fallback (date := Sample.utc) Inputs.ranged Sample.goodTool
                "acme.example" 70000 10000)
      as (reason & Hn & _ & _ & Hntls & _ & _ & Hshape).
    + intros config socket _ H. vm_compute in H. discriminate H.
    + eexists. split.
      * apply (Hntls (mkExec 0 Sample.pemA EmptyString)). split; reflexivity.
      * vm_compute in Hn. injection Hn as <-. split; reflexivity.
  - destruct (C8_fallback (date := Sample.utc) Sample.unreachable Inputs.missing
                "acme.example" 443 10000 ltac:(intros; discriminate))
      as (reason & _ & _ & _ & _ & _ & Hfinal & _).
    apply Hfinal. intros ntls out [H _]. destruct ntls; discriminate H.
Defined.

(** ** National-cryptography detection on the text path *)

Lemma isGM_of_marker (text : string) :
  Js.includes "sm2p256v1" (Js.toLowerCase text) = true
  \/ Js.includes "sm2-with-sm3" (Js.toLowerCase text) = true ->
  isGM_of text = true.
Proof.
  unfold isGM_of. intros [H|H]; rewrite H; rewrite ?orb_true_r; reflexivity.
Qed.

Lemma positioned_isGM (n i : nat) (c : Cert.t) :
  Cert.isGM (positioned n i c) = Cert.isGM c.
Proof.
  unfold positioned. destruct (i =? 0)%nat; [reflexivity|].
  destruct (i =? n - 1)%nat; reflexivity.
Qed.

(** A surviving record that carries the flag makes [hasGMCert] true. *)
Lemma hasGM_classify (parsedCerts : list (option Cert.t)) (c : Cert.t) :
  In (Some c) parsedCerts -> Cert.isGM c = Some true ->
  hasGM (classify parsedCerts) = true.
Proof.
  intros Hin Hgm. apply hasGM_true. unfold classify.
  assert (Hc : c ∈ omap id parsedCerts).
  { apply list_elem_of_omap. exists (Some c). split; [|reflexivity].
    apply list_elem_of_In. assumption. }
  apply list_elem_of_lookup in Hc as [i Hi].
  exists (positioned (length (omap id parsedCerts)) i c). split.
  - apply list_elem_of_In. apply elem_of_lookup_imap_2 with (f := positioned _).
    exact Hi.
  - rewrite positioned_isGM. exact Hgm.
Qed.

(** C10: on the text path, when the decoded text of one of the extracted
    blocks contains [sm2p256v1] or [sm2-with-sm3] anywhere (case
    insensitively), that certificate's public key is classified SM2 with 256
    bits, its GM flag is set, and the result's isGMSSL is true. *)
Theorem C10_marker_anywhere_means_sm2 {date : DateReader} (tool : Toolkit)
  (stdout stderr domain : string) (port : Z) (pem : string) (out : ExecOutput) :
  In pem (pem_blocks stdout) ->
  x509 tool pem = Ok out ->
  Js.includes "sm2p256v1" (Js.toLowerCase (TlsClient.stdout out +:+ TlsClient.stderr out)) = true
  \/ Js.includes "sm2-with-sm3" (Js.toLowerCase (TlsClient.stdout out +:+ TlsClient.stderr out)) = true ->
  exists c,
    parsePEMCertificate tool pem = Some c
    /\ PublicKey.type (Cert.publicKey c) = SM2
    /\ PublicKey.bits (Cert.publicKey c) = 256%Z
    /\ Cert.isGM c = Some true
    /\ Chain.isGMSSL (parseOpenSSLOutput tool stdout stderr domain port) = Some true.
Proof.
  intros Hpem Hout Hmark. apply isGM_of_marker in Hmark.
  assert (Hparse : parsePEMCertificate tool pem
                   = Some (parsePEMText pem (TlsClient.stdout out +:+ TlsClient.stderr out))).
  { unfold parsePEMCertificate. rewrite Hout. reflexivity. }
  eexists. split; [exact Hparse|].
  assert (Hflag : Cert.isGM (parsePEMText pem (TlsClient.stdout out +:+ TlsClient.stderr out))
                  = Some true).
  { unfold parsePEMText. cbn [Cert.isGM]. rewrite Hmark. reflexivity. }
  split; [|split; [|split; [exact Hflag|]]].
  - unfold parsePEMText. cbn [Cert.publicKey]. rewrite Hmark. reflexivity.
  - unfold parsePEMText. cbn [Cert.publicKey]. rewrite Hmark. reflexivity.
  - unfold parseOpenSSLOutput. cbn [Chain.isGMSSL].
    assert (Hin : In (Some (parsePEMText pem (TlsClient.stdout out +:+ TlsClient.stderr out)))
                     (map (parsePEMCertificate tool) (pem_blocks stdout))).
    { apply in_map_iff. exists pem. split; assumption. }
    rewrite (hasGM_classify _ _ Hin Hflag).
    rewrite !orb_true_r. reflexivity.
Qed.

Lemma C10_marker_anywhere_means_sm2_witness :
  exists c,
    parsePEMCertificate (date := Sample.utc) Sample.gmSignedTool Sample.blockA = Some c
    /\ PublicKey.type (Cert.publicKey c) = SM2
    /\ PublicKey.bits (Cert.publicKey c) = 256%Z
    /\ Cert.isGM c = Some true
    /\ Chain.isGMSSL (parseOpenSSLOutput (date := Sample.utc) Sample.gmSignedTool Sample.pemA EmptyString
                        "rsa.example" 443) = Some true.
Proof.
  apply (C10_marker_anywhere_means_sm2 Sample.gmSignedTool Sample.pemA EmptyString
           "rsa.example" 443 Sample.blockA
           (mkExec 0 Sample.rsaSignedBySm2 EmptyString)).
  - vm_compute. left. reflexivity.
  - reflexivity.
  - right. vm_compute. reflexivity.
Defined.

(** The key of that certificate is an RSA key: no SM2 key algorithm, no
    curve; the signature lines alone carry the marker. *)
Example rsaSignedBySm2_fields :
  Re.exec Re.pubKeyRe Sample.rsaSignedBySm2 = Some "rsaEncryption"
  /\ Re.exec Re.curveRe Sample.rsaSignedBySm2 = None
  /\ Re.exec Re.keySizeRe Sample.rsaSignedBySm2 = Some "2048"
  /\ Js.includes "sm2p256v1" (Js.toLowerCase Sample.rsaSignedBySm2) = false
  /\ Js.includes "sm2-with-sm3" (Js.toLowerCase Sample.rsaSignedBySm2) = true.
Proof. vm_compute. repeat split. Qed.

(** ** Subject alternative names *)

Lemma has_char_app (c : ascii) (a b : string) :
  has_char c (a +:+ b) = has_char c a || has_char c b.
Proof.
  induction a as [|d a IH]; [reflexivity|]. simpl. rewrite IH, orb_assoc.
  reflexivity.
Qed.


Lemma split_char_app (sep : ascii) (a b : string) :
  has_char sep a = false ->
  Js.split_char sep (a +:+ String sep b) = a :: Js.split_char sep b.
Proof.
  induction a as [|c a IH]; simpl; intros Ha.
  - rewrite Ascii.eqb_refl. reflexivity.
  - apply orb_false_iff in Ha as [Hc Ha]. rewrite Hc, (IH Ha). reflexivity.
Qed.

Lemma split_char_none (sep : ascii) (a : string) :
  has_char sep a = false -> Js.split_char sep a = [a].
Proof.
  induction a as [|c a IH]; simpl; intros Ha; [reflexivity|].
  apply orb_false_iff in Ha as [Hc Ha]. rewrite Hc, (IH Ha). reflexivity.
Qed.

Lemma split_comma_space_step (c : ascii) (s : string) :
  Ascii.eqb c "," = false -> Js.is_empty s = false ->
  Js.split_comma_space (String c s) = Js.cons_head c (Js.split_comma_space s).
Proof.
  intros Hc Hs. destruct s as [|d rest]; [discriminate|].
  cbn [Js.split_comma_space]. rewrite Hc. reflexivity.
Qed.


Lemma split_comma_space_none (a : string) :
  has_char "," a = false -> Js.split_comma_space a = [a].
Proof.
  induction a as [|c a IH]; intros Ha; [reflexivity|].
  simpl in Ha. apply orb_false_iff in Ha as [Hc Ha].
  destruct a as [|d rest]; [reflexivity|].
  rewrite split_comma_space_step, (IH Ha); [reflexivity | assumption | reflexivity].
Qed.

Lemma trimEnd_clean (s : string) : last_space s = false -> Js.trimEnd s = s.
Proof.
  induction s as [|c s IH]; [discriminate|]. intros Hs.
  cbn [Js.trimEnd]. destruct s as [|d s'].
  - simpl in Hs. simpl. rewrite Hs. reflexivity.
  - rewrite (IH Hs). cbn [Js.is_empty]. rewrite andb_false_r. reflexivity.
Qed.

Lemma trimStart_clean (s : string) : first_space s = false -> Js.trimStart s = s.
Proof. destruct s as [|c s]; [discriminate|]. simpl. intros ->. reflexivity. Qed.

Lemma clean_parts (s : string) :
  clean s = true -> first_space s = false /\ last_space s = false.
Proof.
  unfold clean. rewrite andb_true_iff, !negb_true_iff. tauto.
Qed.

Lemma trim_clean (s : string) : clean s = true -> Js.trim s = s.
Proof.
  intros [Hf Hl]%clean_parts. unfold Js.trim.
  rewrite (trimStart_clean _ Hf). apply trimEnd_clean. assumption.
Qed.


Lemma clean_nonempty (s : string) : clean s = true -> Js.is_empty s = false.
Proof. destruct s; [discriminate | reflexivity]. Qed.



Lemma last_space_app (a b : string) :
  Js.is_empty b = false -> last_space (a +:+ b) = last_space b.
Proof.
  intros Hb. induction a as [|c a IH]; [reflexivity|].
  change (String c a +:+ b) with (String c (a +:+ b)). cbn [last_space].
  destruct (a +:+ b) eqn:Hab; [|exact IH].
  destruct a; [change (EmptyString +:+ b) with b in Hab; subst b|]; discriminate.
Qed.

Lemma plain_no_comma (e : SanEntry) :
  plain e = true -> has_char "," (render e) = false.
Proof.
  destruct e as [n|k v]; unfold plain, render; cbn [kind_of value_of];
    rewrite !andb_true_iff, !negb_true_iff; intros H;
    rewrite !has_char_app; simpl.
  - destruct H as [[-> _] _]. reflexivity.
  - destruct H as [[[[[-> _] ->] _] _] _]. reflexivity.
Qed.

Lemma dns_clean (n : string) : clean n = true -> clean (render (DnsName n)) = true.
Proof.
  intros Hn. pose proof (clean_nonempty _ Hn) as Hne.
  apply clean_parts in Hn as [_ Hl]. unfold clean, render. cbn [kind_of value_of].
  change ("DNS" +:+ ":" +:+ n) with ("DNS:" +:+ n).
  rewrite (last_space_app "DNS:" n Hne), Hl. reflexivity.
Qed.

Lemma plain_clean (e : SanEntry) : plain e = true -> clean (render e) = true.
Proof.
  destruct e as [n|k v]; unfold plain; rewrite !andb_true_iff; [|tauto].
  intros [_ Hn]. apply dns_clean. assumption.
Qed.


Lemma plain_printed (e : SanEntry) : plain e = true -> printed e = true.
Proof.
  intros He. unfold printed.
  rewrite (plain_no_comma _ He), (plain_clean _ He). cbn [negb andb].
  destruct e as [n|k v]; unfold plain in He; rewrite !andb_true_iff in He; tauto.
Qed.














(** * Further properties *)

(** ** The order of the compatibility profiles *)

Lemma tryConnect_from_ok (net : Network) (domain : string) (port timeout : Z)
  (configs : list TlsConfig.t) (socket : Socket.t) :
  tryConnect_from net domain port timeout configs = Ok socket <->
  exists i config,
    configs !! i = Some config
    /\ net domain port timeout config = Connected socket
    /\ earlier_failed net domain port timeout configs i.
Proof.
  induction configs as [|c configs IH]; simpl.
  - split; [discriminate | intros (i & config & H & _); destruct i; discriminate].
  - destruct (net domain port timeout c) as [s| | |m] eqn:Hc.
    + split.
      * intros [= <-]. exists 0%nat, c. repeat split; [assumption|].
        intros j cj Hj. lia.
      * intros (i & config & Hi & Hconn & Hearlier). destruct i as [|i].
        -- injection Hi as <-. congruence.
        -- specialize (Hearlier 0%nat c ltac:(lia) eq_refl). congruence.
    + rewrite IH. split.
      * intros (i & config & Hi & Hconn & Hearlier). exists (S i), config.
        repeat split; [assumption..|]. intros [|j] cj Hj Hcj.
        -- injection Hcj as <-. assumption.
        -- apply (Hearlier j cj); [lia | assumption].
      * intros (i & config & Hi & Hconn & Hearlier). destruct i as [|i].
        -- injection Hi as <-. congruence.
        -- exists i, config. repeat split; [assumption..|].
           intros j cj Hj Hcj. apply (Hearlier (S j) cj); [lia | assumption].
    + split; [discriminate|].
      intros (i & config & Hi & Hconn & Hearlier). destruct i as [|i].
      * injection Hi as <-. congruence.
      * specialize (Hearlier 0%nat c ltac:(lia) eq_refl). congruence.
    + split; [discriminate|];
      intros (i & config & Hi & Hconn & Hearlier); destruct i as [|i];
      [injection Hi as <-; congruence
      |specialize (Hearlier 0%nat c ltac:(lia) eq_refl); congruence].
Qed.

Lemma tryConnect_from_err (net : Network) (domain : string) (port timeout : Z)
  (configs : list TlsConfig.t) (message : string) :
  tryConnect_from net domain port timeout configs = Err message <->
  (Forall (fun config => net domain port timeout config = Failed) configs
   /\ message = E_CONNECT)
  \/ exists i config,
       configs !! i = Some config
       /\ earlier_failed net domain port timeout configs i
       /\ ((net domain port timeout config = TimedOut /\ message = E_TIMEOUT)
           \/ net domain port timeout config = Threw message).
Proof.
  induction configs as [|c configs IH]; cbn [tryConnect_from].
  - split.
    + intros [= <-]. left. split; [constructor | reflexivity].
    + intros [[_ ->]|(i & config & H & _)]; [reflexivity | destruct i; discriminate].
  - assert (Hhead : forall i config,
              (c :: configs) !! i = Some config ->
              earlier_failed net domain port timeout (c :: configs) i ->
              net domain port timeout c <> Failed -> i = 0%nat /\ config = c).
    { intros [|i] config Hi Hearlier Hc.
      - injection Hi as <-. split; reflexivity.
      - exfalso. apply Hc. apply (Hearlier 0%nat c); [lia | reflexivity]. }
    destruct (net domain port timeout c) as [s| | |m] eqn:Hc.
    + split; [discriminate|].
      intros [[H _]|(i & config & Hi & Hearlier & Hend)].
      * inversion H; congruence.
      * destruct (Hhead i config Hi Hearlier) as [-> ->]; [discriminate|].
        destruct Hend as [[H _]|H]; congruence.
    + clear Hhead. rewrite IH. split.
      * intros [[H ->]|(i & config & Hi & Hearlier & Hend)].
        -- left. split; [constructor; assumption | reflexivity].
        -- right. exists (S i), config. split; [assumption|]. split; [|assumption].
           intros [|j] cj Hj Hcj.
           ++ injection Hcj as <-. assumption.
           ++ apply (Hearlier j cj); [lia | assumption].
      * intros [[H ->]|(i & config & Hi & Hearlier & Hend)].
        -- left. split; [inversion H; assumption | reflexivity].
        -- destruct i as [|i].
           ++ injection Hi as <-. destruct Hend as [[H _]|H]; congruence.
           ++ right. exists i, config. split; [assumption|]. split; [|assumption].
              intros j cj Hj Hcj. apply (Hearlier (S j) cj); [lia | assumption].
    + split.
      * intros [= <-]. right. exists 0%nat, c. split; [reflexivity|].
        split; [intros j cj Hj; lia|]. left. split; [assumption | reflexivity].
      * intros [[H _]|(i & config & Hi & Hearlier & Hend)].
        -- inversion H; congruence.
        -- destruct (Hhead i config Hi Hearlier) as [-> ->]; [discriminate|].
           destruct Hend as [[_ ->]|H]; [reflexivity | congruence].
    + split.
      * intros [= <-]. right. exists 0%nat, c. split; [reflexivity|].
        split; [intros j cj Hj; lia|]. right. assumption.
      * intros [[H _]|(i & config & Hi & Hearlier & Hend)].
        -- inversion H; congruence.
        -- destruct (Hhead i config Hi Hearlier) as [-> ->]; [discriminate|].
           destruct Hend as [[H _]|H]; [congruence|].
           rewrite Hc in H. injection H as ->. reflexivity.
Qed.

(** X1: the strategist returns the session of the first profile, in the
    order of the list, whose handshake completes, and it does so exactly
    when every profile before that one ended in a handshake error. *)
Theorem tryConnect_first_success (net : Network) (domain : string)
  (port timeout : Z) (socket : Socket.t) :
  tryConnect net domain port timeout 0 = Ok socket <->
  exists i config,
    TLS_CONFIGS !! i = Some config
    /\ net domain port timeout config = Connected socket
    /\ earlier_failed net domain port timeout TLS_CONFIGS i.
Proof. apply tryConnect_from_ok. Qed.

(** X2: the strategist fails in three ways and no other: with its
    connection message when all three profiles end in a handshake error;
    with its timeout message when the first profile that does not end in a
    handshake error exceeds the timeout; and with the message of the
    exception when the connection call of that profile throws, as the
    platform does for a port outside 0..65535. *)
Theorem tryConnect_errors (net : Network) (domain : string) (port timeout : Z)
  (message : string) :
  tryConnect net domain port timeout 0 = Err message <->
  ((forall config, In config TLS_CONFIGS ->
      net domain port timeout config = Failed)
   /\ message = E_CONNECT)
  \/ exists i config,
       TLS_CONFIGS !! i = Some config
       /\ earlier_failed net domain port timeout TLS_CONFIGS i
       /\ ((net domain port timeout config = TimedOut /\ message = E_TIMEOUT)
           \/ net domain port timeout config = Threw message).
Proof.
  unfold tryConnect. change (drop 0 TLS_CONFIGS) with TLS_CONFIGS.
  rewrite tryConnect_from_err, Forall_forall.
  split; (intros [[H Hm]|H]; [left; split; [|exact Hm] | right; exact H]);
    intros config Hin; apply H; apply list_elem_of_In; assumption.
Qed.

(** ** The live path's result *)

Lemma markSelfSigned_fingerprints (b : bool) (l : list Cert.t) :
  map Cert.fingerprint256 (markSelfSigned b l) = map Cert.fingerprint256 l.
Proof. destruct l as [|c l]; [reflexivity|]. destruct b; reflexivity. Qed.

(** X3: a result of the live path has at least one and at most eleven
    certificates, and they are those of certificate objects with pairwise
    different fingerprint256: none is collected twice. *)
Theorem live_chain_bounds {date : DateReader} (net : Network) (domain : string) (port timeout : Z)
  (r : Chain.t) :
  getCertificateChain net domain port timeout = Ok r ->
  (1 <= length (Chain.certificates r) <= 11)%nat
  /\ exists visited : list Peer.t,
       NoDup (map Peer.fingerprint256 visited)
       /\ map Cert.fingerprint256 (Chain.certificates r)
          = map (fun c => Js.or_else (Peer.fingerprint256 c) EmptyString) visited.
Proof.
  intros H. apply live_result in H as (socket & collected & _ & [c Hc] & Hw & ->).
  cbn [Chain.certificates]. rewrite markSelfSigned_length, markSelfSigned_fingerprints.
  split.
  - pose proof (walk_length_from _ _ _ _ [] _ ltac:(simpl; lia) Hw) as Hlen.
    apply (walk_first_leaf _ _ _ c) in Hw as (rest & -> & _); [|assumption].
    simpl in *. lia.
  - eapply walk_never_revisits. eassumption.
Qed.

Lemma live_chain_bounds_witness :
  exists r,
    getCertificateChain (date := Sample.utc) (Sample.always (Sample.session Sample.cycle))
                        "cycle.example" 443 10000 = Ok r
    /\ (1 <= length (Chain.certificates r) <= 11)%nat.
Proof.
  destruct (getCertificateChain (date := Sample.utc) (Sample.always (Sample.session Sample.cycle))
                                "cycle.example" 443 10000) as [r|m] eqn:H;
    [|vm_compute in H; discriminate].
  exists r. split; [reflexivity|]. apply (live_chain_bounds _ _ _ _ _ H).
Defined.

(** ** The pipeline and the toolkit's transport modes *)


(** X4: a result of the toolkit path is read from the output of the
    national transport mode whenever that run printed certificate data, and
    from the output of the generic mode only when the national run failed or
    printed none. *)
Theorem toolkit_prefers_national_mode {date : DateReader} (tool : Toolkit) (domain : string)
  (port : Z) (r : Chain.t) :
  getGMCertificateChain tool domain port = Ok r ->
  exists out,
    r = parseOpenSSLOutput tool (stdout out) (stderr out) domain port
    /\ (printed_certificate tool true domain port out
        \/ (printed_certificate tool false domain port out
            /\ ~ exists out', printed_certificate tool true domain port out')).
Proof. apply getGM_ok. Qed.

Lemma toolkit_prefers_national_mode_witness :
  exists r out,
    getGMCertificateChain (date := Sample.utc) Sample.goodTool "acme.example" 443 = Ok r
    /\ r = parseOpenSSLOutput (date := Sample.utc) Sample.goodTool (stdout out) (stderr out)
             "acme.example" 443
    /\ printed_certificate Sample.goodTool true "acme.example" 443 out.
Proof.
  destruct (getGMCertificateChain (date := Sample.utc) Sample.goodTool "acme.example" 443) as [r|m] eqn:H;
    [|vm_compute in H; discriminate].
  destruct (toolkit_prefers_national_mode _ _ _ _ H) as (out & Hr & [Hn|[_ Hno]]).
  - exists r, out. split; [reflexivity|]. split; assumption.
  - exfalso. apply Hno. eexists. split; [reflexivity|]. vm_compute. reflexivity.
Defined.

(** X5: a result of the pipeline tells which path produced it: either it is
    the live path's result, with no fallback and no fallbackReason, or the
    live path failed and the result has fallback true, the live path's
    message as fallbackReason, isValid true and no error. *)
Theorem pipeline_provenance {date : DateReader} (net : Network) (tool : Toolkit) (domain : string)
  (port timeout : Z) (r : Chain.t) :
  getCertificateChainWithFallback net tool domain port timeout = Ok r ->
  (getCertificateChain net domain port timeout = Ok r
   /\ Chain.fallback r = None /\ Chain.fallbackReason r = None)
  \/ (exists message,
        getCertificateChain net domain port timeout = Err message
        /\ Chain.fallback r = Some true
        /\ Chain.fallbackReason r = Some message
        /\ Chain.isValid r = true
        /\ Chain.error r = None).
Proof.
  intros H. apply pipeline_result in H as [H|(m & so & se & Hn & ->)].
  - left. split; [assumption|].
    apply live_result in H as (socket & collected & _ & _ & _ & ->).
    split; reflexivity.
  - right. exists m. repeat split. assumption.
Qed.

Lemma pipeline_provenance_witness :
  exists r,
    getCertificateChainWithFallback (date := Sample.utc) Sample.unreachable Sample.goodTool
                                    "acme.example" 443 10000 = Ok r
    /\ Chain.fallback r = Some true /\ Chain.isValid r = true.
Proof.
  destruct (getCertificateChainWithFallback (date := Sample.utc) Sample.unreachable Sample.goodTool
              "acme.example" 443 10000) as [r|m] eqn:H;
    [|vm_compute in H; discriminate].
  exists r. split; [reflexivity|].
  destruct (pipeline_provenance _ _ _ _ _ _ H)
    as [(Hn & _)|(message & _ & Hf & _ & Hv & _)].
  - vm_compute in Hn. discriminate.
  - split; assumption.
Defined.

(** X6: the pipeline fails exactly when the live path fails and neither
    transport mode of the toolkit prints certificate data, and its error is
    then always the same message: neither the live path's nor the toolkit's
    own message reaches the caller. *)
Theorem pipeline_failure {date : DateReader} (net : Network) (tool : Toolkit) (domain : string)
  (port timeout : Z) :
  (forall message,
     getCertificateChainWithFallback net tool domain port timeout = Err message ->
     message = E_FINAL)
  /\ ((exists message,
         getCertificateChainWithFallback net tool domain port timeout = Err message)
      <-> (exists message, getCertificateChain net domain port timeout = Err message)
          /\ (forall ntls out, ~ printed_certificate tool ntls domain port out)).
Proof.
  assert (Hgm : (exists m, getGMCertificateChain tool domain port = Err m)
                <-> forall ntls out, ~ printed_certificate tool ntls domain port out).
  { split.
    - intros [m Hm] ntls out Hp.
      assert (Hok : exists r, getGMCertificateChain tool domain port = Ok r).
      { destruct ntls.
        - eexists. apply getGM_ok. exists out. split; [reflexivity|]. left. assumption.
        - destruct (s_client tool true domain port) as [o1|m1] eqn:H1.
          + destruct (hasCertificate o1) eqn:Hc1.
            * eexists. apply getGM_ok. exists o1. split; [reflexivity|]. left.
              split; assumption.
            * eexists. apply getGM_ok. exists out. split; [reflexivity|]. right.
              split; [assumption|]. intros (o' & Ho' & Hc'). congruence.
          + eexists. apply getGM_ok. exists out. split; [reflexivity|]. right.
            split; [assumption|]. intros (o' & Ho' & Hc'). congruence. }
      destruct Hok as [r Hr]. congruence.
    - intros Hno. destruct (getGMCertificateChain tool domain port) as [r|m] eqn:H;
        [|eauto].
      apply getGM_ok in H as (out & _ & [Hp|[Hp _]]); exfalso; eapply Hno; eassumption. }
  unfold getCertificateChainWithFallback.
  destruct (getCertificateChain net domain port timeout) as [r|m].
  - split; [discriminate|]. split; [intros [? [=]] | intros [[? [=]] _]].
  - destruct (getGMCertificateChain tool domain port) as [r|m'] eqn:H.
    + split; [discriminate|]. split; [intros [? [=]]|].
      intros [_ Hno]. apply Hgm in Hno as [? [=]].
    + split; [intros ? [= <-]; reflexivity|]. split; [|eauto].
      intros _. split; [eauto|]. apply Hgm. eauto.
Qed.

(** ** The toolkit path's result *)

Lemma or_else_nonempty (o : option string) (d : string) :
  d <> EmptyString -> Js.or_else o d <> EmptyString.
Proof.
  intros Hd. unfold Js.or_else. destruct o as [s|]; [|assumption].
  destruct s; [assumption | discriminate].
Qed.

(** X7: a result of the toolkit path always has isValid true and no error;
    its protocol and its cipher name are never empty, and when neither
    stream of the toolkit has a protocol line the protocol is GMTLS if the
    result is flagged national cryptography and TLS otherwise. *)
Theorem text_result_defaults {date : DateReader} (tool : Toolkit) (stdout stderr domain : string)
  (port : Z) :
  let r := parseOpenSSLOutput tool stdout stderr domain port in
  Chain.isValid r = true
  /\ Chain.error r = None
  /\ (exists protocol, Chain.protocol r = Some protocol /\ protocol <> EmptyString)
  /\ Cipher.name (Chain.cipher r) <> EmptyString
  /\ (Re.exec Re.protocolRe stderr = None ->
      Re.exec Re.protocolRe stdout = None ->
      Chain.protocol r
      = Some (if default false (Chain.isGMSSL r) then "GMTLS" else "TLS")).
Proof.
  intros r. subst r. unfold parseOpenSSLOutput.
  cbn [Chain.isValid Chain.error Chain.protocol Chain.cipher Chain.isGMSSL Cipher.name].
  split; [reflexivity|]. split; [reflexivity|]. split; [|split].
  - eexists. split; [reflexivity|]. apply or_else_nonempty.
    destruct (_ || _); discriminate.
  - apply or_else_nonempty. discriminate.
  - intros -> ->. reflexivity.
Qed.

Lemma rawPEM_imap (l : list Cert.t) :
  forall f : nat -> Cert.t -> Cert.t,
    (forall i c, Cert.rawPEM (f i c) = Cert.rawPEM c) ->
    map Cert.rawPEM (imap f l) = map Cert.rawPEM l.
Proof.
  induction l as [|c l IH]; intros f Hf; [reflexivity|].
  cbn [imap map]. rewrite Hf. f_equal. apply IH. intros i c'. apply Hf.
Qed.

Lemma rawPEM_positioned (n i : nat) (c : Cert.t) :
  Cert.rawPEM (positioned n i c) = Cert.rawPEM c.
Proof.
  unfold positioned. destruct (i =? 0)%nat; [reflexivity|].
  destruct (i =? n - 1)%nat; reflexivity.
Qed.

Lemma rawPEM_markSelfSigned (b : bool) (l : list Cert.t) :
  map Cert.rawPEM (markSelfSigned b l) = map Cert.rawPEM l.
Proof. destruct l as [|c l]; [reflexivity|]. destruct b; reflexivity. Qed.

Lemma rawPEM_survivors {date : DateReader} (tool : Toolkit) (blocks : list string) :
  map Cert.rawPEM (omap id (map (parsePEMCertificate tool) blocks))
  = map Some (filter (fun pem => answered tool pem = true) blocks).
Proof.
  induction blocks as [|pem blocks IH]; [reflexivity|].
  cbn [map]. unfold parsePEMCertificate at 1.
  destruct (x509 tool pem) as [out|m] eqn:Hx.
  - rewrite filter_cons_True by (unfold answered; rewrite Hx; reflexivity).
    change (omap id (Some (parsePEMText pem (stdout out +:+ stderr out))
                     :: map (parsePEMCertificate tool) blocks))
      with (parsePEMText pem (stdout out +:+ stderr out)
            :: omap id (map (parsePEMCertificate tool) blocks)).
    cbn [map]. f_equal. exact IH.
  - rewrite filter_cons_False by (unfold answered; rewrite Hx; discriminate).
    exact IH.
Qed.

Lemma markSelfSigned_entry (b : bool) (l : list Cert.t) (c : Cert.t) :
  In c (markSelfSigned b l) ->
  exists c', In c' l /\ (c = c' \/ c = Cert.set_type self_signed "自签名证书" c').
Proof.
  destruct l as [|c0 l]; [intros []|]. destruct b; cbn [markSelfSigned].
  - intros [<-|H].
    + exists c0. split; [left; reflexivity | right; reflexivity].
    + exists c. split; [right; assumption | left; reflexivity].
  - intros H. exists c. split; [assumption | left; reflexivity].
Qed.

Lemma positioned_entry (n i : nat) (c : Cert.t) :
  exists ty tn, positioned n i c = Cert.set_type ty tn c.
Proof.
  unfold positioned. destruct (i =? 0)%nat; [eexists _, _; reflexivity|].
  destruct (i =? n - 1)%nat; eexists _, _; reflexivity.
Qed.

(** X8: the certificates of a toolkit-path result are the PEM blocks of the
    toolkit's output on which the x509 run came to an end, whatever its exit
    code and whatever it printed, in the order in which they were printed;
    each record keeps its block as rawPEM and is, up to its type and
    typeName, what the text path reads in the standard output and the error
    output of that run.  Only a block whose run timed out or could not be
    started leaves no entry, so the chain is never longer than the list of
    blocks; a block that the toolkit could not decode has an entry like any
    other. *)
Theorem text_chain_order {date : DateReader} (tool : Toolkit) (stdout stderr domain : string)
  (port : Z) :
  let r := parseOpenSSLOutput tool stdout stderr domain port in
  map Cert.rawPEM (Chain.certificates r)
  = map Some (filter (fun pem => answered tool pem = true) (pem_blocks stdout))
  /\ (length (Chain.certificates r) <= length (pem_blocks stdout))%nat
  /\ (forall c, In c (Chain.certificates r) ->
      exists pem out ty tn,
        In pem (pem_blocks stdout)
        /\ x509 tool pem = Ok out
        /\ c = Cert.set_type ty tn
                 (parsePEMText pem (TlsClient.stdout out +:+ TlsClient.stderr out))).
Proof.
  intros r. subst r. unfold parseOpenSSLOutput. cbn [Chain.certificates].
  assert (H : map Cert.rawPEM
                (markSelfSigned
                   (selfSigned (classify (map (parsePEMCertificate tool) (pem_blocks stdout))))
                   (classify (map (parsePEMCertificate tool) (pem_blocks stdout))))
              = map Some (filter (fun pem => answered tool pem = true) (pem_blocks stdout))).
  { rewrite rawPEM_markSelfSigned. unfold classify.
    rewrite rawPEM_imap by (intros; apply rawPEM_positioned).
    apply rawPEM_survivors. }
  split; [exact H|]. split.
  2:{ intros c (c' & Hc' & Hc)%markSelfSigned_entry. unfold classify in Hc'.
      apply list_elem_of_In, elem_of_lookup_imap_1 in Hc' as (i & x & -> & Hx).
      apply list_elem_of_lookup_2, list_elem_of_omap in Hx as (o & Ho & Hid).
      unfold id in Hid. subst o.
      apply list_elem_of_In, in_map_iff in Ho as (pem & Hpem & Hin).
      unfold parsePEMCertificate in Hpem.
      destruct (x509 tool pem) as [out|m] eqn:Hout; [|discriminate].
      injection Hpem as <-.
      destruct (positioned_entry
                  (length (omap id (map (parsePEMCertificate tool) (pem_blocks stdout))))
                  i (parsePEMText pem (TlsClient.stdout out +:+ TlsClient.stderr out)))
        as (ty & tn & Hpos).
      exists pem, out. destruct Hc as [-> | ->].
      - exists ty, tn. split; [assumption|]. split; [exact Hout | exact Hpos].
      - exists self_signed, "自签名证书". split; [assumption|].
        split; [exact Hout|]. rewrite Hpos. reflexivity. }
  apply (f_equal (@length _)) in H. rewrite !length_map in H. rewrite H.
  apply length_filter.
Qed.

Lemma text_chain_order_witness :
  exists c,
    Chain.certificates
      (parseOpenSSLOutput (date := Sample.utc) Inputs.undecodable Sample.pemA
                          EmptyString "undecodable.example" 443) = [c]
    /\ Cert.rawPEM c = Some Sample.blockA
    /\ Subject.commonName (Cert.subject c) = Some (Attr.Text "Unknown")
    /\ PublicKey.type (Cert.publicKey c) = RSA
    /\ Cert.bits c = 2048%Z
    /\ Level.level (Cert.validationLevel c) = DV.
Proof.
  destruct (text_chain_order (date := Sample.utc) Inputs.undecodable Sample.pemA
              EmptyString "undecodable.example" 443) as (Hraw & _ & _).
  destruct (Chain.certificates
              (parseOpenSSLOutput (date := Sample.utc) Inputs.undecodable Sample.pemA
                                  EmptyString "undecodable.example" 443))
    as [|c [|c' l]] eqn:Hc; try (vm_compute in Hc; discriminate).
  exists c. split; [reflexivity|]. split.
  - cbn [map] in Hraw.
    match type of Hraw with
    | _ = ?blocks =>
        assert (Hblocks : blocks = [Some Sample.blockA]) by (vm_compute; reflexivity)
    end.
    rewrite Hblocks in Hraw. injection Hraw as Hraw. exact Hraw.
  - vm_compute in Hc. injection Hc as <-. repeat split.
Defined.

(** ** The walk of a well-formed chain *)

Lemma entry_fingerprint {date : DateReader} (store : list Peer.t)
  (cert : option nat) (c : Peer.t) (n : nat) :
  Cert.fingerprint256 (entry store cert c n (parsed c))
  = Js.or_else (Peer.fingerprint256 c) EmptyString.
Proof.
  unfold entry. destruct (n =? 0)%nat; [reflexivity|].
  destruct (_ || _); reflexivity.
Qed.

Lemma entries_from_fingerprints {date : DateReader} (store : list Peer.t) (rest : list Peer.t) :
  forall k,
    map Cert.fingerprint256 (entries_from store k rest)
    = map (fun c => Js.or_else (Peer.fingerprint256 c) EmptyString) rest.
Proof.
  induction rest as [|c rest IH]; intros k; [reflexivity|].
  cbn [entries_from map]. rewrite entry_fingerprint, IH. reflexivity.
Qed.

Lemma drop_cons_inv {A} (l : list A) (k : nat) (x : A) (rest : list A) :
  drop k l = x :: rest -> l !! k = Some x /\ drop (S k) l = rest.
Proof.
  intros H. assert (Hk : l !! k = Some x).
  { rewrite <- (Nat.add_0_r k), <- lookup_drop, H. reflexivity. }
  split; [assumption|]. rewrite (drop_S _ _ _ Hk) in H. congruence.
Qed.

Lemma parseCertificate_undated {date : DateReader} (c : Peer.t) :
  ~ dated c -> CertParser.parseCertificate c = Err CertParser.E_INVALID_TIME.
Proof. intros H. apply parseCertificate_err. split; [assumption | reflexivity]. Qed.

Section Chained.

Context {date : DateReader}.
Variable store : list Peer.t.
Hypothesis Hchained : chained store.
Hypothesis Hdistinct : NoDup (map Peer.fingerprint256 store).
Hypothesis Hshort : (length store <= 11)%nat.

Lemma chained_fresh (k : nat) (c : Peer.t) :
  store !! k = Some c ->
  Peer.fingerprint256 c ∉ map Peer.fingerprint256 (take k store).
Proof using Hdistinct.
  intros Hk. pose proof Hdistinct as Hnd.
  rewrite <- (take_drop k store), (drop_S _ _ _ Hk), map_app in Hnd.
  apply NoDup_app in Hnd as (_ & Hdisj & _).
  intros Hin. apply (Hdisj _ Hin). cbn [map]. apply elem_of_cons. left. reflexivity.
Qed.

(** The walk of the chain from its [k]-th certificate: it collects the
    rest of the chain when every date there is readable, and ends with the
    range error otherwise. *)
Lemma walk_chained (rest : list Peer.t) :
  forall (k : nat) (acc : list Cert.t) (seen : gset (option string)) (fuel : nat),
    drop k store = rest ->
    length acc = k ->
    (forall x, x ∈ seen <-> x ∈ map Peer.fingerprint256 (take k store)) ->
    (length rest <= fuel)%nat ->
    (Forall dated rest ->
     walk fuel store (Some k) seen acc = Some (Ok (acc ++ entries_from store k rest)))
    /\ (~ Forall dated rest ->
        walk fuel store (Some k) seen acc = Some (Err CertParser.E_INVALID_TIME)).
Proof using Hchained Hdistinct Hshort.
  induction rest as [|c rest IH]; intros k acc seen fuel Hdrop Hacc Hseen Hfuel.
  - split; [|intros H; exfalso; apply H; constructor]. intros _.
    rewrite app_nil_r. apply walk_stop_absent. cbn [deref].
    apply lookup_ge_None. apply drop_nil_inv in Hdrop.
    assumption.
  - pose proof Hdrop as Hdrop0. apply drop_cons_inv in Hdrop as [Hk Hdrop].
    assert (Hlen : (k < length store)%nat) by (eapply lookup_lt_Some; eassumption).
    assert (Hrest : length rest = (length store - S k)%nat).
    { apply (f_equal (@length _)) in Hdrop. rewrite length_drop in Hdrop.
      symmetry. exact Hdrop. }
    clear Hdrop.
    destruct fuel as [|fuel]; [simpl in Hfuel; lia|].
    assert (Hfresh : Peer.fingerprint256 c ∉ seen).
    { rewrite Hseen. apply chained_fresh. assumption. }
    rewrite (walk_step _ _ _ _ _ c) by assumption.
    destruct (dated_dec c) as [Hc|Hc].
    2:{ rewrite (parseCertificate_undated c Hc).
        split; [|reflexivity]. intros H. inversion H. contradiction. }
    rewrite (parseCertificate_dated c Hc).
    assert (Htail : Forall dated (c :: rest) <-> Forall dated rest).
    { split; [intros H; inversion H; assumption | intros H; constructor; assumption]. }
    rewrite Htail. rewrite Hacc. cbn [entries_from].
    destruct (10 <? length (acc ++ [entry store (Some k) c k (parsed c)]))%nat eqn:Hcap.
    + apply Nat.ltb_lt in Hcap. rewrite length_app in Hcap. cbn [length] in Hcap.
      assert (Hnil : rest = []) by (apply length_zero_iff_nil; lia).
      rewrite Hnil. split; [reflexivity|]. intros H. exfalso. apply H. constructor.
    + pose proof (Hchained k c Hk) as Hissuer.
      destruct (S k <? length store)%nat eqn:Hnext.
      * rewrite Hissuer. apply Nat.ltb_lt in Hnext.
        destruct (IH (S k) (acc ++ [entry store (Some k) c k (parsed c)])
                     ({[Peer.fingerprint256 c]} ∪ seen) fuel) as [IHok IHerr].
        -- apply drop_cons_inv with (x := c). rewrite <- Hdrop0. reflexivity.
        -- rewrite length_app. cbn [length]. lia.
        -- intros x. rewrite (take_S_r _ _ _ Hk), map_app. cbn [map].
           rewrite elem_of_app, list_elem_of_singleton, <- Hseen.
           rewrite elem_of_union, elem_of_singleton. tauto.
        -- simpl in Hfuel. lia.
        -- split; [|exact IHerr]. intros H. rewrite (IHok H), <- app_assoc.
           reflexivity.
      * apply Nat.ltb_ge in Hnext.
        assert (Hnil : rest = []) by (apply length_zero_iff_nil; lia).
        rewrite Hnil. cbn [entries_from].
        split; [|intros H; exfalso; apply H; constructor]. intros _.
        destruct Hissuer as [-> | ->].
        -- apply walk_stop_absent. reflexivity.
        -- apply (walk_stop_seen _ _ _ _ _ c); [assumption|].
           apply elem_of_union_l, elem_of_singleton. reflexivity.
Qed.

Lemma entries_from_types (rest : list Peer.t) :
  forall (k : nat) (c : Peer.t),
    k <> 0%nat ->
    drop k store = c :: rest ->
    map Cert.type (entries_from store k (c :: rest))
    = replicate (length rest) (Some intermediate) ++ [Some root].
Proof using Hchained.
  clear Hshort Hdistinct.
  induction rest as [|c' rest IH]; intros k c Hk Hdrop.
  - apply drop_cons_inv in Hdrop as [Hc Hdrop].
    pose proof (Hchained k c Hc) as Hissuer.
    assert (Hlast : (S k <? length store)%nat = false).
    { apply Nat.ltb_ge.
      apply (f_equal (@length _)) in Hdrop. rewrite length_drop in Hdrop.
      simpl in Hdrop. lia. }
    rewrite Hlast in Hissuer. cbn [entries_from map replicate length app].
    unfold entry. apply Nat.eqb_neq in Hk. rewrite Hk.
    destruct Hissuer as [-> | ->].
    + cbn [deref is_none]. rewrite orb_true_r. reflexivity.
    + rewrite bool_decide_eq_true_2 by reflexivity. reflexivity.
  - apply drop_cons_inv in Hdrop as [Hc Hdrop].
    pose proof (Hchained k c Hc) as Hissuer.
    pose proof (drop_cons_inv _ _ _ _ Hdrop) as [Hc' _].
    assert (Hnext : (S k <? length store)%nat = true).
    { apply Nat.ltb_lt. eapply lookup_lt_Some. eassumption. }
    rewrite Hnext in Hissuer.
    change (entries_from store k (c :: c' :: rest))
      with (entry store (Some k) c k (parsed c)
            :: entries_from store (S k) (c' :: rest)).
    cbn [map length replicate app]. rewrite (IH (S k) c') by (lia || assumption).
    f_equal. unfold entry. pose proof Hk as Hk'. apply Nat.eqb_neq in Hk'. rewrite Hk'.
    rewrite Hissuer. rewrite bool_decide_eq_false_2 by (intros [=]; lia).
    cbn [deref]. rewrite Hc'. reflexivity.
Qed.

End Chained.

(** X9: when the session's certificate objects form one chain of at least
    two and at most eleven certificates with different fingerprints, each
    issued by the next and the last without issuer or its own issuer, the
    live path, if the validity dates of all of them are readable or absent,
    returns them all, in that order: the first as leaf, the last as root,
    the others as intermediate, and the result is not self-signed.  If a
    validity date of one of them is not readable, the live path fails with
    the platform's range error. *)
Theorem live_chain_in_order {date : DateReader} (net : Network) (domain : string)
  (port timeout : Z) (socket : Socket.t) :
  tryConnect net domain port timeout 0 = Ok socket ->
  Socket.peerCertificate socket = Some 0%nat ->
  chained (Socket.store socket) ->
  NoDup (map Peer.fingerprint256 (Socket.store socket)) ->
  (2 <= length (Socket.store socket) <= 11)%nat ->
  (Forall dated (Socket.store socket) ->
   exists r,
     getCertificateChain net domain port timeout = Ok r
     /\ map Cert.fingerprint256 (Chain.certificates r)
        = map (fun c => Js.or_else (Peer.fingerprint256 c) EmptyString)
              (Socket.store socket)
     /\ map Cert.type (Chain.certificates r)
        = Some leaf
          :: replicate (length (Socket.store socket) - 2) (Some intermediate)
          ++ [Some root]
     /\ Chain.isSelfSigned r = false)
  /\ (~ Forall dated (Socket.store socket) ->
      getCertificateChain net domain port timeout
      = Err CertParser.E_INVALID_TIME).
Proof.
  intros Hs Hpeer Hch Hnd [Hlo Hhi].
  destruct (Socket.store socket) as [|c0 [|c1 rest]] eqn:Hstore;
    [simpl in Hlo; lia | simpl in Hlo; lia |].
  destruct (walk_chained (c0 :: c1 :: rest) Hch Hnd Hhi (c0 :: c1 :: rest) 0 [] ∅
              WALK_FUEL) as [Hok Herr];
    [reflexivity | reflexivity | | exact Hhi |].
  { intros x. cbn [take map]. rewrite elem_of_nil. apply elem_of_empty. }
  unfold getCertificateChain. rewrite Hs, Hstore, Hpeer. cbn [deref lookup list_lookup].
  split; [|intros H; rewrite (Herr H); reflexivity].
  intros Hdated. rewrite (Hok Hdated). cbn [app].
  change (entries_from (c0 :: c1 :: rest) 0 (c0 :: c1 :: rest))
    with (entry (c0 :: c1 :: rest) (Some 0%nat) c0 0 (parsed c0)
          :: entries_from (c0 :: c1 :: rest) 1 (c1 :: rest)).
  assert (Hns : forall e e' l, selfSigned (e :: e' :: l) = false) by reflexivity.
  destruct (entries_from (c0 :: c1 :: rest) 1 (c1 :: rest)) as [|e1 es] eqn:Hes;
    [discriminate|].
  rewrite Hns. eexists. split; [reflexivity|].
  cbn [Chain.certificates Chain.isSelfSigned markSelfSigned].
  split; [|split; [|reflexivity]].
  - rewrite <- Hes. cbn [map]. rewrite entry_fingerprint, entries_from_fingerprints.
    reflexivity.
  - rewrite <- Hes. cbn [map].
    rewrite (entries_from_types _ Hch rest 1 c1) by (lia || reflexivity).
    replace (length (c0 :: c1 :: rest) - 2)%nat with (length rest)
      by (cbn [length]; lia).
    reflexivity.
Qed.

Lemma live_chain_in_order_witness :
  (exists r,
     getCertificateChain (date := Sample.utc)
       (Sample.always (Sample.session Inputs.three)) "www.example" 443 10000 = Ok r
     /\ map Cert.type (Chain.certificates r)
        = [Some leaf; Some intermediate; Some root])
  /\ getCertificateChain (date := Sample.utc)
       (Sample.always (Sample.session Inputs.misdated)) "www.example" 443 10000
     = Err CertParser.E_INVALID_TIME.
Proof.
  split.
  - destruct (live_chain_in_order (date := Sample.utc)
                (Sample.always (Sample.session Inputs.three))
                "www.example" 443 10000 (Sample.session Inputs.three))
      as [Hok _].
    + reflexivity.
    + reflexivity.
    + intros k c Hk. destruct k as [|[|[|k]]]; simpl in Hk; try discriminate;
        injection Hk as <-; simpl; auto.
    + apply (bool_decide_unpack (NoDup _)). vm_compute. reflexivity.
    + simpl. lia.
    + destruct Hok as (r & Hr & _ & Hty & _).
      * repeat constructor; discriminate.
      * exists r. split; [exact Hr | exact Hty].
  - apply (live_chain_in_order (date := Sample.utc)
             (Sample.always (Sample.session Inputs.misdated))
             "www.example" 443 10000 (Sample.session Inputs.misdated)).
    + reflexivity.
    + reflexivity.
    + intros k c Hk. destruct k as [|[|k]]; simpl in Hk; try discriminate;
        injection Hk as <-; simpl; auto.
    + apply (bool_decide_unpack (NoDup _)). vm_compute. reflexivity.
    + simpl. lia.
    + intros H. inversion H as [|? ? _ H']. inversion H' as [|? ? [_ Hto] _].
      destruct (Hto eq_refl) as [? [=]].
Defined.

(** ** A lone certificate without common names *)

Lemma walk_lone {date : DateReader} (store : list Peer.t) (i : nat) (c : Peer.t) :
  store !! i = Some c ->
  Peer.issuerCertificate c = None \/ Peer.issuerCertificate c = Some i ->
  (dated c ->
   walk WALK_FUEL store (Some i) ∅ []
   = Some (Ok [entry store (Some i) c 0 (parsed c)]))
  /\ (~ dated c ->
      walk WALK_FUEL store (Some i) ∅ [] = Some (Err CertParser.E_INVALID_TIME)).
Proof.
  intros Hc Hissuer. unfold WALK_FUEL.
  rewrite (walk_step _ _ _ _ _ c) by (assumption || apply not_elem_of_empty).
  split; intros Hd.
  - rewrite (parseCertificate_dated c Hd).
    cbn [app length Nat.ltb Nat.leb]. destruct Hissuer as [-> | ->].
    + apply walk_stop_absent. reflexivity.
    + apply (walk_stop_seen _ _ _ _ _ c); [assumption|].
      apply elem_of_union_l, elem_of_singleton. reflexivity.
  - rewrite (parseCertificate_undated c Hd). reflexivity.
Qed.

(** X10: self-signed detection on the live path compares the common names
    only.  A session's lone certificate (without issuer object, or its own
    issuer) whose validity dates are readable or absent and whose subject
    and issuer both have no CN is reported self-signed, whatever their other
    fields; if exactly its subject has a CN it is reported as a leaf.  If a
    validity date of the certificate is not readable, the live path reports
    nothing: it fails with the platform's range error. *)
Theorem lone_certificate_without_CN {date : DateReader} (net : Network)
  (domain : string) (port timeout : Z) (socket : Socket.t) (i : nat) (c : Peer.t)
  (subject issuer : gmap string Attr.t) :
  tryConnect net domain port timeout 0 = Ok socket ->
  Socket.peerCertificate socket = Some i ->
  Socket.store socket !! i = Some c ->
  Peer.issuerCertificate c = None \/ Peer.issuerCertificate c = Some i ->
  Peer.subject c = Some subject ->
  Peer.issuer c = Some issuer ->
  Attr.truthy (issuer !! "CN") = false ->
  (dated c ->
   exists r e,
     getCertificateChain net domain port timeout = Ok r
     /\ Chain.certificates r = [e]
     /\ (Attr.truthy (subject !! "CN") = false ->
         Chain.isSelfSigned r = true /\ Cert.type e = Some self_signed)
     /\ (Attr.truthy (subject !! "CN") = true ->
         Chain.isSelfSigned r = false /\ Cert.type e = Some leaf))
  /\ (~ dated c ->
      getCertificateChain net domain port timeout = Err CertParser.E_INVALID_TIME).
Proof.
  intros Hs Hpeer Hc Hissuer Hsub Hiss Hicn.
  unfold getCertificateChain. rewrite Hs, Hpeer. cbn [deref]. rewrite Hc.
  destruct (walk_lone _ _ _ Hc Hissuer) as [Hok Herr].
  split; [|intros Hd; rewrite (Herr Hd); reflexivity].
  intros Hd. rewrite (Hok Hd).
  assert (Hnames :
    Subject.commonName
      (Cert.subject (entry (Socket.store socket) (Some i) c 0 (parsed c)))
    = Some (Attr.or_else (subject !! "CN") EmptyString)
    /\ Subject.commonName
         (Cert.issuer (entry (Socket.store socket) (Some i) c 0 (parsed c)))
       = Some (Attr.Text EmptyString)).
  { unfold entry, parsed. cbn [Nat.eqb Cert.set_type Cert.subject Cert.issuer
                                CertParser.record].
    rewrite Hsub, Hiss. cbn [CertParser.parseSubject Subject.commonName].
    split; [reflexivity|]. f_equal. unfold Attr.or_else.
    destruct (issuer !! "CN") as [v|]; [|reflexivity]. rewrite Hicn. reflexivity. }
  destruct Hnames as [Hn1 Hn2]. unfold selfSigned. rewrite Hn1, Hn2.
  assert (Hid : Attr.identical (Some (Attr.or_else (subject !! "CN") EmptyString))
                               (Some (Attr.Text EmptyString))
                = negb (Attr.truthy (subject !! "CN"))).
  { unfold Attr.or_else. destruct (subject !! "CN") as [[[|x s]|l]|]; reflexivity. }
  rewrite Hid.
  destruct (Attr.truthy (subject !! "CN")) eqn:Hscn; cbn [negb].
  - eexists _, _. split; [reflexivity|]. split; [reflexivity|].
    split; [discriminate|]. intros _. split; reflexivity.
  - eexists _, _. split; [reflexivity|]. split; [reflexivity|].
    split; [|discriminate]. intros _. split; reflexivity.
Qed.

Lemma lone_certificate_without_CN_witness :
  exists r e,
    getCertificateChain (date := Sample.utc)
      (Sample.always (Sample.session [Inputs.nameless]))
      "nameless.example" 443 10000 = Ok r
    /\ Chain.certificates r = [e]
    /\ Chain.isSelfSigned r = true /\ Cert.type e = Some self_signed.
Proof.
  destruct (lone_certificate_without_CN (date := Sample.utc)
              (Sample.always (Sample.session [Inputs.nameless]))
              "nameless.example" 443 10000 (Sample.session [Inputs.nameless])
              0%nat Inputs.nameless {["O" := Attr.Text "Example Org"]}
              {["O" := Attr.Text "Another Org"]})
    as [Hok _];
    [reflexivity | reflexivity | reflexivity | left; reflexivity | reflexivity
    | reflexivity | vm_compute; reflexivity |].
  destruct Hok as (r & e & Hr & He & Hself & _); [split; discriminate|].
  exists r, e. split; [exact Hr|]. split; [exact He|].
  apply Hself. vm_compute. reflexivity.
Defined.

(** ** Extraction of the PEM blocks *)

Lemma sapp_assoc (a b c : string) : (a +:+ b) +:+ c = a +:+ b +:+ c.
Proof.
  induction a as [|x a IH]; [reflexivity|].
  change (String x ((a +:+ b) +:+ c) = String x (a +:+ b +:+ c)).
  rewrite IH. reflexivity.
Qed.

Lemma sapp_nil_r (a : string) : a +:+ EmptyString = a.
Proof.
  induction a as [|x a IH]; [reflexivity|].
  change (String x (a +:+ EmptyString) = String x a). rewrite IH. reflexivity.
Qed.

Lemma length_sapp (a b : string) :
  String.length (a +:+ b) = (String.length a + String.length b)%nat.
Proof.
  induction a as [|x a IH]; [reflexivity|].
  change (S (String.length (a +:+ b)) = S (String.length a + String.length b)).
  rewrite IH. reflexivity.
Qed.

Lemma startsWith_app (p rest : string) : Js.startsWith p (p +:+ rest) = true.
Proof.
  induction p as [|x p IH]; [reflexivity|].
  change ((if Ascii.eqb x x then Js.startsWith p (p +:+ rest) else false) = true).
  rewrite Ascii.eqb_refl. exact IH.
Qed.

Lemma startsWith_inv (p s : string) :
  Js.startsWith p s = true -> exists rest, s = p +:+ rest.
Proof.
  revert s. induction p as [|x p IH]; intros s H; [exists s; reflexivity|].
  destruct s as [|y s]; [discriminate|]. simpl in H.
  destruct (Ascii.eqb x y) eqn:Hxy; [|discriminate].
  apply Ascii.eqb_eq in Hxy as <-. destruct (IH s H) as [rest ->].
  exists rest. reflexivity.
Qed.

Lemma skip_app (p rest : string) : skip (String.length p) (p +:+ rest) = rest.
Proof. induction p as [|x p IH]; [destruct rest; reflexivity|]. exact IH. Qed.

Lemma upto_end_cons (c : ascii) (s : string) :
  upto_end (String c s) =
    if Js.startsWith PEM_END (String c s)
    then Some (PEM_END, skip (String.length PEM_END) (String c s))
    else match upto_end s with
         | Some (body, rest) => Some (String c body, rest)
         | None => None
         end.
Proof. reflexivity. Qed.

Lemma pem_blocks_from_cons (fuel : nat) (c : ascii) (s : string) :
  pem_blocks_from (S fuel) (String c s) =
    if Js.startsWith PEM_BEGIN (String c s) then
      match upto_end (skip (String.length PEM_BEGIN) (String c s)) with
      | Some (body, rest) => (PEM_BEGIN +:+ body) :: pem_blocks_from fuel rest
      | None => pem_blocks_from fuel s
      end
    else pem_blocks_from fuel s.
Proof. reflexivity. Qed.

Local Opaque skip.

Lemma upto_end_inv (s body rest : string) :
  upto_end s = Some (body, rest) ->
  s = body +:+ rest /\ exists inner, body = inner +:+ PEM_END.
Proof.
  revert body. induction s as [|c s IH]; intros body H.
  - simpl in H. discriminate.
  - rewrite upto_end_cons in H.
    destruct (Js.startsWith PEM_END (String c s)) eqn:Hend.
    + injection H as <- <-. apply startsWith_inv in Hend as [rest' ->].
      change 25%nat with (String.length PEM_END). rewrite skip_app.
      split; [reflexivity|]. exists EmptyString. reflexivity.
    + destruct (upto_end s) as [[b r]|] eqn:Hs; [|discriminate].
      injection H as <- <-. destruct (IH b eq_refl) as [-> (inner & ->)].
      split; [reflexivity|]. exists (String c inner). reflexivity.
Qed.

Lemma pem_blocks_from_inv (fuel : nat) :
  forall s block,
    In block (pem_blocks_from fuel s) ->
    exists before body after,
      s = before +:+ block +:+ after
      /\ block = PEM_BEGIN +:+ body +:+ PEM_END.
Proof.
  induction fuel as [|fuel IH]; intros s block Hin; [contradiction|].
  destruct s as [|c s]; [contradiction|]. rewrite pem_blocks_from_cons in Hin.
  assert (Hnext : In block (pem_blocks_from fuel s) ->
                  exists before body after,
                    String c s = before +:+ block +:+ after
                    /\ block = PEM_BEGIN +:+ body +:+ PEM_END).
  { intros H. destruct (IH s block H) as (before & body & after & -> & Hb).
    exists (String c before), body, after. split; [reflexivity | assumption]. }
  destruct (Js.startsWith PEM_BEGIN (String c s)) eqn:Hbegin; [|auto].
  destruct (upto_end (skip (String.length PEM_BEGIN) (String c s)))
    as [[body rest]|] eqn:Hend; [|auto].
  apply startsWith_inv in Hbegin as [tail Htail]. rewrite Htail, skip_app in Hend.
  apply upto_end_inv in Hend as [Ht (inner & ->)].
  destruct Hin as [<-|Hin].
  - exists EmptyString, inner, rest. split; [|reflexivity].
    rewrite Htail, Ht. cbn [String.append]. rewrite !sapp_assoc. reflexivity.
  - destruct (IH rest block Hin) as (before & body & after & -> & Hb).
    exists (PEM_BEGIN +:+ inner +:+ PEM_END +:+ before), body, after.
    split; [|assumption]. rewrite Htail, Ht. rewrite !sapp_assoc. reflexivity.
Qed.

Local Transparent skip.

(** X11: every block extracted from the toolkit's output is a piece of that
    output that begins with the BEGIN CERTIFICATE line and ends with the END
    CERTIFICATE line. *)
Theorem pem_blocks_are_blocks (s block : string) :
  In block (pem_blocks s) ->
  exists before body after,
    s = before +:+ block +:+ after
    /\ block = PEM_BEGIN +:+ body +:+ PEM_END.
Proof. apply pem_blocks_from_inv. Qed.

Lemma pem_blocks_are_blocks_witness :
  exists before body after,
    Sample.pemA = before +:+ Sample.blockA +:+ after
    /\ Sample.blockA = PEM_BEGIN +:+ body +:+ PEM_END.
Proof.
  apply (pem_blocks_are_blocks Sample.pemA Sample.blockA).
  vm_compute. left. reflexivity.
Defined.

Lemma agrees_startsWith (p t rest : string) :
  Js.startsWith p (t +:+ rest) = true -> agrees p t = true.
Proof.
  revert t. induction p as [|a p IH]; intros t H; [reflexivity|].
  destruct t as [|b t]; [reflexivity|]. simpl in *.
  destruct (Ascii.eqb a b); [|discriminate]. apply IH. assumption.
Qed.

Lemma quiet_head (marker : string) (c : ascii) (t rest : string) :
  quiet marker (String c t) = true ->
  Js.startsWith marker (String c t +:+ rest) = false /\ quiet marker t = true.
Proof.
  cbn [quiet]. rewrite andb_true_iff, negb_true_iff. intros [Hno Hq].
  split; [|assumption].
  destruct (Js.startsWith marker (String c t +:+ rest)) eqn:H; [|reflexivity].
  apply agrees_startsWith in H. congruence.
Qed.

Lemma upto_end_quiet (body rest : string) :
  quiet PEM_END body = true ->
  upto_end (body +:+ PEM_END +:+ rest) = Some (body +:+ PEM_END, rest).
Proof.
  induction body as [|c body IH]; intros Hq.
  - change (EmptyString +:+ PEM_END +:+ rest) with (PEM_END +:+ rest).
    destruct (PEM_END +:+ rest) as [|x xs] eqn:Hs; [discriminate|].
    rewrite upto_end_cons, <- Hs, startsWith_app, skip_app. reflexivity.
  - apply (quiet_head _ _ _ (PEM_END +:+ rest)) in Hq as [Hno Hq].
    change (String c body +:+ PEM_END +:+ rest)
      with (String c (body +:+ PEM_END +:+ rest)) in *.
    rewrite upto_end_cons, Hno, (IH Hq). reflexivity.
Qed.

Lemma pem_blocks_from_text (text : string) :
  forall (rest : string) (fuel : nat),
    quiet PEM_BEGIN text = true ->
    (String.length (text +:+ rest) <= fuel)%nat ->
    exists fuel',
      pem_blocks_from fuel (text +:+ rest) = pem_blocks_from fuel' rest
      /\ (String.length rest <= fuel')%nat.
Proof.
  induction text as [|c text IH]; intros rest fuel Hq Hfuel.
  - exists fuel. split; [reflexivity | assumption].
  - apply (quiet_head _ _ _ rest) in Hq as [Hno Hq].
    change (String c text +:+ rest) with (String c (text +:+ rest)) in *.
    destruct fuel as [|fuel]; [simpl in Hfuel; lia|].
    rewrite pem_blocks_from_cons, Hno. apply IH; [assumption|].
    simpl in Hfuel. lia.
Qed.

Lemma pem_blocks_from_showcerts (items : list (string * string)) :
  forall fuel,
    Forall (fun item => quiet_item item = true) items ->
    (String.length (showcerts items) <= fuel)%nat ->
    pem_blocks_from fuel (showcerts items) = map block_of items.
Proof.
  induction items as [|[body text] items IH]; intros fuel Hall Hfuel.
  - destruct fuel; reflexivity.
  - inversion Hall as [|? ? Hitem Hrest]; subst.
    unfold quiet_item in Hitem. cbn [fst snd] in Hitem.
    apply andb_true_iff in Hitem as [Hbody Htext].
    cbn [showcerts] in *.
    assert (Hlen : (27 + String.length (text +:+ showcerts items) <= fuel)%nat).
    { rewrite !length_sapp in Hfuel. rewrite length_sapp.
      change (String.length PEM_BEGIN) with 27%nat in Hfuel. lia. }
    clear Hfuel. destruct fuel as [|fuel]; [lia|].
    destruct (PEM_BEGIN +:+ body +:+ PEM_END +:+ text +:+ showcerts items)
      as [|x xs] eqn:Hs; [discriminate|].
    rewrite pem_blocks_from_cons, <- Hs, startsWith_app, skip_app.
    rewrite (upto_end_quiet body _ Hbody).
    rewrite <- sapp_assoc with (a := PEM_BEGIN). cbn [map]. f_equal.
    destruct (pem_blocks_from_text text (showcerts items) fuel Htext ltac:(lia))
      as (fuel' & -> & Hfuel').
    apply IH; assumption.
Qed.

(** X12: from an output made of text and PEM blocks, in which no END line
    can begin inside a block's body and no BEGIN line can begin inside the
    text around the blocks, the extraction returns exactly the blocks, all
    of them, in the order printed. *)
Theorem pem_blocks_showcerts (text : string) (items : list (string * string)) :
  quiet PEM_BEGIN text = true ->
  Forall (fun item => quiet_item item = true) items ->
  pem_blocks (text +:+ showcerts items) = map block_of items.
Proof.
  intros Htext Hitems. unfold pem_blocks.
  destruct (pem_blocks_from_text text (showcerts items)
              (String.length (text +:+ showcerts items)) Htext (Nat.le_refl _))
    as (fuel' & -> & Hfuel').
  apply pem_blocks_from_showcerts; assumption.
Qed.

Lemma pem_blocks_showcerts_witness :
  pem_blocks (Sample.lines ["CONNECTED(00000003)"; "---"; "Certificate chain"]
              +:+ showcerts [(LF +:+ "MIIB" +:+ LF, LF +:+ " 1 s:CN=Example CA" +:+ LF);
                             (LF +:+ "MIIC" +:+ LF, LF +:+ "---" +:+ LF)])
  = [PEM_BEGIN +:+ (LF +:+ "MIIB" +:+ LF) +:+ PEM_END;
     PEM_BEGIN +:+ (LF +:+ "MIIC" +:+ LF) +:+ PEM_END].
Proof.
  apply (pem_blocks_showcerts
           (Sample.lines ["CONNECTED(00000003)"; "---"; "Certificate chain"])
           [(LF +:+ "MIIB" +:+ LF, LF +:+ " 1 s:CN=Example CA" +:+ LF);
            (LF +:+ "MIIC" +:+ LF, LF +:+ "---" +:+ LF)]).
  - vm_compute. reflexivity.
  - repeat constructor.
Defined.

(** ** What the text path's fields look like *)

Lemma trimStart_shape (s : string) :
  Js.trimStart s = EmptyString \/ first_space (Js.trimStart s) = false.
Proof.
  induction s as [|c s IH]; [left; reflexivity|]. cbn [Js.trimStart].
  destruct (Js.is_space c) eqn:Hc; [exact IH|]. right. exact Hc.
Qed.

Lemma trimEnd_shape (s : string) :
  Js.trimEnd s = EmptyString \/ last_space (Js.trimEnd s) = false.
Proof.
  induction s as [|c s IH]; [left; reflexivity|]. cbn [Js.trimEnd].
  destruct (Js.is_space c && Js.is_empty (Js.trimEnd s)) eqn:Hc;
    [left; reflexivity|]. right.
  destruct IH as [IH|IH].
  - rewrite IH in *. cbn [Js.is_empty] in Hc. rewrite andb_true_r in Hc.
    exact Hc.
  - destruct (Js.trimEnd s) as [|d t]; [discriminate|]. exact IH.
Qed.

Lemma trimEnd_first (s : string) :
  first_space s = false -> first_space (Js.trimEnd s) = false.
Proof.
  destruct s as [|c s]; [discriminate|]. cbn [first_space Js.trimEnd].
  intros Hc. rewrite Hc. exact Hc.
Qed.

Lemma trim_shape (s : string) : trimmed_text (Js.trim s) = true.
Proof.
  unfold trimmed_text, Js.trim, clean.
  destruct (trimStart_shape s) as [->|Hf]; [reflexivity|].
  destruct (trimEnd_shape (Js.trimStart s)) as [->|Hl]; [reflexivity|].
  rewrite (trimEnd_first _ Hf), Hl. apply orb_true_r.
Qed.

Lemma has_char_trimStart (c : ascii) (s : string) :
  has_char c s = false -> has_char c (Js.trimStart s) = false.
Proof.
  induction s as [|d s IH]; [reflexivity|]. cbn [Js.trimStart has_char].
  intros H. apply orb_false_iff in H as [Hd Hs].
  destruct (Js.is_space d); [apply IH; assumption|].
  cbn [has_char]. rewrite Hd, Hs. reflexivity.
Qed.

Lemma has_char_trimEnd (c : ascii) (s : string) :
  has_char c s = false -> has_char c (Js.trimEnd s) = false.
Proof.
  induction s as [|d s IH]; [reflexivity|]. cbn [Js.trimEnd has_char].
  intros H. apply orb_false_iff in H as [Hd Hs].
  destruct (Js.is_space d && Js.is_empty (Js.trimEnd s)); [reflexivity|].
  cbn [has_char]. rewrite Hd, (IH Hs). reflexivity.
Qed.

Lemma has_char_trim (c : ascii) (s : string) :
  has_char c s = false -> has_char c (Js.trim s) = false.
Proof. intros H. apply has_char_trimEnd, has_char_trimStart. assumption. Qed.

Lemma has_char_substring (c : ascii) (s : string) :
  forall n m, has_char c s = false -> has_char c (String.substring n m s) = false.
Proof.
  induction s as [|d s IH]; intros n m H.
  - destruct n, m; reflexivity.
  - cbn [has_char] in H. apply orb_false_iff in H as [Hd Hs].
    destruct n as [|n]; cbn [String.substring].
    + destruct m as [|m]; [reflexivity|]. cbn [has_char].
      rewrite Hd, (IH 0%nat m Hs). reflexivity.
    + apply IH. assumption.
Qed.

Lemma split_char_no_sep (sep : ascii) (s : string) :
  Forall (fun w => has_char sep w = false) (Js.split_char sep s).
Proof.
  induction s as [|c s IH]; [repeat constructor|]. cbn [Js.split_char].
  destruct (Ascii.eqb c sep) eqn:Hc; [constructor; [reflexivity | exact IH]|].
  destruct (Js.split_char sep s) as [|w ws]; [repeat constructor; cbn; rewrite Hc; reflexivity|].
  inversion IH; subst. constructor; [|assumption].
  cbn [has_char]. rewrite Hc. assumption.
Qed.

Lemma sanNames_clean (line : string) :
  Forall (fun n => clean n = true /\ has_char "," n = false) (sanNames line).
Proof.
  unfold sanNames. apply Forall_forall. intros n Hn.
  apply list_elem_of_filter in Hn as [Hne Hn].
  apply list_elem_of_In, in_map_iff in Hn as (piece & <- & Hpiece).
  apply list_elem_of_In, list_elem_of_filter in Hpiece as [_ Hpiece].
  apply list_elem_of_In, in_map_iff in Hpiece as (raw & <- & Hraw).
  pose proof (split_char_no_sep "," line) as Hall. rewrite Forall_forall in Hall.
  apply list_elem_of_In, Hall in Hraw. split.
  - pose proof (trim_shape (strip_dns (Js.trim raw))) as Ht.
    unfold trimmed_text in Ht. rewrite Hne in Ht. exact Ht.
  - apply has_char_trim. unfold strip_dns.
    destruct (Js.startsWith _ _); [apply has_char_substring|];
      apply has_char_trim; assumption.
Qed.

(** X13: the subject alternative names of a text-path record are never
    empty, never contain a comma, and never begin or end with white space,
    whatever the decoded text is. *)
Theorem text_alt_names_are_clean {date : DateReader} (pem text : string) :
  exists names,
    Cert.subjectAltNames (parsePEMText pem text) = SanStrings names
    /\ Forall (fun n => clean n = true /\ has_char "," n = false) names.
Proof.
  unfold parsePEMText. cbn [Cert.subjectAltNames]. eexists. split; [reflexivity|].
  destruct (Re.exec Re.sanRe text) as [line|]; [apply sanNames_clean|constructor].
Qed.

(** The text path's names have a common name whenever they have an
    organization. *)
Lemma dn_fallback (dn : string) :
  let s := parseDNFromText dn in
  (exists cn, Subject.commonName s = Some (Attr.Text cn)
              /\ (Attr.truthy (Subject.organization s) = true -> cn <> EmptyString))
  /\ Subject.organizationalUnit s = None
  /\ Subject.state s = None
  /\ Subject.locality s = None.
Proof.
  unfold parseDNFromText. destruct (Js.is_empty dn).
  - cbn. split; [|auto]. eexists. split; [reflexivity | discriminate].
  - cbn [Subject.commonName Subject.organization Subject.organizationalUnit
         Subject.state Subject.locality].
    split; [|auto]. eexists. split; [reflexivity|].
    set (cn := trimmed (Re.exec (Re.dnRe "CN") dn)).
    set (o := trimmed (Re.exec (Re.dnRe "O") dn)).
    set (ou := trimmed (Re.exec (Re.dnRe "OU") dn)).
    unfold Attr.truthy, Js.or_else, or_opt, Js.truthy.
    destruct o as [[|x xs]|]; cbn; try discriminate.
    intros _. destruct cn as [[|y ys]|]; cbn; discriminate.
Qed.

(** X14: on the text path a subject always has a commonName and never an
    organizational unit, a state or a locality; a record classified OV has
    a commonName that is not empty, the organization standing in when the
    name has no CN. *)
Theorem text_subject_common_name {date : DateReader} (pem text : string) :
  let c := parsePEMText pem text in
  (exists cn, Subject.commonName (Cert.subject c) = Some (Attr.Text cn)
              /\ (Level.level (Cert.validationLevel c) = OV -> cn <> EmptyString))
  /\ Subject.organizationalUnit (Cert.subject c) = None
  /\ Subject.state (Cert.subject c) = None
  /\ Subject.locality (Cert.subject c) = None.
Proof.
  intros c. subst c. rewrite level_text_cases.
  unfold parsePEMText. cbn [Cert.subject].
  destruct (Re.exec Re.subjectRe text) as [dn|].
  - destruct (dn_fallback dn) as [(cn & Hcn & Horg) Hrest].
    split; [|exact Hrest]. exists cn. split; [exact Hcn|].
    destruct (Attr.truthy (Subject.organization (parseDNFromText dn)));
      [intros _; apply Horg; reflexivity | discriminate].
  - cbn. split; [|auto]. eexists. split; [reflexivity|]. discriminate.
Qed.

(** ** What a capture group captures *)

Lemma all_chars_app (test : ascii -> bool) (a b : string) :
  all_chars test (a +:+ b) = all_chars test a && all_chars test b.
Proof.
  induction a as [|c a IH]; [reflexivity|].
  change (test c && all_chars test (a +:+ b)
          = test c && all_chars test a && all_chars test b).
  rewrite IH, andb_assoc. reflexivity.
Qed.

Lemma is_empty_app (a b : string) :
  Js.is_empty a = false -> Js.is_empty (a +:+ b) = false.
Proof. destruct a; [discriminate | reflexivity]. Qed.

Lemma captured_cons (it : Re.item) (its : list Re.item) (cap r : option string) :
  captured its cap r -> captured (it :: its) cap r.
Proof.
  intros [H|(cls & str & Hin & H)]; [left; assumption|].
  right. exists cls, str. split; [right; assumption | assumption].
Qed.

Lemma match_here_captured (its : list Re.item) :
  forall s cap r, Re.match_here its s cap = Some r -> captured its cap r.
Proof.
  induction its as [|it its IH]; intros s cap r H.
  - injection H as <-. left. reflexivity.
  - destruct it as [c|cls|cls|cls|cls]; cbn [Re.match_here] in H.
    + destruct s as [|d s]; [discriminate|].
      destruct (Ascii.eqb _ _); [|discriminate].
      apply captured_cons, (IH _ _ _ H).
    + destruct s as [|d s]; [discriminate|].
      destruct (cls _); [|discriminate].
      apply captured_cons, (IH _ _ _ H).
    + apply captured_cons. destruct s as [|d s]; [apply (IH _ _ _ H)|].
      destruct (cls _); [|apply (IH _ _ _ H)].
      unfold Re.first_of in H.
      destruct (Re.match_here its s cap) eqn:H1; [|apply (IH _ _ _ H)].
      injection H as <-. apply (IH _ _ _ H1).
    + apply captured_cons. revert H. induction s as [|d s IHs]; intros H.
      * apply (IH _ _ _ H).
      * destruct (cls (Js.lower_char d)); [|apply (IH _ _ _ H)].
        unfold Re.first_of in H.
        match type of H with
        | match ?x with _ => _ end = _ => destruct x eqn:H1
        end; [|apply (IH _ _ _ H)].
        injection H as <-. apply IHs. exact H1.
    + destruct s as [|d s]; [discriminate|].
      destruct (cls (Js.lower_char d)) eqn:Hd; [|discriminate].
      match type of H with
      | ?more ?acc0 _ = _ =>
          assert (Hgen : forall t acc,
                    Js.is_empty acc = false ->
                    all_chars (fun c => cls (Js.lower_char c)) acc = true ->
                    more acc t = Some r ->
                    captured (Re.Group cls :: its) cap r)
      end.
      { clear H s. intros t. induction t as [|e t IHt]; intros acc Hne Hall Hm.
        - apply IH in Hm. destruct Hm as [->|Hm].
          + right. exists cls, acc. split; [left; reflexivity|]. auto.
          + apply captured_cons. right. exact Hm.
        - assert (Hstop : Re.match_here its (String e t) (Some acc) = Some r ->
                          captured (Re.Group cls :: its) cap r).
          { intros Hs. apply IH in Hs. destruct Hs as [->|Hs].
            - right. exists cls, acc. split; [left; reflexivity|]. auto.
            - apply captured_cons. right. exact Hs. }
          destruct (cls (Js.lower_char e)) eqn:He; [|exact (Hstop Hm)].
          unfold Re.first_of in Hm.
          match type of Hm with
          | match ?x with _ => _ end = _ => destruct x eqn:H1
          end; [|exact (Hstop Hm)].
          injection Hm as <-. apply (IHt (acc +:+ String e EmptyString)).
          + apply is_empty_app. assumption.
          + rewrite all_chars_app, Hall. cbn [all_chars]. rewrite He. reflexivity.
          + exact H1. }
      apply (Hgen s (String d EmptyString)); [reflexivity | | exact H].
      cbn [all_chars]. rewrite Hd. reflexivity.
Qed.

Lemma search_captured (its : list Re.item) (s : string) (r : option string) :
  Re.search its s = Some r -> captured its None r.
Proof.
  induction s as [|c s IH]; cbn [Re.search].
  - destruct (Re.match_here its EmptyString None) eqn:H; [|discriminate].
    intros [= <-]. apply (match_here_captured _ _ _ _ H).
  - destruct (Re.match_here its (String c s) None) eqn:H; [|exact IH].
    intros [= <-]. apply (match_here_captured _ _ _ _ H).
Qed.

Lemma in_group_lit (cls : ascii -> bool) (s : string) (rest : list Re.item) :
  In (Re.Group cls) (Re.lit s ++ rest) -> In (Re.Group cls) rest.
Proof.
  induction s as [|c s IH]; [auto|]. cbn [Re.lit app]. intros [H|H];
    [discriminate | auto].
Qed.

(** The capture of a pattern with one group, of class [cls]. *)
Lemma exec_class (its : list Re.item) (cls : ascii -> bool) (s str : string) :
  (forall cls', In (Re.Group cls') its -> cls' = cls) ->
  Re.exec its s = Some str ->
  Js.is_empty str = false
  /\ all_chars (fun c => cls (Js.lower_char c)) str = true.
Proof.
  intros Honly. unfold Re.exec.
  destruct (Re.search its s) as [[c|]|] eqn:H; try discriminate.
  intros [= <-]. apply search_captured in H as [H|(cls' & str & Hin & H & Hne & Hall)];
    [discriminate|].
  injection H as <-. rewrite (Honly _ Hin) in Hall. auto.
Qed.

Lemma hex_char_upper (c : ascii) :
  Re.hex_colon (Js.lower_char c) = true -> Ascii.eqb c ":" = false ->
  is_upper_hex (Js.upper_char c) = true.
Proof.
  destruct c as [b0 b1 b2 b3 b4 b5 b6 b7].
  destruct b0, b1, b2, b3, b4, b5, b6, b7; vm_compute; intros H1 H2;
    first [reflexivity | discriminate].
Qed.

Lemma not_comma_char (c : ascii) :
  Re.not_comma (Js.lower_char c) = true -> Ascii.eqb c "," = false.
Proof.
  destruct c as [b0 b1 b2 b3 b4 b5 b6 b7].
  destruct b0, b1, b2, b3, b4, b5, b6, b7; vm_compute; intros H;
    first [reflexivity | discriminate].
Qed.

Lemma serial_format (m : string) :
  all_chars (fun c => Re.hex_colon (Js.lower_char c)) m = true ->
  all_chars is_upper_hex (Js.toUpperCase (remove_colons m)) = true.
Proof.
  induction m as [|c m IH]; [reflexivity|]. cbn [all_chars remove_colons].
  rewrite andb_true_iff. intros [Hc Hm].
  destruct (Ascii.eqb c ":") eqn:Hcolon; [apply IH; assumption|].
  cbn [Js.toUpperCase all_chars]. rewrite (hex_char_upper _ Hc Hcolon).
  apply IH. assumption.
Qed.

Lemma no_comma_chars (m : string) :
  all_chars (fun c => Re.not_comma (Js.lower_char c)) m = true ->
  has_char "," m = false.
Proof.
  induction m as [|c m IH]; [reflexivity|]. cbn [all_chars has_char].
  rewrite andb_true_iff. intros [Hc Hm].
  rewrite (not_comma_char _ Hc), (IH Hm). reflexivity.
Qed.

Lemma parseInt_from_nonneg (s : string) :
  forall acc, (0 <= acc)%Z -> (0 <= parseInt_from acc s)%Z.
Proof.
  induction s as [|c s IH]; intros acc Hacc; [assumption|].
  cbn [parseInt_from]. destruct (Js.is_digit c); [|assumption].
  apply IH. lia.
Qed.

Lemma serialRe_group (cls : ascii -> bool) :
  In (Re.Group cls) Re.serialRe -> cls = Re.hex_colon.
Proof.
  unfold Re.serialRe. intros H. apply in_group_lit in H.
  cbn [In] in H. destruct H as [H|[H|[H|[H|[]]]]]; try discriminate.
  injection H as <-. reflexivity.
Qed.

Lemma fingerprintRe_group (cls : ascii -> bool) :
  In (Re.Group cls) Re.fingerprintRe -> cls = Re.hex_colon.
Proof.
  unfold Re.fingerprintRe. intros H. apply in_group_lit in H.
  cbn [In] in H. destruct H as [H|[]]. injection H as <-. reflexivity.
Qed.

Lemma dnRe_group (key : string) (cls : ascii -> bool) :
  In (Re.Group cls) (Re.dnRe key) -> cls = Re.not_comma.
Proof.
  unfold Re.dnRe. intros H. apply in_group_lit in H.
  cbn [app In] in H. destruct H as [H|H]; [discriminate|].
  change (In (Re.Group cls) (Re.lit "=" ++ [Re.Star Re.space; Re.Group Re.not_comma])) in H.
  apply in_group_lit in H. cbn [In] in H.
  destruct H as [H|[H|[]]]; [discriminate|]. injection H as <-. reflexivity.
Qed.

(** X15: whatever the decoded text is, the serial number of a text-path
    record consists of digits and capital letters A to F only (no colon, no
    small letter), its fingerprint256 of hexadecimal digits and colons; its
    legacy fingerprint is always empty, its version always 3, and its bit
    count is never negative. *)
Theorem text_identifiers {date : DateReader} (pem text : string) :
  let c := parsePEMText pem text in
  all_chars is_upper_hex (Cert.serialNumber c) = true
  /\ all_chars (fun ch => Re.hex_colon (Js.lower_char ch)) (Cert.fingerprint256 c) = true
  /\ Cert.fingerprint c = EmptyString
  /\ Cert.version c = 3%Z
  /\ (0 <= Cert.bits c)%Z.
Proof.
  intros c. subst c. unfold parsePEMText.
  cbn [Cert.serialNumber Cert.fingerprint256 Cert.fingerprint Cert.version Cert.bits].
  split; [|split; [|split; [reflexivity|split; [reflexivity|]]]].
  - destruct (Re.exec Re.serialRe text) as [m|] eqn:Hm; [|reflexivity].
    apply serial_format.
    apply (exec_class _ _ _ _ serialRe_group Hm).
  - destruct (Re.exec Re.fingerprintRe text) as [m|] eqn:Hm; [|reflexivity].
    cbn [default]. apply (exec_class _ _ _ _ fingerprintRe_group Hm).
  - destruct (Re.exec Re.keySizeRe text) as [m|].
    + apply parseInt_from_nonneg. lia.
    + destruct (isGM_of text); lia.
Qed.

Lemma dn_capture_shape (key dn v : string) :
  trimmed (Re.exec (Re.dnRe key) dn) = Some v ->
  trimmed_text v = true /\ has_char "," v = false.
Proof.
  unfold trimmed. destruct (Re.exec (Re.dnRe key) dn) as [m|] eqn:Hm; [|discriminate].
  intros [= <-]. split; [apply trim_shape|].
  apply has_char_trim, no_comma_chars.
  apply (exec_class _ _ _ _ (dnRe_group key) Hm).
Qed.

Lemma dn_fields_shape (dn v : string) :
  let s := parseDNFromText dn in
  Subject.commonName s = Some (Attr.Text v)
  \/ Subject.organization s = Some (Attr.Text v)
  \/ Subject.country s = Some (Attr.Text v) ->
  trimmed_text v = true /\ has_char "," v = false.
Proof.
  assert (Hor : forall o, (forall w, o = Some w -> trimmed_text w = true /\ has_char "," w = false) ->
                trimmed_text (Js.or_else o EmptyString) = true
                /\ has_char "," (Js.or_else o EmptyString) = false).
  { intros o Ho. unfold Js.or_else. destruct o as [w|]; [|split; reflexivity].
    destruct (Js.is_empty w); [split; reflexivity | apply Ho; reflexivity]. }
  assert (Hopt : forall a b,
            (forall w, a = Some w -> trimmed_text w = true /\ has_char "," w = false) ->
            (forall w, b = Some w -> trimmed_text w = true /\ has_char "," w = false) ->
            forall w, or_opt a b = Some w -> trimmed_text w = true /\ has_char "," w = false).
  { intros a b Ha Hb w. unfold or_opt. destruct (Js.truthy a); [apply Ha | apply Hb]. }
  unfold parseDNFromText. destruct (Js.is_empty dn).
  - cbn. intros [[= <-]|[[=]|[=]]]. split; reflexivity.
  - cbn [Subject.commonName Subject.organization Subject.country].
    intros [[= <-]|[[= <-]|[= <-]]].
    + apply Hor. apply Hopt; [apply Hopt|]; intros w; apply dn_capture_shape.
    + apply Hor. intros w. apply dn_capture_shape.
    + apply Hor. intros w. apply dn_capture_shape.
Qed.

(** X16: whatever the decoded text is, the commonName, organization and
    country of the subject and of the issuer of a text-path record contain
    no comma and have no white space at either end. *)
Theorem text_names_are_trimmed {date : DateReader} (pem text v : string) :
  let c := parsePEMText pem text in
  (exists name, (name = Cert.subject c \/ name = Cert.issuer c)
     /\ (Subject.commonName name = Some (Attr.Text v)
         \/ Subject.organization name = Some (Attr.Text v)
         \/ Subject.country name = Some (Attr.Text v))) ->
  trimmed_text v = true /\ has_char "," v = false.
Proof.
  intros c (name & Hname & Hv). subst c. unfold parsePEMText in Hname.
  cbn [Cert.subject Cert.issuer] in Hname.
  assert (Hunknown : forall w,
            Subject.commonName unknownDN = Some (Attr.Text w)
            \/ Subject.organization unknownDN = Some (Attr.Text w)
            \/ Subject.country unknownDN = Some (Attr.Text w) ->
            trimmed_text w = true /\ has_char "," w = false).
  { cbn. intros w [[= <-]|[[=]|[=]]]. split; reflexivity. }
  destruct Hname as [-> | ->].
  - destruct (Re.exec Re.subjectRe text) as [dn|];
      [apply (dn_fields_shape dn v Hv) | apply (Hunknown v Hv)].
  - destruct (Re.exec Re.issuerRe text) as [dn|];
      [apply (dn_fields_shape dn v Hv) | apply (Hunknown v Hv)].
Qed.

Lemma text_names_are_trimmed_witness :
  trimmed_text "Acme Corp" = true /\ has_char "," "Acme Corp" = false.
Proof.
  apply (text_names_are_trimmed (date := Sample.utc) Sample.blockA Sample.evDump
           "Acme Corp").
  eexists. split; [left; reflexivity|]. right. left. vm_compute. reflexivity.
Defined.

(** ** The domain parser *)

Example parseDomain_ex :
  DomainParser.parseDomain (fun _ => None) "  example.com:8443/path  "
  = DomainParser.mkParsed "example.com" (Some 8443%Z)
  /\ DomainParser.parseDomain (fun _ => None) "example.com:0"
     = DomainParser.mkParsed "example.com" (Some 443%Z)
  /\ DomainParser.parseDomain (fun _ => None) "example.com/a:b"
     = DomainParser.mkParsed "example.com" (Some 443%Z)
  /\ DomainParser.parseDomain
       (fun _ => Some (DomainParser.mkUrl "example.com" "8443"))
       "https://example.com:8443/x"
     = DomainParser.mkParsed "example.com" (Some 8443%Z)
  /\ DomainParser.parseDomain
       (fun _ => Some (DomainParser.mkUrl "[::1]" EmptyString)) "https://[::1]/"
     = DomainParser.mkParsed "[" (Some 443%Z).
Proof. vm_compute. repeat split. Qed.

Lemma includes_char (c : ascii) (s : string) :
  Js.includes (String c EmptyString) s = has_char c s.
Proof.
  induction s as [|d s IH]; [reflexivity|].
  cbn [Js.includes Js.startsWith has_char]. rewrite IH, (Ascii.eqb_sym d c).
  destruct (Ascii.eqb c d); [destruct s; reflexivity | reflexivity].
Qed.

Lemma split_char_inherit (c sep : ascii) (s : string) :
  has_char c s = false ->
  Forall (fun w => has_char c w = false) (Js.split_char sep s).
Proof.
  induction s as [|d s IH]; intros H; [repeat constructor|].
  cbn [has_char] in H. apply orb_false_iff in H as [Hd Hs].
  specialize (IH Hs). cbn [Js.split_char].
  destruct (Ascii.eqb d sep); [constructor; [reflexivity | exact IH]|].
  destruct (Js.split_char sep s) as [|w ws];
    [repeat constructor; cbn; rewrite Hd; reflexivity|].
  inversion IH; subst. constructor; [|assumption].
  cbn [has_char]. rewrite Hd. assumption.
Qed.

Lemma split_char_head_shape (c sep : ascii) (s : string) :
  (has_char c s = false \/ c = sep) ->
  has_char c (default EmptyString (head (Js.split_char sep s))) = false.
Proof.
  intros H.
  assert (Hall : Forall (fun w => has_char c w = false) (Js.split_char sep s)).
  { destruct H as [H| ->]; [apply split_char_inherit; assumption
                           | apply split_char_no_sep]. }
  destruct (Js.split_char sep s) as [|w ws]; [reflexivity|].
  inversion Hall; assumption.
Qed.

(** X17: whatever the input and whatever the platform's URL parser answers,
    the domain that [parseDomain] returns contains neither a colon nor a
    slash. *)
Theorem parseDomain_domain_shape (url : DomainParser.UrlParser) (input : string) :
  has_char ":" (DomainParser.domain (DomainParser.parseDomain url input)) = false
  /\ has_char "/" (DomainParser.domain (DomainParser.parseDomain url input)) = false.
Proof.
  unfold DomainParser.parseDomain. cbn [DomainParser.domain].
  split; [|apply split_char_head_shape; right; reflexivity].
  apply split_char_head_shape. left.
  set (afterUrl := if Js.includes "://" (Js.trim input) then _ else _).
  destruct (Js.includes ":" (fst afterUrl)) eqn:Hcolon; cbn [fst].
  - change (Js.split_char ":" (fst afterUrl) !! 0%nat)
      with (head (Js.split_char ":" (fst afterUrl))) || idtac.
    pose proof (split_char_no_sep ":" (fst afterUrl)) as Hall.
    destruct (Js.split_char ":" (fst afterUrl)) as [|w ws]; [reflexivity|].
    inversion Hall; assumption.
  - rewrite <- includes_char. exact Hcolon.
Qed.

(** X18: for an input without a scheme separator, the port that
    [parseDomain] returns is a number and never 0: it is 443 when the part
    after the first colon has no number or the number 0, and when the input
    has no colon at all, in which case the domain is the trimmed input up to
    its first slash. *)
Theorem parseDomain_default_port (url : DomainParser.UrlParser) (input : string) :
  Js.includes "://" (Js.trim input) = false ->
  let parsed := DomainParser.parseDomain url input in
  (exists p, DomainParser.port parsed = Some p /\ p <> 0%Z)
  /\ (Js.includes ":" (Js.trim input) = false ->
      DomainParser.port parsed = Some 443%Z
      /\ DomainParser.domain parsed
         = default EmptyString (head (Js.split_char "/" (Js.trim input))))
  /\ (forall parts, Js.split_char ":" (Js.trim input) = parts ->
      Js.includes ":" (Js.trim input) = true ->
      (parts !! 1%nat ≫= DomainParser.parseInt = None
       \/ parts !! 1%nat ≫= DomainParser.parseInt = Some 0%Z) ->
      DomainParser.port parsed = Some 443%Z).
Proof.
  intros Hscheme parsed. subst parsed. unfold DomainParser.parseDomain.
  rewrite Hscheme. cbn [fst snd DomainParser.port DomainParser.domain].
  split; [|split].
  - destruct (Js.includes ":" (Js.trim input)); cbn [snd].
    + eexists. split; [reflexivity|]. unfold num_or.
      destruct (_ ≫= _) as [n|]; [|discriminate].
      destruct (n =? 0)%Z eqn:Hn; [discriminate|]. apply Z.eqb_neq. assumption.
    + eexists. split; [reflexivity | discriminate].
  - intros ->. cbn [fst snd]. split; reflexivity.
  - intros parts <- -> Hnan. cbn [snd]. destruct Hnan as [-> | ->]; reflexivity.
Qed.

Lemma parseDomain_default_port_witness :
  DomainParser.port (DomainParser.parseDomain (fun _ => None) "example.com/path")
  = Some 443%Z
  /\ DomainParser.domain (DomainParser.parseDomain (fun _ => None) "example.com/path")
     = "example.com".
Proof.
  apply (parseDomain_default_port (fun _ => None) "example.com/path");
    vm_compute; reflexivity.
Defined.

Lemma digits_of_uint (d : Decimal.uint) :
  all_chars Js.is_digit (NilEmpty.string_of_uint d) = true.
Proof. induction d; [reflexivity | exact IHd ..]. Qed.

Lemma parseInt_from_acc (d : Decimal.uint) :
  forall (acc : positive) (rest : string),
    parseInt_from (Z.pos acc) (NilEmpty.string_of_uint d +:+ rest)
    = parseInt_from (Z.pos (Pos.of_uint_acc d acc)) rest.
Proof.
  induction d as [|d IH|d IH|d IH|d IH|d IH|d IH|d IH|d IH|d IH|d IH];
    intros acc rest; [reflexivity|..];
    cbn [NilEmpty.string_of_uint Pos.of_uint_acc];
    rewrite <- IH;
    match goal with
    | |- parseInt_from ?a (String ?c ?s +:+ rest) = parseInt_from ?b _ =>
        change (parseInt_from (a * 10 + Z.of_nat (Js.code c - 48)) (s +:+ rest)
                = parseInt_from b (s +:+ rest))
    end;
    f_equal; vm_compute (Z.of_nat _); lia.
Qed.

Lemma parseInt_from_uint (d : Decimal.uint) (rest : string) :
  parseInt_from 0 (NilEmpty.string_of_uint d +:+ rest)
  = parseInt_from (Z.of_N (Pos.of_uint d)) rest.
Proof.
  induction d as [|d IH|d IH|d IH|d IH|d IH|d IH|d IH|d IH|d IH|d IH];
    [reflexivity | exact IH |..];
    cbn [NilEmpty.string_of_uint Pos.of_uint Z.of_N];
    rewrite <- parseInt_from_acc; reflexivity.
Qed.

Lemma show_positive (p : positive) :
  CertParser.show_Z (Z.pos p) = NilEmpty.string_of_uint (Pos.to_uint p).
Proof.
  unfold CertParser.show_Z. cbn [Z.to_int NilZero.string_of_int].
  unfold NilZero.string_of_uint.
  pose proof (Unsigned.to_uint_nonnil p) as Hnil.
  destruct (Pos.to_uint p); [contradiction | reflexivity ..].
Qed.

Lemma show_positive_digits (p : positive) :
  all_chars Js.is_digit (CertParser.show_Z (Z.pos p)) = true
  /\ Js.is_empty (CertParser.show_Z (Z.pos p)) = false.
Proof.
  rewrite show_positive. split; [apply digits_of_uint|].
  pose proof (Unsigned.to_uint_nonnil p) as Hnil.
  destruct (Pos.to_uint p); [contradiction | reflexivity ..].
Qed.

Lemma parseInt_from_show (p : positive) (rest : string) :
  parseInt_from 0 (CertParser.show_Z (Z.pos p) +:+ rest)
  = parseInt_from (Z.pos p) rest.
Proof.
  rewrite show_positive, parseInt_from_uint, Unsigned.of_to. reflexivity.
Qed.

Lemma digit_char (c : ascii) :
  Js.is_digit c = true ->
  Js.is_space c = false /\ Ascii.eqb c "-" = false /\ Ascii.eqb c "+" = false
  /\ Ascii.eqb c ":" = false /\ Ascii.eqb c "/" = false.
Proof.
  destruct c as [b0 b1 b2 b3 b4 b5 b6 b7].
  destruct b0, b1, b2, b3, b4, b5, b6, b7; vm_compute; intros H;
    first [discriminate | repeat split].
Qed.

Lemma digits_no_char (c : ascii) (s : string) :
  Js.is_digit c = false -> all_chars Js.is_digit s = true -> has_char c s = false.
Proof.
  intros Hc. induction s as [|d s IH]; [reflexivity|]. cbn [all_chars has_char].
  rewrite andb_true_iff. intros [Hd Hs]. rewrite (IH Hs), orb_false_r.
  destruct (Ascii.eqb d c) eqn:Hdc; [|reflexivity].
  apply Ascii.eqb_eq in Hdc. congruence.
Qed.

Lemma no_colon_no_scheme (s : string) :
  has_char ":" s = false -> Js.includes "://" s = false.
Proof.
  induction s as [|d s IH]; [reflexivity|]. cbn [has_char Js.includes Js.startsWith].
  intros H. apply orb_false_iff in H as [Hd Hs].
  rewrite Ascii.eqb_sym, Hd, (IH Hs). reflexivity.
Qed.

Lemma colon_no_scheme (a b : string) :
  has_char ":" a = false -> has_char ":" b = false ->
  Js.startsWith "/" b = false ->
  Js.includes "://" (a +:+ String ":" b) = false.
Proof.
  intros Ha Hb Hslash. induction a as [|d a IH].
  - change (EmptyString +:+ String ":" b) with (String ":" b).
    cbn [Js.includes]. rewrite (no_colon_no_scheme _ Hb), orb_false_r.
    change (Js.startsWith "://" (String ":" b))
      with (if Ascii.eqb ":" ":" then Js.startsWith "//" b else false).
    rewrite Ascii.eqb_refl. destruct b as [|x b]; [reflexivity|].
    change (Js.startsWith "//" (String x b))
      with (if Ascii.eqb "/" x then Js.startsWith "/" b else false).
    change (Js.startsWith "/" (String x b))
      with (if Ascii.eqb "/" x then true else false) in Hslash.
    destruct (Ascii.eqb "/" x); [discriminate|reflexivity].
  - cbn [has_char] in Ha. apply orb_false_iff in Ha as [Hd Ha].
    change (String d a +:+ String ":" b) with (String d (a +:+ String ":" b)).
    cbn [Js.includes Js.startsWith]. rewrite Ascii.eqb_sym, Hd, (IH Ha). reflexivity.
Qed.

Lemma parseInt_digits (digits rest : string) :
  all_chars Js.is_digit digits = true -> Js.is_empty digits = false ->
  DomainParser.parseInt (digits +:+ rest)
  = Some (parseInt_from 0 (digits +:+ rest)).
Proof.
  destruct digits as [|c digits]; [discriminate|]. cbn [all_chars].
  rewrite andb_true_iff. intros [Hc _] _.
  destruct (digit_char c Hc) as (Hspace & Hminus & Hplus & _).
  unfold DomainParser.parseInt.
  change (String c digits +:+ rest) with (String c (digits +:+ rest)).
  cbn [Js.trimStart]. rewrite Hspace, Hminus, Hplus. cbn [fst snd]. rewrite Hc.
  f_equal. lia.
Qed.

(** X19: an input made of a host name, a colon and a port number, with or
    without a path after it, is parsed into that host and that port: the
    host has no colon, slash or white space around it, the port is a
    positive number in decimal digits that the source's arithmetic
    represents exactly, and the path, if any, begins with a slash and has no
    colon. *)
Theorem parseDomain_host_port (url : DomainParser.UrlParser) (host : string)
  (p : positive) (path : string) :
  clean host = true ->
  has_char ":" host = false ->
  has_char "/" host = false ->
  safe_integer (Z.pos p) ->
  path = EmptyString
  \/ (Js.startsWith "/" path = true /\ has_char ":" path = false
      /\ last_space path = false) ->
  DomainParser.parseDomain url (host +:+ ":" +:+ CertParser.show_Z (Z.pos p) +:+ path)
  = DomainParser.mkParsed host (Some (Z.pos p)).
Proof.
  intros Hclean Hcolon Hslash _ Hpath.
  destruct (show_positive_digits p) as [Hdigits Hne].
  set (digits := CertParser.show_Z (Z.pos p)) in *.
  assert (Hpc : has_char ":" path = false) by (destruct Hpath as [->|(_ & H & _)]; auto).
  assert (Hpd : parseInt_from (Z.pos p) path = Z.pos p).
  { destruct Hpath as [->|(H & _)]; [reflexivity|].
    destruct path as [|x path]; [discriminate|]. cbn [Js.startsWith] in H.
    destruct (Ascii.eqb "/" x) eqn:Hx; [|discriminate].
    apply Ascii.eqb_eq in Hx as <-. reflexivity. }
  assert (Hrest : has_char ":" (digits +:+ path) = false).
  { rewrite has_char_app, Hpc, (digits_no_char ":" digits eq_refl Hdigits). reflexivity. }
  assert (Hfirst : Js.startsWith "/" (digits +:+ path) = false).
  { destruct digits as [|c ds]; [discriminate|]. cbn [all_chars] in Hdigits.
    apply andb_true_iff in Hdigits as [Hc _].
    destruct (digit_char c Hc) as (_ & _ & _ & _ & Hs).
    change (String c ds +:+ path) with (String c (ds +:+ path)).
    cbn [Js.startsWith]. rewrite Ascii.eqb_sym, Hs. reflexivity. }
  change (host +:+ ":" +:+ digits +:+ path)
    with (host +:+ String ":" (digits +:+ path)).
  assert (Htrim : Js.trim (host +:+ String ":" (digits +:+ path))
                  = host +:+ String ":" (digits +:+ path)).
  { apply trim_clean. apply clean_parts in Hclean as [Hf Hl]. unfold clean.
    assert (Hlast : last_space (host +:+ String ":" (digits +:+ path)) = false).
    { rewrite last_space_app by reflexivity.
      destruct Hpath as [->|(Hs & _ & Hl')].
      - rewrite sapp_nil_r.
        assert (Hd : last_space digits = false).
        { clear -Hdigits Hne. induction digits as [|c ds IH]; [discriminate|].
          cbn [all_chars] in Hdigits. apply andb_true_iff in Hdigits as [Hc Hds].
          destruct ds as [|c' ds']; [apply (digit_char c Hc)|].
          apply IH; [assumption | reflexivity]. }
        destruct digits; [discriminate | exact Hd].
      - replace (String ":" (digits +:+ path)) with ((":" +:+ digits) +:+ path)
          by (rewrite sapp_assoc; reflexivity).
        rewrite last_space_app; [exact Hl'|]. destruct path; [discriminate|reflexivity]. }
    rewrite Hlast. destruct host as [|h host]; [discriminate|].
    change (first_space (String h host +:+ String ":" (digits +:+ path)))
      with (first_space (String h host)).
    rewrite Hf. reflexivity. }
  unfold DomainParser.parseDomain. rewrite Htrim.
  rewrite (colon_no_scheme _ _ Hcolon Hrest Hfirst). cbn [fst snd].
  rewrite includes_char, has_char_app. cbn [has_char]. rewrite Ascii.eqb_refl.
  rewrite orb_true_r. cbn [orb fst snd].
  rewrite (split_char_app _ _ _ Hcolon), (split_char_none _ _ Hrest).
  cbn [lookup list_lookup default mbind option_bind].
  change (id host) with host.
  rewrite (split_char_none _ _ Hslash). cbn [head default].
  rewrite (parseInt_digits _ _ Hdigits Hne). unfold digits.
  rewrite parseInt_from_show, Hpd. reflexivity.
Qed.

Lemma parseDomain_host_port_witness :
  DomainParser.parseDomain (fun _ => None) "gm.example:8443/status"
  = DomainParser.mkParsed "gm.example" (Some 8443%Z).
Proof.
  apply (parseDomain_host_port (fun _ => None) "gm.example" 8443 "/status");
    [reflexivity | reflexivity | reflexivity | unfold safe_integer; lia |].
  right. repeat split.
Defined.

Lemma head_split_empty (sep : ascii) (s : string) :
  Js.is_empty (default EmptyString (head (Js.split_char sep s)))
  = Js.is_empty s || Js.startsWith (String sep EmptyString) s.
Proof.
  destruct s as [|c s]; [reflexivity|]. cbn [Js.split_char Js.is_empty Js.startsWith orb].
  rewrite (Ascii.eqb_sym sep c).
  destruct (Ascii.eqb c sep); [reflexivity|].
  destruct (Js.split_char sep s); reflexivity.
Qed.

Lemma head_split_first (c sep : ascii) (s : string) :
  Ascii.eqb c sep = false ->
  Js.startsWith (String c EmptyString)
                (default EmptyString (head (Js.split_char sep s)))
  = Js.startsWith (String c EmptyString) s.
Proof.
  intros Hc. destruct s as [|d s]; [reflexivity|]. cbn [Js.split_char Js.startsWith].
  destruct (Ascii.eqb d sep) eqn:Hd.
  - apply Ascii.eqb_eq in Hd as ->. rewrite Hc. reflexivity.
  - destruct (Js.split_char sep s); reflexivity.
Qed.

Lemma parseDomain_empty (url : DomainParser.UrlParser) (input : string) :
  Js.includes "://" (Js.trim input) = false ->
  Js.is_empty (DomainParser.domain (DomainParser.parseDomain url input))
  = Js.is_empty (Js.trim input) || Js.startsWith ":" (Js.trim input)
    || Js.startsWith "/" (Js.trim input).
Proof.
  intros Hscheme. unfold DomainParser.parseDomain. rewrite Hscheme.
  cbn [fst snd DomainParser.domain]. set (t := Js.trim input).
  destruct (Js.includes ":" t) eqn:Hcolon; cbn [fst snd].
  - rewrite <- head_lookup, !head_split_empty, head_split_first by reflexivity.
    reflexivity.
  - rewrite head_split_empty. rewrite includes_char in Hcolon.
    destruct t as [|c t']; [reflexivity|]. cbn [has_char] in Hcolon.
    apply orb_false_iff in Hcolon as [Hc _]. cbn [Js.is_empty Js.startsWith orb].
    rewrite (Ascii.eqb_sym ":" c), Hc. reflexivity.
Qed.

(** X20: for a domain parameter without a scheme, the handler answers 400
    exactly when the parameter is absent or empty, or when what is left of
    it after trimming is empty or begins with a colon or a slash; such a
    request is answered without any connection attempt. *)
Theorem certificate_bad_request (url : DomainParser.UrlParser)
  (probe : string -> option Z -> result Chain.t) (rawDomain rawPort : option string) :
  (forall d, rawDomain = Some d -> Js.includes "://" (Js.trim d) = false) ->
  (Route.status (Route.certificate url probe rawDomain rawPort) = 400%nat
   <-> Js.truthy rawDomain = false
       \/ exists d, rawDomain = Some d
            /\ Js.is_empty (Js.trim d) || Js.startsWith ":" (Js.trim d)
               || Js.startsWith "/" (Js.trim d) = true)
  /\ (Route.status (Route.certificate url probe rawDomain rawPort) = 400%nat ->
      forall probe',
        Route.certificate url probe' rawDomain rawPort
        = Route.certificate url probe rawDomain rawPort).
Proof.
  intros Hscheme. unfold Route.certificate. cbv zeta.
  destruct (Js.truthy rawDomain) eqn:Htruthy; cbn [negb].
  - destruct rawDomain as [d|]; [|discriminate].
    change (default EmptyString (Some d)) with d.
    specialize (Hscheme d eq_refl). rewrite (parseDomain_empty url d Hscheme).
    destruct (Js.is_empty (Js.trim d) || Js.startsWith ":" (Js.trim d)
              || Js.startsWith "/" (Js.trim d)) eqn:Hbad.
    + split; [|reflexivity]. split; [|reflexivity].
      intros _. right. exists d. split; [reflexivity | exact Hbad].
    + match goal with |- context [probe ?a ?b] => destruct (probe a b) end;
        cbn [Route.status]; (split; [|discriminate]); (split; [discriminate|]);
        intros [H|(d' & [= <-] & H)]; congruence.
  - split; [|reflexivity]. split; [|reflexivity]. intros _. left. reflexivity.
Qed.

Lemma certificate_bad_request_witness :
  Route.status (Route.certificate (fun _ => None) (fun _ _ => Err "unused")
                                  (Some "  :8443 ") None) = 400%nat.
Proof.
  apply (certificate_bad_request (fun _ => None) (fun _ _ => Err "unused")
                                 (Some "  :8443 ") None).
  - intros d [= <-]. reflexivity.
  - right. exists "  :8443 ". split; reflexivity.
Defined.




(** X22: on the live path a name is cut at its second colon: of a name with
    a colon inside its value, such as a URI or an IPv6 address, the record
    of a certificate with readable validity dates keeps the kind and the
    part of the value before that colon. *)
Theorem live_alt_name_cut {date : DateReader} (cert : Peer.t) (kind value rest : string) :
  has_char ":" kind = false ->
  has_char ":" value = false ->
  has_char "," (kind +:+ ":" +:+ value +:+ ":" +:+ rest) = false ->
  Peer.subjectaltname cert = Some (kind +:+ ":" +:+ value +:+ ":" +:+ rest) ->
  dated cert ->
  exists record,
    CertParser.parseCertificate cert = Ok record
    /\ Cert.subjectAltNames record
       = SanEntries [AltName.mk (Some kind) (Some value)].
Proof.
  intros Hkind Hvalue Hcomma Hcert Hdated.
  exists (parsed cert). split; [apply parseCertificate_dated; exact Hdated|].
  unfold parsed. cbn [CertParser.record Cert.subjectAltNames]. rewrite Hcert.
  unfold CertParser.parseAltNames.
  assert (Hne : Js.truthy (Some (kind +:+ ":" +:+ value +:+ ":" +:+ rest)) = true).
  { destruct kind; reflexivity. }
  rewrite Hne. change (default EmptyString (Some ?s)) with s.
  rewrite (split_comma_space_none _ Hcomma). cbn [map]. unfold CertParser.altName_of.
  change (kind +:+ ":" +:+ value +:+ ":" +:+ rest)
    with (kind +:+ String ":" (value +:+ String ":" rest)).
  rewrite (split_char_app _ _ _ Hkind), (split_char_app _ _ _ Hvalue). reflexivity.
Qed.

Lemma live_alt_name_cut_witness :
  exists record,
    CertParser.parseCertificate (date := Sample.utc) Inputs.uriPeer = Ok record
    /\ Cert.subjectAltNames record
       = SanEntries [AltName.mk (Some "URI") (Some "https")].
Proof.
  apply (live_alt_name_cut (date := Sample.utc) Inputs.uriPeer "URI" "https"
           "//acme.example/id");
    try reflexivity.
  split; discriminate.
Defined.

Lemma num_or_twice (o : option Z) (d : Z) : num_or o (num_or o d) = num_or o d.
Proof. destruct o as [n|]; [|reflexivity]. cbn. destruct (n =? 0)%Z; reflexivity. Qed.

(** X23: the key size of a record and the key size inside its publicKey are
    the same number, except for the keys whose publicKey size is fixed at
    256: SM2 keys on either path, and raw 32- or 44-byte keys on the live
    path.  On the live path the record is that of any certificate object
    whose validity dates are readable, the only ones that have a record. *)
Theorem key_sizes_agree {date : DateReader} :
  (forall cert : Peer.t,
     (dated cert <-> exists record, CertParser.parseCertificate cert = Ok record)
     /\ forall record, CertParser.parseCertificate cert = Ok record ->
     Cert.bits record = PublicKey.bits (Cert.publicKey record)
     \/ (PublicKey.bits (Cert.publicKey record) = 256%Z
         /\ (PublicKey.type (Cert.publicKey record) = SM2
             \/ PublicKey.algorithm (Cert.publicKey record) = "Ed25519")))
  /\ (forall pem text : string,
        let record := parsePEMText pem text in
        Cert.bits record = PublicKey.bits (Cert.publicKey record)
        \/ (PublicKey.bits (Cert.publicKey record) = 256%Z
            /\ PublicKey.type (Cert.publicKey record) = SM2
            /\ Cert.isGM record = Some true)).
Proof.
  split.
  - intros cert. split.
    { split; [intros H; exists (parsed cert); apply parseCertificate_dated; exact H|].
      intros [record H]. apply parseCertificate_ok in H as [H _]. exact H. }
    intros record [_ ->]%parseCertificate_ok.
    unfold parsed. cbn [CertParser.record Cert.bits Cert.publicKey].
    unfold CertParser.parsePublicKeyAlgorithm.
    destruct (Js.truthy (Peer.asn1Curve cert)).
    + destruct (CertParser.is_sm2_curve _); cbn [PublicKey.bits PublicKey.type].
      * right. auto.
      * left. apply num_or_twice.
    + destruct (Js.truthy (Peer.modulus cert)); cbn [PublicKey.bits].
      * left. apply num_or_twice.
      * destruct (Peer.pubkey cert) as [key|].
        -- destruct ((length key =? 32)%nat || (length key =? 44)%nat);
             cbn [PublicKey.bits PublicKey.algorithm].
           ++ right. auto.
           ++ left. apply num_or_twice.
        -- left. apply num_or_twice.
  - intros pem text. unfold parsePEMText.
    cbn [Cert.bits Cert.publicKey Cert.isGM].
    destruct (isGM_of text); cbn [negb andb PublicKey.bits PublicKey.type].
    + right. auto.
    + left. destruct (_ || _); reflexivity.
Qed.

Lemma key_sizes_agree_witness :
  exists record,
    CertParser.parseCertificate (date := Sample.utc) Sample.sm2Peer = Ok record
    /\ (Cert.bits record = PublicKey.bits (Cert.publicKey record)
        \/ (PublicKey.bits (Cert.publicKey record) = 256%Z
            /\ (PublicKey.type (Cert.publicKey record) = SM2
                \/ PublicKey.algorithm (Cert.publicKey record) = "Ed25519"))).
Proof.
  destruct (key_sizes_agree (date := Sample.utc)) as [Hlive _].
  destruct (Hlive Sample.sm2Peer) as [Hdated Hbits].
  destruct (proj1 Hdated) as [record Hrecord]; [split; discriminate|].
  exists record. split; [exact Hrecord | exact (Hbits record Hrecord)].
Defined.




Lemma split_char_nonempty (sep : ascii) (s : string) : Js.split_char sep s <> [].
Proof.
  destruct s as [|c s]; [discriminate|]. cbn [Js.split_char].
  destruct (Ascii.eqb c sep); [discriminate|].
  destruct (Js.split_char sep s); discriminate.
Qed.

Lemma join_cons (sep x : string) (l : list string) :
  l <> [] -> CertParser.join sep (x :: l) = x +:+ sep +:+ CertParser.join sep l.
Proof. destruct l; [contradiction | reflexivity]. Qed.

Lemma join_split (sep : ascii) (s : string) :
  CertParser.join (String sep EmptyString) (Js.split_char sep s) = s.
Proof.
  induction s as [|c s IH]; [reflexivity|]. cbn [Js.split_char].
  pose proof (split_char_nonempty sep s) as Hne.
  destruct (Ascii.eqb c sep) eqn:Hc.
  - apply Ascii.eqb_eq in Hc as ->. rewrite (join_cons _ _ _ Hne), IH. reflexivity.
  - destruct (Js.split_char sep s) as [|w ws]; [contradiction|]. cbn [Js.cons_head].
    destruct ws as [|w' ws].
    + cbn [CertParser.join] in *. rewrite IH. reflexivity.
    + rewrite join_cons in * by discriminate.
      change (String c w +:+ String sep EmptyString +:+ CertParser.join (String sep EmptyString) (w' :: ws))
        with (String c (w +:+ String sep EmptyString +:+ CertParser.join (String sep EmptyString) (w' :: ws))).
      rewrite IH. reflexivity.
Qed.

Lemma join_app (sep : string) (a b : list string) :
  a <> [] -> b <> [] ->
  CertParser.join sep (a ++ b)
  = CertParser.join sep a +:+ sep +:+ CertParser.join sep b.
Proof.
  intros Ha Hb. induction a as [|x a IH]; [contradiction|].
  destruct a as [|y a].
  - cbn [app]. rewrite (join_cons _ _ _ Hb). reflexivity.
  - change ((x :: y :: a) ++ b) with (x :: ((y :: a) ++ b)).
    rewrite join_cons by discriminate. rewrite IH by discriminate.
    rewrite (join_cons sep x (y :: a)) by discriminate.
    rewrite !sapp_assoc. reflexivity.
Qed.

Lemma join_last_n (sep : string) (n : nat) (parts : list string) :
  (0 < n <= length parts)%nat ->
  exists before, CertParser.join sep parts
                 = before +:+ CertParser.join sep (Client.last_n n parts).
Proof.
  intros Hn. unfold Client.last_n.
  destruct (length parts - n)%nat as [|k] eqn:Hk.
  - exists EmptyString. reflexivity.
  - assert (Hparts : CertParser.join sep parts
                     = CertParser.join sep (take (S k) parts ++ drop (S k) parts))
      by (rewrite take_drop; reflexivity).
    assert (Ht : take (S k) parts <> []).
    { intros H. apply (f_equal length) in H. rewrite length_take in H.
      cbn [length] in H. lia. }
    assert (Hd : drop (S k) parts <> []).
    { intros H. apply (f_equal length) in H. rewrite length_drop in H.
      cbn [length] in H. lia. }
    rewrite Hparts, (join_app _ _ _ Ht Hd), <- sapp_assoc. eexists. reflexivity.
Qed.

Lemma count_char_app (c : ascii) (a b : string) :
  count_char c (a +:+ b) = (count_char c a + count_char c b)%nat.
Proof.
  induction a as [|d a IH]; [reflexivity|].
  change (String d a +:+ b) with (String d (a +:+ b)). cbn [count_char].
  rewrite IH. lia.
Qed.

Lemma count_char_none (c : ascii) (s : string) :
  has_char c s = false -> count_char c s = 0%nat.
Proof.
  induction s as [|d s IH]; [reflexivity|]. cbn [has_char count_char].
  intros H. apply orb_false_iff in H as [-> Hs]. rewrite (IH Hs). reflexivity.
Qed.

Lemma count_char_join (c : ascii) (parts : list string) :
  Forall (fun w => has_char c w = false) parts ->
  count_char c (CertParser.join (String c EmptyString) parts)
  = (length parts - 1)%nat.
Proof.
  induction 1 as [|w ws Hw Hws IH]; [reflexivity|].
  destruct ws as [|w' ws]; [apply count_char_none; assumption|].
  rewrite join_cons by discriminate. rewrite !count_char_app, IH.
  rewrite (count_char_none _ _ Hw). cbn [count_char length].
  rewrite Ascii.eqb_refl. lia.
Qed.

Lemma count_char_last_n (c : ascii) (n : nat) (parts : list string) :
  Forall (fun w => has_char c w = false) parts ->
  (count_char c (CertParser.join (String c EmptyString) (Client.last_n n parts))
   <= n - 1)%nat.
Proof.
  intros Hall. unfold Client.last_n. rewrite count_char_join.
  - rewrite length_drop. lia.
  - apply Forall_drop. assumption.
Qed.

Lemma strip_wildcard_cases (domain : string) :
  domain = Client.strip_wildcard domain
  \/ domain = "*." +:+ Client.strip_wildcard domain.
Proof.
  destruct domain as [|a rest]; [left; reflexivity|].
  destruct a as [[] [] [] [] [] [] [] []]; try (left; reflexivity).
  destruct rest as [|b rest]; [left; reflexivity|].
  destruct b as [[] [] [] [] [] [] [] []]; try (left; reflexivity).
  right. reflexivity.
Qed.

(** X25: the key under which the panel groups a name is always an end
    piece of the name, and has at most three labels: at most two dots. *)
Theorem root_domain_shape (domain : string) :
  (exists before, domain = before +:+ Client.getRootDomain domain)
  /\ (count_char "." (Client.getRootDomain domain) <= 2)%nat.
Proof.
  unfold Client.getRootDomain.
  set (clean := Client.strip_wildcard domain).
  assert (Hclean : exists before, domain = before +:+ clean).
  { destruct (strip_wildcard_cases domain) as [H|H];
      [exists EmptyString | exists "*."]; exact H. }
  pose proof (join_split "." clean) as Hjoin.
  pose proof (split_char_no_sep "." clean) as Hparts.
  set (parts := Js.split_char "." clean) in *.
  destruct Hclean as [before Hbefore].
  assert (Hlast : forall n, (0 < n <= length parts)%nat ->
            exists before', domain = before' +:+ CertParser.join "." (Client.last_n n parts)).
  { intros n Hn. destruct (join_last_n "." n parts Hn) as [mid Hmid].
    exists (before +:+ mid). rewrite sapp_assoc, <- Hmid, Hjoin. exact Hbefore. }
  destruct (length parts <=? 2)%nat eqn:Hlen.
  - split; [exists before; exact Hbefore|].
    apply Nat.leb_le in Hlen. rewrite <- Hjoin, (count_char_join _ _ Hparts). lia.
  - apply Nat.leb_gt in Hlen.
    destruct (existsb _ Client.specialTlds).
    + split; [apply Hlast; lia|].
      pose proof (count_char_last_n "." 3 parts Hparts). lia.
    + split; [apply Hlast; lia|].
      pose proof (count_char_last_n "." 2 parts Hparts). lia.
Qed.
